(** * SIGAR core: growable collections, interface enumeration,
      interface configuration, filesystem types and FQDN resolution.

    A shallow embedding of [src/sigar.c] (the non-WIN32, Linux build:
    [SIOCGIFHWADDR] and [__linux__] defined, [_AIX]/[__osf__] not defined),
    with the kernel, the resolver library and the constants of the headers
    that are not part of the sources taken as parameters.

    Conventions.  A function that writes through a pointer returns the new
    value of what it points to; the kernel is a state machine and every
    system call is logged; [errno] is a field of the process state, set by
    each reply; logging ([sigar_log], [sigar_log_printf]) has no effect on
    what is modelled and is left out; allocation always succeeds, as the
    code assumes. *)

From Stdlib Require Import ZArith Lia Bool Ascii String.
From stdpp Require Import base list strings.

Local Open Scope nat_scope.

(* ===================================================================== *)
(** ** The allocator *)
(* ===================================================================== *)

(** Pointers are block identifiers.  The allocator hands out fresh
    identifiers and keeps the log of the arguments [free] was called with
    ([None]: an indeterminate pointer read from uninitialised storage). *)
Definition ptr := nat.

Record mem := Mem {
  m_next  : ptr;
  m_freed : list (option ptr)
}.

Definition malloc (m : mem) : ptr * mem :=
  (m_next m, Mem (S (m_next m)) (m_freed m)).

(** [realloc] moves the block: a fresh identifier, contents preserved by
    the caller's model of the block. *)
Definition realloc (p : option ptr) (m : mem) : ptr * mem :=
  (m_next m, Mem (S (m_next m)) (m_freed m)).

Definition free (p : option ptr) (m : mem) : mem :=
  Mem (m_next m) (m_freed m ++ [p]).

(* ===================================================================== *)
(** ** Growable collections ([sigar_*_list_t]) *)
(* ===================================================================== *)

(** Every list type of sigar is the same struct: [number] (count), [size]
    (capacity, in elements) and [data], the storage.  [data] is [None]
    before [create]; [cells] is the content of the block [data] points to,
    one entry per element slot, [None] for a slot never written. *)
Record sigar_list (T : Type) := SigarList {
  number : nat;
  size   : nat;
  data   : option ptr;
  cells  : list (option T)
}.
Arguments SigarList {T} _ _ _ _.
Arguments number {T} _.
Arguments size {T} _.
Arguments data {T} _.
Arguments cells {T} _.

Section GrowableCollection.
Context {T : Type}.
(** The chunk constant of the list kind ([SIGAR_PROC_LIST_MAX],
    [SIGAR_WHO_LIST_MAX], ...), declared in a header. *)
Variable K : nat.

(** [sigar_proc_list_create], [sigar_who_list_create] and their siblings:
    the fields are overwritten whatever they held. *)
Definition sigar_list_create (l : sigar_list T) (m : mem)
  : sigar_list T * mem :=
  let '(p, m') := malloc m in
  (SigarList 0 K (Some p) (replicate K None), m').

(** [sigar_proc_list_grow], [sigar_who_list_grow] and their siblings. *)
Definition sigar_list_grow (l : sigar_list T) (m : mem)
  : sigar_list T * mem :=
  let '(p, m') := realloc (data l) m in
  (SigarList (number l) (size l + K) (Some p)
             (cells l ++ replicate K None), m').

(** Modelled from the spec: the macros [SIGAR_WHO_LIST_GROW],
    [SIGAR_PROC_LIST_GROW], ... of [sigar_private.h], which is not part of
    the sources: grow is invoked exactly when count == capacity at
    insertion time. *)
Definition SIGAR_LIST_GROW (l : sigar_list T) (m : mem)
  : sigar_list T * mem :=
  if number l =? size l then sigar_list_grow l m else (l, m).

(** The insertion of [sigar_who_list_get]:
    [SIGAR_WHO_LIST_GROW(wholist); who = &wholist->data[wholist->number++];]
    followed by the stores into [*who].  A store outside the block is
    undefined behaviour: [None]. *)
Definition sigar_list_insert (x : T) (l : sigar_list T) (m : mem)
  : option (sigar_list T * mem) :=
  let '(l1, m1) := SIGAR_LIST_GROW l m in
  if decide (number l1 < length (cells l1)) then
    Some (SigarList (S (number l1)) (size l1) (data l1)
                    (<[number l1 := Some x]> (cells l1)), m1)
  else None.

(** [N] insertions in a row, as the read loop of [sigar_who_list_get]
    performs them. *)
Fixpoint sigar_list_insert_all (xs : list T) (l : sigar_list T) (m : mem)
  : option (sigar_list T * mem) :=
  match xs with
  | [] => Some (l, m)
  | x :: xs' =>
      match sigar_list_insert x l m with
      | Some (l', m') => sigar_list_insert_all xs' l' m'
      | None => None
      end
  end.

(** Reading [data[0 .. number-1]] back, in index order. *)
Definition sigar_list_read (l : sigar_list T) : list (option T) :=
  take (number l) (cells l).

(** [sigar_proc_list_destroy], [sigar_who_list_destroy] and the other
    lists of plain values. *)
Definition sigar_list_destroy (l : sigar_list T) (m : mem)
  : sigar_list T * mem :=
  if size l =? 0 then (l, m)
  else (SigarList 0 0 (data l) (cells l), free (data l) m).
End GrowableCollection.

(** An element that owns heap storage of its own: a [strdup]ed name. *)
Record cstr := CStr { cs_ptr : ptr; cs_val : string }.

(** The loop [for (i=0; i<number; i++) free(data[i]);] *)
Definition free_elements (es : list (option cstr)) (m : mem) : mem :=
  foldl (fun m e => free (cs_ptr <$> e) m) m es.

(** [sigar_net_interface_list_destroy] (and [sigar_proc_args_destroy]):
    each element is released before the storage. *)
Definition sigar_net_interface_list_destroy
    (l : sigar_list cstr) (m : mem) : sigar_list cstr * mem :=
  if size l =? 0 then (l, m)
  else (SigarList 0 0 (data l) (cells l),
        free (data l) (free_elements (take (number l) (cells l)) m)).

(** ceil(n/k) on natural numbers. *)
Definition ceil_div (n k : nat) : nat := (n + k - 1) / k.

(* ===================================================================== *)
(** ** C strings *)
(* ===================================================================== *)

(** [strchr]: the suffix of [s] that starts at the first [c], if any. *)
Fixpoint strchr (s : string) (c : ascii) : option string :=
  match s with
  | EmptyString => None
  | String x s' => if Ascii.eqb x c then Some s else strchr s' c
  end.

(** [strncmp(a, b, n) == 0]. *)
Fixpoint strncmp_eq (a b : string) (n : nat) {struct n} : bool :=
  match n with
  | 0 => true
  | S n' =>
      match a, b with
      | EmptyString, EmptyString => true
      | String x a', String y b' =>
          if Ascii.eqb x y then strncmp_eq a' b' n' else false
      | _, _ => false
      end
  end.

Definition strlen (s : string) : nat := String.length s.

(** Modelled from the spec: the macros [strEQ] and [strnEQ] of
    [sigar_private.h], which is not part of the sources: string equality,
    and the "prefix match" of the alias rule. *)
Definition strEQ (a b : string) : bool := String.eqb a b.
Definition strnEQ (a b : string) (n : nat) : bool := strncmp_eq a b n.

(** [#define IS_FQDN(name) strchr(name, '.')], used as a truth value. *)
Definition IS_FQDN (name : string) : bool :=
  match strchr name "."%char with Some _ => true | None => false end.

(** [#define H_ALIAS_MATCH(alias, name)
       (IS_FQDN(alias) && strnEQ(alias, name, strlen(name)))] *)
Definition H_ALIAS_MATCH (alias name : string) : bool :=
  IS_FQDN alias && strnEQ alias name (strlen name).

(* ===================================================================== *)
(** ** Filesystem types *)
(* ===================================================================== *)

(** [sigar_file_system_type_e], declared in [sigar.h] (not part of the
    sources).  The values are those the table [fstype_names], "indexed with
    sigar_file_system_type_e", fixes: seven enumerators from 0 in the order
    of the names, then [SIGAR_FSTYPE_MAX].  The enumeration has no negative
    enumerator; the field is modelled as a natural number, which can hold
    values at or beyond [SIGAR_FSTYPE_MAX]. *)
Definition SIGAR_FSTYPE_UNKNOWN    : N := 0.
Definition SIGAR_FSTYPE_NONE       : N := 1.
Definition SIGAR_FSTYPE_LOCAL_DISK : N := 2.
Definition SIGAR_FSTYPE_NETWORK    : N := 3.
Definition SIGAR_FSTYPE_RAM_DISK   : N := 4.
Definition SIGAR_FSTYPE_CDROM      : N := 5.
Definition SIGAR_FSTYPE_SWAP       : N := 6.
Definition SIGAR_FSTYPE_MAX        : N := 7.

Definition fstype_names : list string :=
  ["unknown"; "none"; "local"; "remote"; "ram"; "cdrom"; "swap"]%string.

(** The fields of [sigar_file_system_t] the type lookup touches. *)
Record sigar_file_system_t := FileSystem {
  fs_type       : N;
  sys_type_name : string;
  type_name     : string
}.

Definition set_fs_type (t : N) (fsp : sigar_file_system_t)
  : sigar_file_system_t :=
  FileSystem t (sys_type_name fsp) (type_name fsp).

(** [sigar_common_fs_type_get]: the updated struct and the returned
    [fsp->type]. *)
Definition sigar_common_fs_type_get (fsp : sigar_file_system_t)
  : sigar_file_system_t * N :=
  let type := sys_type_name fsp in
  let fsp' :=
    match type with
    | EmptyString => fsp
    | String c _ =>
        if Ascii.eqb c "n" then
          if strEQ type "nfs" then set_fs_type SIGAR_FSTYPE_NETWORK fsp
          else fsp
        else if Ascii.eqb c "s" then
          if strEQ type "smbfs" then set_fs_type SIGAR_FSTYPE_NETWORK fsp
          else if strEQ type "swap" then set_fs_type SIGAR_FSTYPE_SWAP fsp
          else fsp
        else if Ascii.eqb c "a" then
          if strEQ type "afs" then set_fs_type SIGAR_FSTYPE_NETWORK fsp
          else fsp
        else if Ascii.eqb c "i" then
          if strEQ type "iso9660" then set_fs_type SIGAR_FSTYPE_CDROM fsp
          else fsp
        else if Ascii.eqb c "m" then
          if strEQ type "msdos" || strEQ type "minix"
          then set_fs_type SIGAR_FSTYPE_LOCAL_DISK fsp
          else fsp
        else if Ascii.eqb c "h" then
          if strEQ type "hpfs" then set_fs_type SIGAR_FSTYPE_LOCAL_DISK fsp
          else fsp
        else if Ascii.eqb c "v" then
          if strEQ type "vfat" then set_fs_type SIGAR_FSTYPE_LOCAL_DISK fsp
          else fsp
        else fsp
    end in
  (fsp', fs_type fsp').

Section FsType.
(** The OS-specific lookup ([os/*/..._sigar.c], not part of the sources):
    it may update the struct and returns an [int]. *)
Variable sigar_os_fs_type_get :
  sigar_file_system_t -> sigar_file_system_t * Z.

(** [sigar_fs_type_get].  [strcpy] from a table entry that does not exist
    is undefined behaviour: [None]. *)
Definition sigar_fs_type_get (fsp : sigar_file_system_t)
  : option sigar_file_system_t :=
  let fsp1 :=
    if negb (fs_type fsp =? 0)%N then fsp          (* already set *)
    else
      let '(fsp_os, r_os) := sigar_os_fs_type_get fsp in
      if negb (r_os =? 0)%Z then fsp_os            (* os specifics *)
      else
        let '(fsp_c, r_c) := sigar_common_fs_type_get fsp_os in
        if negb (r_c =? 0)%N then fsp_c            (* common ones *)
        else set_fs_type SIGAR_FSTYPE_NONE fsp_c in
  let fsp2 :=
    if (SIGAR_FSTYPE_MAX <=? fs_type fsp1)%N
    then set_fs_type SIGAR_FSTYPE_NONE fsp1 else fsp1 in
  match fstype_names !! N.to_nat (fs_type fsp2) with
  | Some nm => Some (FileSystem (fs_type fsp2) (sys_type_name fsp2) nm)
  | None => None
  end.
End FsType.

(* ===================================================================== *)
(** ** Machine integers, outcomes *)
(* ===================================================================== *)

(** Conversion to [int] (32 bits, two's complement) and to
    [sigar_uint64_t]. *)
Definition to_int (z : Z) : Z := ((z + 2 ^ 31) mod 2 ^ 32 - 2 ^ 31)%Z.
Definition to_u64 (z : Z) : Z := (z mod 2 ^ 64)%Z.
Definition INT_MAX : Z := (2 ^ 31 - 1)%Z.

(** The outcome of running a piece of code: it returns, it faults
    (undefined behaviour such as a null dereference or a store outside a
    block), or the fuel given to a [for (;;)] loop ran out. *)
Inductive run (A : Type) : Type :=
  | Done (a : A)
  | Fault
  | NoFuel.
Arguments Done {A} _.
Arguments Fault {A}.
Arguments NoFuel {A}.

#[global] Instance run_ret : MRet run := @Done.
#[global] Instance run_bind : MBind run := fun A B f c =>
  match c with
  | Done a => f a
  | Fault => Fault
  | NoFuel => NoFuel
  end.

(* ===================================================================== *)
(** ** Platform constants and the kernel *)
(* ===================================================================== *)

(** What the headers outside the sources define: system constants, the
    constants of [sigar.h] and the copy macro of [sigar_private.h]
    ([SIGAR_STRNCPY src len] is the content of the destination after
    [SIGAR_STRNCPY(dest, src, len)]). *)
Record platform := Platform {
  SIGAR_OK             : Z;
  EINVAL               : Z;
  sizeof_ifreq         : positive;
  SIGAR_NET_IFLIST_MAX : positive;
  IFNAMSIZ             : Z;
  sizeof_ifconfig_name : Z;
  IFF_LOOPBACK         : Z;
  IFF_MULTICAST        : Z;
  SIGAR_IFF_LOOPBACK   : Z;
  SIGAR_IFF_MULTICAST  : Z;
  SIGAR_FQDN_LEN       : Z;
  SIGAR_NULL_HWADDR    : string;
  SIGAR_STRNCPY        : string -> Z -> string
}.

Inductive ioctl_req :=
  | SIOCGIFADDR | SIOCGIFNETMASK | SIOCGIFFLAGS | SIOCGIFDSTADDR
  | SIOCGIFBRDADDR | SIOCGIFHWADDR | SIOCGIFMTU | SIOCGIFMETRIC.

(** The reply to [ioctl(sock, SIOCGIFCONF, &ifc)]: the return value, [errno]
    after the call, [ifc.ifc_len] after the call and the names in the
    record array [ifc.ifc_req] after the call. *)
Record ifconf_reply := IfconfReply {
  ic_ret   : Z;
  ic_errno : Z;
  ic_len   : Z;
  ic_req   : nat -> string
}.

(** The reply to a per-interface [ioctl(sock, req, &ifr)]: the return value,
    [errno] after the call, the scalar member of the [ifreq] union the
    request fills ([sin_addr.s_addr], [ifr_flags], [ifr_mtu], [ifr_metric])
    and the bytes of [ifr_hwaddr.sa_data]. *)
Record ifreq_reply := IfreqReply {
  ir_ret    : Z;
  ir_errno  : Z;
  ir_val    : Z;
  ir_hwaddr : list Z
}.

(** A kernel is a state machine: each system call answers from the current
    state and moves to the next one, so that any sequence of replies is the
    behaviour of some kernel.  [k_socket] gives the return value and [errno]
    after the call; [k_ifconf] takes the descriptor and the [ifc_len]
    offered; [k_ifreq] the descriptor, the request and [ifr_name]. *)
Record kernel (K : Type) := Kernel {
  k_socket : K -> Z * Z * K;
  k_ifconf : K -> Z -> Z -> ifconf_reply * K;
  k_ifreq  : K -> Z -> ioctl_req -> string -> ifreq_reply * K
}.
Arguments Kernel {K} _ _ _.
Arguments k_socket {K} _ _.
Arguments k_ifconf {K} _ _ _ _.
Arguments k_ifreq {K} _ _ _ _ _.

Inductive event :=
  | EvSocket (ret : Z)
  | EvIfconf (fd : Z) (len : Z)
  | EvIfreq (fd : Z) (req : ioctl_req) (ifr_name : string)
  | EvClose (fd : Z).

(** The process as the code sees it: the kernel, [errno], the descriptors
    that are open (most recent first), the system calls made so far and the
    allocator. *)
Record world (K : Type) := World {
  w_kernel : K;
  w_errno  : Z;
  w_fds    : list Z;
  w_log    : list event;
  w_mem    : mem
}.
Arguments World {K} _ _ _ _ _.
Arguments w_kernel {K} _.
Arguments w_errno {K} _.
Arguments w_fds {K} _.
Arguments w_log {K} _.
Arguments w_mem {K} _.

(** The fields of [sigar_t] the enumeration uses. *)
Record sigar_t := Sigar {
  ifconf_buf : option ptr;
  ifconf_len : Z
}.

Fixpoint remove_fd (fd : Z) (fds : list Z) : list Z :=
  match fds with
  | [] => []
  | x :: r => if (x =? fd)%Z then r else x :: remove_fd fd r
  end.

Record sigar_net_interface_config_t := IfConfig {
  cfg_name        : string;
  cfg_hwaddr      : string;
  cfg_address     : Z;
  cfg_destination : Z;
  cfg_broadcast   : Z;
  cfg_netmask     : Z;
  cfg_flags       : Z;
  cfg_mtu         : Z;
  cfg_metric      : Z
}.

(** [SIGAR_ZERO(ifconfig)] *)
Definition ifconfig_zero : sigar_net_interface_config_t :=
  IfConfig "" "" 0 0 0 0 0 0 0.

Definition hex_digit (n : Z) : ascii :=
  nth (Z.to_nat n)
      ["0"; "1"; "2"; "3"; "4"; "5"; "6"; "7";
       "8"; "9"; "A"; "B"; "C"; "D"; "E"; "F"]%char "0"%char.

(** ["%02X"] of a value in 0..255. *)
Definition fmt_02X (b : Z) : string :=
  String (hex_digit (b / 16)) (String (hex_digit (b mod 16)) EmptyString).

(** [sigar_hwaddr_format]: the string written to [buff]. *)
Definition sigar_hwaddr_format (p : list Z) : string :=
  let b i := fmt_02X (Z.land (nth i p 0%Z) 255) in
  (b 0 +:+ ":" +:+ b 1 +:+ ":" +:+ b 2 +:+ ":" +:+
   b 3 +:+ ":" +:+ b 4 +:+ ":" +:+ b 5)%string.

Definition dec_digit (u : Z) : ascii := ascii_of_nat (48 + Z.to_nat u).

(** One round of the [do ... while] of [sigar_inet_ntoa], without the
    separator. *)
Definition ntoa_octet (u : Z) : string :=
  if (99 <? u)%Z then
    String (dec_digit (u / 100))
      (String (dec_digit (u mod 100 / 10))
         (String (dec_digit (u mod 100 mod 10)) EmptyString))
  else if (9 <? u)%Z then
    String (dec_digit (u / 10)) (String (dec_digit (u mod 10)) EmptyString)
  else String (dec_digit u) EmptyString.

(** [sigar_inet_ntoa]: the string written to [addr_str].  [src] walks the
    four bytes of [addr.s_addr] in memory order (little-endian host). *)
Definition sigar_inet_ntoa (address : Z) : string :=
  let s_addr := (address mod 2 ^ 32)%Z in
  let src i := (s_addr / 2 ^ (8 * i) mod 256)%Z in
  (ntoa_octet (src 0%Z) +:+ "." +:+ ntoa_octet (src 1%Z) +:+ "." +:+
   ntoa_octet (src 2%Z) +:+ "." +:+ ntoa_octet (src 3%Z))%string.

(* ===================================================================== *)
(** ** Interface enumeration and configuration *)
(* ===================================================================== *)

(** How one round of the [for (;;)] of [sigar_net_interface_list_get]
    ends. *)
Inductive ifconf_exit :=
  | LoopReturn (status : Z)
  | LoopBreak
  | LoopContinue (lastlen : Z).

Definition set_mem {K} (m : mem) (w : world K) : world K :=
  World (w_kernel w) (w_errno w) (w_fds w) (w_log w) m.

Section Net.
Context {K : Type}.
Variable P : platform.
Variable kern : kernel K.

(** [socket(AF_INET, SOCK_DGRAM, 0)] *)
Definition sys_socket (w : world K) : Z * world K :=
  let '(fd, e, k') := k_socket kern (w_kernel w) in
  (fd, World k' e (if (fd <? 0)%Z then w_fds w else fd :: w_fds w)
             (w_log w ++ [EvSocket fd]) (w_mem w)).

(** [close(fd)]: the descriptor is released; [errno] is left as it is. *)
Definition sys_close (fd : Z) (w : world K) : world K :=
  World (w_kernel w) (w_errno w) (remove_fd fd (w_fds w))
        (w_log w ++ [EvClose fd]) (w_mem w).

(** [ioctl(sock, SIOCGIFCONF, &ifc)] with [ifc.ifc_len = len]. *)
Definition sys_ifconf (fd len : Z) (w : world K) : ifconf_reply * world K :=
  let '(r, k') := k_ifconf kern (w_kernel w) fd len in
  (r, World k' (ic_errno r) (w_fds w) (w_log w ++ [EvIfconf fd len])
            (w_mem w)).

(** [ioctl(sock, req, &ifr)] with [ifr.ifr_name = nm]. *)
Definition sys_ifreq (fd : Z) (req : ioctl_req) (nm : string) (w : world K)
  : ifreq_reply * world K :=
  let '(r, k') := k_ifreq kern (w_kernel w) fd req nm in
  (r, World k' (ir_errno r) (w_fds w) (w_log w ++ [EvIfreq fd req nm])
            (w_mem w)).

(** [sizeof(struct ifreq) * SIGAR_NET_IFLIST_MAX] *)
Definition ifconf_increment : Z :=
  Z.pos (sizeof_ifreq P * SIGAR_NET_IFLIST_MAX P).

(** One round of the [for (;;)] of [sigar_net_interface_list_get]. *)
Definition ifconf_iter (sock lastlen : Z) (s : sigar_t) (w : world K)
  : sigar_t * world K * ifconf_reply * ifconf_exit :=
  let '(s1, w1) :=
    if negb (bool_decide (is_Some (ifconf_buf s))) || negb (lastlen =? 0)%Z
    then
      let len' := to_int (ifconf_len s + ifconf_increment) in
      let '(p, m') := realloc (ifconf_buf s) (w_mem w) in
      (Sigar (Some p) len', set_mem m' w)
    else (s, w) in
  let '(ifc, w2) := sys_ifconf sock (ifconf_len s1) w1 in
  if (ic_ret ifc <? 0)%Z &&
     (negb (w_errno w2 =? EINVAL P)%Z || (lastlen =? ic_len ifc)%Z)
  then
    (s1, set_mem (free (ifconf_buf s1) (w_mem w2)) w2, ifc,
     LoopReturn (w_errno w2))
  else if (ic_len ifc <? ifconf_len s1)%Z then
    (s1, w2, ifc, LoopBreak)                       (* got em all *)
  else if negb (ic_len ifc =? lastlen)%Z then
    (s1, w2, ifc, LoopContinue (ic_len ifc))       (* might be more *)
  else (s1, w2, ifc, LoopBreak).

(** The [for (;;)] loop: the session and world it leaves, and either the
    status of the [return] inside it or the reply it broke out with. *)
Fixpoint ifconf_loop (fuel : nat) (sock lastlen : Z)
    (s : sigar_t) (w : world K)
  : run (sigar_t * world K * (Z + ifconf_reply)) :=
  match fuel with
  | 0 => NoFuel
  | S fuel' =>
      let '(s1, w1, ifc, e) := ifconf_iter sock lastlen s w in
      match e with
      | LoopReturn st => Done (s1, w1, inl st)
      | LoopBreak => Done (s1, w1, inr ifc)
      | LoopContinue ll => ifconf_loop fuel' sock ll s1 w1
      end
  end.

(** The number of rounds of
    [for (n = 0; n < ifc.ifc_len; n += sizeof(struct ifreq), ifr++)]. *)
Definition ifreq_count (len : Z) : nat :=
  Z.to_nat ((len + Z.pos (sizeof_ifreq P) - 1) / Z.pos (sizeof_ifreq P)).

(** [iflist->data[iflist->number++] = strdup(ifr->ifr_name);] for each
    record. *)
Fixpoint ifconf_copy_names (names : list string)
    (l : sigar_list cstr) (m : mem) : run (sigar_list cstr * mem) :=
  match names with
  | [] => Done (l, m)
  | nm :: rest =>
      let '(p, m1) := malloc m in
      if decide (number l < length (cells l)) then
        ifconf_copy_names rest
          (SigarList (S (number l)) (size l) (data l)
                     (<[number l := Some (CStr p nm)]> (cells l))) m1
      else Fault
  end.

(** [sigar_net_interface_list_get].  [iflist->size] takes [ifc.ifc_len]
    (a byte count), clamped at zero here. *)
Definition sigar_net_interface_list_get (fuel : nat)
    (s : sigar_t) (w : world K) (iflist : sigar_list cstr)
  : run (Z * sigar_list cstr * sigar_t * world K) :=
  let '(sock, w0) := sys_socket w in
  if (sock <? 0)%Z then Done (w_errno w0, iflist, s, w0)
  else
    '(s1, w1, res) ← ifconf_loop fuel sock 0 s w0;
    match res with
    | inl st => Done (st, iflist, s1, w1)
    | inr ifc =>
        let w2 := sys_close sock w1 in
        let sz := Z.to_nat (ic_len ifc) in
        let '(p, m1) := malloc (w_mem w2) in
        '(l, m2) ← ifconf_copy_names
                     (ic_req ifc <$> seq 0 (ifreq_count (ic_len ifc)))
                     (SigarList 0 sz (Some p) (replicate sz None)) m1;
        Done (SIGAR_OK P, l, s1, set_mem m2 w2)
    end.

(** Modelled from the spec: the macro [sigar_hwaddr_set_null] of
    [sigar_private.h], which is not part of the sources: the hardware
    address becomes the null address. *)
Definition sigar_hwaddr_set_null (c : sigar_net_interface_config_t)
  : sigar_net_interface_config_t :=
  IfConfig (cfg_name c) (SIGAR_NULL_HWADDR P) (cfg_address c)
           (cfg_destination c) (cfg_broadcast c) (cfg_netmask c)
           (cfg_flags c) (cfg_mtu c) (cfg_metric c).

(** [sigar_net_interface_config_get]: the status, [*ifconfig] and the
    world it leaves. *)
Definition sigar_net_interface_config_get (name : string) (w : world K)
  : Z * sigar_net_interface_config_t * world K :=
  let '(sock, w0) := sys_socket w in
  if (sock <? 0)%Z then (w_errno w0, ifconfig_zero, w0)
  else
    let cname := SIGAR_STRNCPY P name (sizeof_ifconfig_name P) in
    let nm := SIGAR_STRNCPY P name (IFNAMSIZ P) in
    let '(r_addr, w1) := sys_ifreq sock SIOCGIFADDR nm w0 in
    if negb (ir_ret r_addr =? 0)%Z then
      (* if this one failed, so will everything else *)
      let w' := sys_close sock w1 in
      (w_errno w', IfConfig cname "" 0 0 0 0 0 0 0, w')
    else
      let address := to_u64 (ir_val r_addr) in
      let '(r_mask, w2) := sys_ifreq sock SIOCGIFNETMASK nm w1 in
      let netmask :=
        if (ir_ret r_mask =? 0)%Z then to_u64 (ir_val r_mask) else 0%Z in
      let '(r_flags, w3) := sys_ifreq sock SIOCGIFFLAGS nm w2 in
      if negb (ir_ret r_flags =? 0)%Z then
        (* should always be able to get flags for existing device *)
        let w' := sys_close sock w3 in
        (w_errno w', IfConfig cname "" address 0 0 netmask 0 0 0, w')
      else
        let flags0 := to_u64 (ir_val r_flags) in
        let flags :=
          if negb (Z.land flags0 (IFF_MULTICAST P) =? 0)%Z
          then Z.lor flags0 (SIGAR_IFF_MULTICAST P)
          else Z.land flags0 (to_u64 (Z.lnot (SIGAR_IFF_MULTICAST P))) in
        let '(hwaddr, destination, broadcast, w6) :=
          if negb (Z.land flags (IFF_LOOPBACK P) =? 0)%Z then
            (SIGAR_NULL_HWADDR P, address, 0%Z, w3)
          else
            let '(r_dst, w4) := sys_ifreq sock SIOCGIFDSTADDR nm w3 in
            let destination :=
              if (ir_ret r_dst =? 0)%Z then to_u64 (ir_val r_dst)
              else 0%Z in
            let '(r_brd, w5) := sys_ifreq sock SIOCGIFBRDADDR nm w4 in
            let broadcast :=
              if (ir_ret r_brd =? 0)%Z then to_u64 (ir_val r_brd)
              else 0%Z in
            let '(r_hw, w6) := sys_ifreq sock SIOCGIFHWADDR nm w5 in
            let hwaddr :=
              if (ir_ret r_hw =? 0)%Z
              then sigar_hwaddr_format (ir_hwaddr r_hw) else ""%string in
            (hwaddr, destination, broadcast, w6) in
        let '(r_mtu, w7) := sys_ifreq sock SIOCGIFMTU nm w6 in
        let mtu :=
          if (ir_ret r_mtu =? 0)%Z then to_u64 (ir_val r_mtu) else 0%Z in
        let '(r_met, w8) := sys_ifreq sock SIOCGIFMETRIC nm w7 in
        let metric :=
          if (ir_ret r_met =? 0)%Z then
            (if negb (ir_val r_met =? 0)%Z then to_u64 (ir_val r_met)
             else 1%Z)
          else 0%Z in
        let w9 := sys_close sock w8 in
        (SIGAR_OK P,
         IfConfig cname hwaddr address destination broadcast netmask
                  flags mtu metric,
         w9).

(** The [for] loop of [fqdn_ip_get] over [iflist.data[0 .. number-1]]:
    the name buffer and the world it leaves.  A slot never written holds
    an indeterminate pointer. *)
Fixpoint fqdn_ip_scan (es : list (option cstr)) (w : world K)
    (name : string) : run (string * world K) :=
  match es with
  | [] => Done (name, w)
  | None :: _ => Fault
  | Some c :: rest =>
      let '(status, ifconfig, w') :=
        sigar_net_interface_config_get (cs_val c) w in
      if negb (status =? SIGAR_OK P)%Z ||
         negb (Z.land (cfg_flags ifconfig) (SIGAR_IFF_LOOPBACK P) =? 0)%Z
      then fqdn_ip_scan rest w' name
      else Done (sigar_inet_ntoa (cfg_address ifconfig), w')
  end.

(** [fqdn_ip_get]: the status, the name buffer, the session and the world
    it leaves. *)
Definition fqdn_ip_get (fuel : nat) (s : sigar_t) (w : world K)
    (name : string) : run (Z * string * sigar_t * world K) :=
  '(status, iflist, s1, w1) ←
    sigar_net_interface_list_get fuel s w (SigarList 0 0 None []);
  if negb (status =? SIGAR_OK P)%Z then Done (status, name, s1, w1)
  else
    if decide (number iflist <= length (cells iflist)) then
      '(name', w2) ← fqdn_ip_scan (sigar_list_read iflist) w1 name;
      let '(_, m') := sigar_net_interface_list_destroy iflist (w_mem w2) in
      Done (SIGAR_OK P, name', s1, set_mem m' w2)
    else Fault.
End Net.

(* ===================================================================== *)
(** ** FQDN resolution *)
(* ===================================================================== *)

(** [struct hostent]; [h_aliases] and [h_addr_list] are null-terminated
    arrays, or null pointers ([None]). *)
Record hostent := HostEnt {
  h_name      : string;
  h_aliases   : option (list string);
  h_addrtype  : Z;
  h_length    : Z;
  h_addr_list : option (list (list Z))
}.

(** The resolver library.  [gethostname len] gives the return value,
    [errno] after the call and the content of the buffer after the call;
    [gethostbyname] and [gethostbyaddr] give the record or a null pointer;
    [getdomainname len] gives the return value and the content of the
    buffer. *)
Record resolver := Resolver {
  gethostname   : Z -> Z * Z * string;
  gethostbyname : string -> option hostent;
  gethostbyaddr : list Z -> Z -> Z -> option hostent;
  getdomainname : Z -> Z * string
}.

(** The scan [for (i=0; aliases[i]; i++) if (H_ALIAS_MATCH(aliases[i],
    h_name)) ...]: the first alias that matches. *)
Fixpoint alias_scan (aliases : list string) (hname : string)
  : option string :=
  match aliases with
  | [] => None
  | a :: rest =>
      if H_ALIAS_MATCH a hname then Some a else alias_scan rest hname
  end.

Section Fqdn.
Context {K : Type}.
Variable P : platform.
Variable kern : kernel K.
Variable R : resolver.

(** The loop over [p->h_addr_list]: the name to set, if one is found.
    [q] and [q->h_aliases] are dereferenced without a test. *)
Fixpoint fqdn_addr_scan (addrs : list (list Z)) (p : hostent)
  : run (option string) :=
  match addrs with
  | [] => Done None
  | a :: rest =>
      match gethostbyaddr R a (h_length p) (h_addrtype p) with
      | None => Fault
      | Some q =>
          if IS_FQDN (h_name q) then Done (Some (h_name q))
          else
            match h_aliases q with
            | None => Fault
            | Some al =>
                match alias_scan al (h_name q) with
                | Some x => Done (Some x)
                | None => fqdn_addr_scan rest p
                end
            end
      end
  end.

(** The [getdomainname] stage: the name buffer it leaves. *)
Definition fqdn_domain_stage (name : string) (namelen : Z) : string :=
  let '(dret, domain) := getdomainname R (SIGAR_FQDN_LEN P) in
  let domain0 :=
    match domain with
    | EmptyString => "000"%char
    | String c _ => c
    end in
  if negb (IS_FQDN name) && (dret =? 0)%Z &&
     negb (Ascii.eqb domain0 "000"%char) && negb (Ascii.eqb domain0 "(")
  then
    let len := Z.of_nat (strlen name) in
    (name +:+ "." +:+ SIGAR_STRNCPY P domain (namelen - (len + 1)))%string
  else name.

(** [sigar_fqdn_get]: the status, the caller's buffer, the session and
    the world it leaves. *)
Definition sigar_fqdn_get (fuel : nat) (s : sigar_t) (w : world K)
    (namelen : Z) : run (Z * string * sigar_t * world K) :=
  let FQDN_SET fqdn := SIGAR_STRNCPY P fqdn namelen in
  let '(ret, e, name) := gethostname R (namelen - 1) in
  if negb (ret =? 0)%Z then Done (e, name, s, w)
  else
    match gethostbyname R name with
    | None =>
        if negb (IS_FQDN name) then
          '(_, name', s', w') ← fqdn_ip_get P kern fuel s w name;
          Done (SIGAR_OK P, name', s', w')
        else Done (SIGAR_OK P, name, s, w)
    | Some p =>
        if IS_FQDN (h_name p) then
          Done (SIGAR_OK P, FQDN_SET (h_name p), s, w)
        else
          match
            match h_aliases p with
            | Some al => alias_scan al (h_name p)
            | None => None
            end
          with
          | Some a => Done (SIGAR_OK P, FQDN_SET a, s, w)
          | None =>
              found ← match h_addr_list p with
                       | Some addrs => fqdn_addr_scan addrs p
                       | None => Done None
                       end;
              match found with
              | Some x => Done (SIGAR_OK P, FQDN_SET x, s, w)
              | None =>
                  let name1 := fqdn_domain_stage name namelen in
                  if negb (IS_FQDN name1) then
                    '(_, name', s', w') ← fqdn_ip_get P kern fuel s w name1;
                    Done (SIGAR_OK P, name', s', w')
                  else Done (SIGAR_OK P, name1, s, w)
              end
          end
    end.
End Fqdn.


(* ===================================================================== *)
(** ** Runs of the enumeration loop, and what is assumed of a kernel *)
(* ===================================================================== *)

(** One round of the retry loop as an observer sees it: [lastlen] on entry,
    the buffer length offered to the kernel, the reply and how the round
    ended. *)
Record ifconf_round := IfconfRound {
  rd_lastlen : Z;
  rd_buflen  : Z;
  rd_reply   : ifconf_reply;
  rd_exit    : ifconf_exit
}.

Section NetRuns.
Context {K : Type}.
Variable P : platform.
Variable kern : kernel K.

(** The rounds [ifconf_loop] goes through, in order (at most [fuel]). *)
Fixpoint ifconf_rounds (fuel : nat) (sock lastlen : Z)
    (s : sigar_t) (w : world K) : list ifconf_round :=
  match fuel with
  | 0 => []
  | S fuel' =>
      let '(s1, w1, ifc, e) := ifconf_iter P kern sock lastlen s w in
      IfconfRound lastlen (ifconf_len s1) ifc e ::
      match e with
      | LoopContinue ll => ifconf_rounds fuel' sock ll s1 w1
      | _ => []
      end
  end.

(** The session buffer is either absent or has a positive length. *)
Definition session_ok (s : sigar_t) : Prop :=
  (0 <= ifconf_len s)%Z /\ (is_Some (ifconf_buf s) -> (0 < ifconf_len s)%Z).

(** Whether a round that starts with [lastlen] grows the buffer first:
    [!sigar->ifconf_buf || lastlen]. *)
Definition round_grows (lastlen : Z) (s : sigar_t) : bool :=
  negb (bool_decide (is_Some (ifconf_buf s))) || negb (lastlen =? 0)%Z.

(** The length of the buffer such a round offers, short of [int]
    overflow. *)
Definition round_buflen (lastlen : Z) (s : sigar_t) : Z :=
  if round_grows lastlen s
  then (ifconf_len s + ifconf_increment P)%Z else ifconf_len s.

(** The length of the buffer offered on the first round. *)
Definition first_buflen (s : sigar_t) : Z := round_buflen 0 s.

(** How a round ends, given the buffer length offered and the reply. *)
Definition round_exit (lastlen B : Z) (r : ifconf_reply) : ifconf_exit :=
  if (ic_ret r <? 0)%Z &&
     (negb (ic_errno r =? EINVAL P)%Z || (lastlen =? ic_len r)%Z)
  then LoopReturn (ic_errno r)
  else if (ic_len r <? B)%Z then LoopBreak
  else if negb (ic_len r =? lastlen)%Z then LoopContinue (ic_len r)
  else LoopBreak.

(** The kernel never reports more bytes than the buffer it was offered. *)
Definition ifconf_within_buffer : Prop :=
  forall k fd len, (ic_len (k_ifconf kern k fd len).1 <= len)%Z.

(** A failing call leaves [errno] different from [SIGAR_OK]. *)
Definition failure_sets_errno : Prop :=
  (forall k, ((k_socket kern k).1.1 < 0)%Z ->
             (k_socket kern k).1.2 <> SIGAR_OK P) /\
  (forall k fd len, (ic_ret (k_ifconf kern k fd len).1 < 0)%Z ->
                    ic_errno (k_ifconf kern k fd len).1 <> SIGAR_OK P).

(** The kernel requires [R] bytes whatever the attempt: offered more, it
    succeeds and reports [R]. *)
Definition fixed_requirement (R : Z) : Prop :=
  (0 <= R)%Z /\
  forall k fd len, (R < len)%Z ->
    (0 <= ic_ret (k_ifconf kern k fd len).1)%Z /\
    ic_len (k_ifconf kern k fd len).1 = R.

(** No interface of the list yields both a successful configuration lookup
    and a non-loopback flag, the lookups being made in list order. *)
Fixpoint no_usable_interface (es : list (option cstr)) (w : world K) : Prop :=
  match es with
  | [] => True
  | None :: _ => False
  | Some c :: rest =>
      let r := sigar_net_interface_config_get P kern (cs_val c) w in
      (r.1.1 <> SIGAR_OK P \/
       Z.land (cfg_flags r.1.2) (SIGAR_IFF_LOOPBACK P) <> 0%Z) /\
      no_usable_interface rest r.2
  end.
End NetRuns.

(* ===================================================================== *)
(** ** A concrete platform and scripted kernels *)
(* ===================================================================== *)

(** [strncpy(dest, src, len); dest[len-1] = 0]: at most [len - 1]
    characters of [src]. *)
Definition bounded_copy (src : string) (len : Z) : string :=
  substring 0 (Z.to_nat (len - 1)) src.

(** Linux on x86-64: [sizeof(struct ifreq)] is 40, [EINVAL] is 22. *)
Definition linux : platform :=
  Platform 0 22 40 20 16 16 8 4096 8 2048 512 "00:00:00:00:00:00"
           bounded_copy.

(** The state [sigar_open] leaves: no enumeration buffer yet. *)
Definition sigar0 : sigar_t := Sigar None 0.

Definition world0 {K} (k : K) : world K := World k 0 [] [] (Mem 0 []).

Definition ifconf_ok (len : Z) (names : nat -> string) : ifconf_reply :=
  IfconfReply 0 0 len names.

Definition ifconf_fail (errno len : Z) : ifconf_reply :=
  IfconfReply (-1) errno len (fun _ => EmptyString).

(** A kernel that plays a script: [socket] always answers [sock], the
    [n]-th [SIOCGIFCONF] gets the [n]-th reply of [ifconfs] (an empty
    success once the script is over), the per-interface requests are
    answered by [ifreqs]. *)
Definition script_kernel (sock : Z * Z) (ifconfs : list ifconf_reply)
    (ifreqs : ioctl_req -> string -> ifreq_reply) : kernel nat :=
  Kernel (fun n => (sock, n))
         (fun n _ _ => (nth n ifconfs (ifconf_ok 0 (fun _ => EmptyString)), S n))
         (fun n _ req nm => (ifreqs req nm, n)).

(** A kernel that requires [R] bytes: [EINVAL] while the buffer is smaller,
    [R] bytes of records otherwise. *)
Definition need_kernel (R : Z) : kernel unit :=
  Kernel (fun u => (3%Z, 0%Z, u))
         (fun u _ len =>
            (if (len <? R)%Z then ifconf_fail 22 len
             else ifconf_ok R (fun _ => "eth0"%string), u))
         (fun u _ _ _ => (IfreqReply (-1) 19 0 [], u)).

(** A kernel that signals a buffer too small with [EINVAL] while reporting
    the 1600 bytes it needs, and then fills a buffer of 1600 bytes
    exactly. *)
Definition reporting_kernel : kernel nat :=
  script_kernel (3%Z, 0%Z)
    [ifconf_fail 22 1600; ifconf_ok 1600 (fun _ => "eth0"%string)]
    (fun _ _ => IfreqReply (-1) 19 0 []).

(** A kernel whose [SIOCGIFCONF] fails with [ENOMEM] (12). *)
Definition failing_kernel : kernel nat :=
  script_kernel (3%Z, 0%Z) [ifconf_fail 12 0]
    (fun _ _ => IfreqReply (-1) 19 0 []).

(** A kernel with one interface, [lo]: address 127.0.0.1, flags
    [IFF_UP | IFF_LOOPBACK | IFF_RUNNING] (0x49); every other request is
    answered too, the hardware address with zeroes. *)
Definition loopback_kernel : kernel nat :=
  script_kernel (3%Z, 0%Z) [ifconf_ok 40 (fun _ => "lo"%string)]
    (fun req _ =>
       match req with
       | SIOCGIFADDR => IfreqReply 0 0 16777343 []
       | SIOCGIFNETMASK => IfreqReply 0 0 255 []
       | SIOCGIFFLAGS => IfreqReply 0 0 73 []
       | SIOCGIFMTU => IfreqReply 0 0 65536 []
       | SIOCGIFHWADDR => IfreqReply 0 0 0 [0; 0; 0; 0; 0; 0]%Z
       | _ => IfreqReply 0 0 0 []
       end).

(** The configuration lookup of [lo] against [loopback_kernel]. *)
Definition lo_config : Z * sigar_net_interface_config_t * world nat :=
  sigar_net_interface_config_get linux loopback_kernel "lo" (world0 0).

(** The record of the hosts file line
    [127.0.0.1 localhost host host.internal.example.com]. *)
Definition localhost_entry : hostent :=
  HostEnt "localhost" (Some ["host"; "host.internal.example.com"]%string)
          2 4 (Some [[127; 0; 0; 1]%Z]).

(** A resolver for a machine named [host] that has this line in its hosts
    file, for forward and reverse lookups alike, and whose domain name is
    [example.org]. *)
Definition hosts_resolver : resolver :=
  Resolver
    (fun _ => (0%Z, 0%Z, "host"%string))
    (fun _ => Some localhost_entry)
    (fun _ _ _ => Some localhost_entry)
    (fun _ => (0%Z, "example.org"%string)).

(** A resolver that knows [host] under two aliases. *)
Definition alias_resolver : resolver :=
  Resolver
    (fun _ => (0%Z, 0%Z, "host"%string))
    (fun _ => Some (HostEnt "host"
                      (Some ["otherhost.example.com";
                             "host.internal.example.com"]%string)
                      2 4 (Some [])))
    (fun _ _ _ => None)
    (fun _ => ((-1)%Z, EmptyString)).

(** A resolver that resolves [host] to 10.0.0.5 and has no reverse record
    for that address. *)
Definition unreversed_resolver : resolver :=
  Resolver
    (fun _ => (0%Z, 0%Z, "host"%string))
    (fun _ => Some (HostEnt "host" (Some []) 2 4 (Some [[10; 0; 0; 5]%Z])))
    (fun _ _ _ => None)
    (fun _ => ((-1)%Z, EmptyString)).

(** A resolver that cannot resolve the local name [host]. *)
Definition lonely_resolver : resolver :=
  Resolver
    (fun _ => (0%Z, 0%Z, "host"%string))
    (fun _ => None)
    (fun _ _ _ => None)
    (fun _ => ((-1)%Z, EmptyString)).

(** A kernel with one interface, [eth0]: address 10.0.0.5, flags
    [IFF_UP | IFF_BROADCAST | IFF_RUNNING | IFF_MULTICAST] (0x1043). *)
Definition eth_kernel : kernel nat :=
  script_kernel (3%Z, 0%Z) [ifconf_ok 40 (fun _ => "eth0"%string)]
    (fun req _ =>
       match req with
       | SIOCGIFADDR => IfreqReply 0 0 83886090 []
       | SIOCGIFNETMASK => IfreqReply 0 0 16777215 []
       | SIOCGIFFLAGS => IfreqReply 0 0 4163 []
       | SIOCGIFBRDADDR => IfreqReply 0 0 4278190090 []
       | SIOCGIFMTU => IfreqReply 0 0 1500 []
       | SIOCGIFHWADDR => IfreqReply 0 0 0 [0; 22; 62; 1; 171; 255]%Z
       | _ => IfreqReply 0 0 0 []
       end).

(** What [N] disciplined insertions keep true of a collection with chunk
    [K]: the count, the block, the elements written so far, and the number
    [q] of chunks the capacity is made of. *)
Definition list_wf {T} (K : nat) (l : sigar_list T) (xs : list T) : Prop :=
  number l = length xs /\
  length (cells l) = size l /\
  sigar_list_read l = Some <$> xs /\
  exists q, 1 <= q /\ size l = K * q /\ length xs <= K * q /\
            (length xs = 0 /\ q = 1 \/ K * (q - 1) < length xs).

(** The storage a destroyed collection no longer owns: nothing is left to
    release. *)
Definition list_released {T} (l : sigar_list T) : Prop :=
  number l = 0 /\ size l = 0.

(* ===================================================================== *)
(** ** Formatting of sizes *)
(* ===================================================================== *)

(** The decimal digits of [n >= 0], most significant first, in front of
    [acc]; [fuel] bounds the number of digits. *)
Fixpoint dec_digits (fuel : nat) (n : Z) (acc : string) : string :=
  match fuel with
  | 0 => acc
  | S fuel' =>
      let acc' := String (dec_digit (n mod 10)) acc in
      if (n <? 10)%Z then acc' else dec_digits fuel' (n / 10) acc'
  end.

(** ["%d"] of an integer of at most 64 bits. *)
Definition fmt_d (n : Z) : string :=
  if (n <? 0)%Z then String "-" (dec_digits 20 (- n) EmptyString)
  else dec_digits 20 n EmptyString.

Fixpoint spaces (n : nat) : string :=
  match n with
  | 0 => EmptyString
  | S n' => String " " (spaces n')
  end.

(** ["%3d"]: right-justified in a field of 3. *)
Definition fmt_3d (n : Z) : string :=
  (spaces (3 - String.length (fmt_d n)) +:+ fmt_d n)%string.

(** [const char ord[] = "KMGTPE"], with its terminator. *)
Definition size_ord : list ascii :=
  ["K"; "M"; "G"; "T"; "P"; "E"; "000"]%char.

(** The [do ... while (1)] of [sigar_format_size], [o] pointing at the head
    of [ord]: the string written to [buf].  Reading past the array is
    undefined behaviour: [None]. *)
Fixpoint format_size_loop (ord : list ascii) (size : Z) : option string :=
  match ord with
  | [] => None
  | o :: ord' =>
      let remain := Z.land size 1023 in
      let size := Z.shiftr size 10 in
      if (973 <=? size)%Z then format_size_loop ord' size
      else if (size <? 9)%Z || ((size =? 9)%Z && (remain <? 973)%Z) then
        let remain := ((remain * 5 + 256) / 512)%Z in
        if (10 <=? remain)%Z then
          Some (fmt_d (size + 1) +:+ "." +:+ fmt_d 0
                +:+ String o EmptyString)%string
        else
          Some (fmt_d size +:+ "." +:+ fmt_d remain
                +:+ String o EmptyString)%string
      else
        let size := if (512 <=? remain)%Z then (size + 1)%Z else size in
        Some (fmt_3d size +:+ String o EmptyString)%string
  end.

Section FormatSize.
(** [SIGAR_FIELD_NOTIMPL] converted to [sigar_uint64_t] ([sigar.h], not
    part of the sources). *)
Variable SIGAR_FIELD_NOTIMPL : Z.

(** [sigar_format_size]: the string written to [buf], for a [size] of type
    [sigar_uint64_t]. *)
Definition sigar_format_size (size : Z) : option string :=
  if (size =? SIGAR_FIELD_NOTIMPL)%Z then Some "-"%string
  else if (size <? 973)%Z then Some (fmt_3d size +:+ " ")%string
  else format_size_loop size_ord size.
End FormatSize.

(** The value of a string of decimal digits, and of a string of hexadecimal
    digits (upper case). *)
Definition dec_value (s : string) : Z :=
  fold_left (fun acc c => (acc * 10 + (Z.of_nat (nat_of_ascii c) - 48))%Z)
            (list_ascii_of_string s) 0%Z.

Definition hex_digit_value (c : ascii) : Z :=
  let n := Z.of_nat (nat_of_ascii c) in
  if (n <? 58)%Z then (n - 48)%Z else (n - 55)%Z.

Definition hex_value (s : string) : Z :=
  fold_left (fun acc c => (acc * 16 + hex_digit_value c)%Z)
            (list_ascii_of_string s) 0%Z.

(* ===================================================================== *)
(** ** Session life cycle, allocator invariants *)
(* ===================================================================== *)

Section OpenClose.
Variable P : platform.
(** The OS layer ([sigar_os_open], [sigar_os_close], not part of the
    sources): the status of [sigar_os_open] with the structure it
    allocated, and the status of [sigar_os_close]. *)
Variable sigar_os_open : Z * sigar_t.
Variable sigar_os_close : sigar_t -> Z.

(** [sigar_open]: the status and [**sigar]. *)
Definition sigar_open : Z * sigar_t :=
  let '(status, s) := sigar_os_open in
  if (status =? SIGAR_OK P)%Z then (status, Sigar None 0) else (status, s).

(** [sigar_close]: the status and the allocator it leaves. *)
Definition sigar_close (s : sigar_t) (m : mem) : Z * mem :=
  (sigar_os_close s,
   match ifconf_buf s with
   | Some p => free (Some p) m
   | None => m
   end).
End OpenClose.

(** Every block [free] was called on had been handed out. *)
Definition mem_ok (m : mem) : Prop :=
  forall p, In (Some p) (m_freed m) -> p < m_next m.

(** The session buffer, if any, is a block handed out and not freed. *)
Definition buf_live (s : sigar_t) (m : mem) : Prop :=
  forall p, ifconf_buf s = Some p ->
            p < m_next m /\ ~ In (Some p) (m_freed m).

Section ScanWorld.
Context {K : Type}.
Variable P : platform.
Variable kern : kernel K.

(** The world after the configuration lookups of the interfaces [es], in
    order. *)
Fixpoint config_all (es : list (option cstr)) (w : world K) : world K :=
  match es with
  | Some c :: rest =>
      config_all rest (sigar_net_interface_config_get P kern (cs_val c) w).2
  | _ => w
  end.
End ScanWorld.

(* ===================================================================== *)
(** ** Logged-in users *)
(* ===================================================================== *)

(** The fields of [struct utmp] the code reads; a character array is
    modelled by the string it holds. *)
Record utmp := Utmp {
  ut_type : Z;
  ut_user : string;
  ut_line : string;
  ut_host : string;
  ut_time : Z
}.

Record sigar_who_t := Who {
  who_user   : string;
  who_device : string;
  who_host   : string;
  who_time   : Z
}.

Section Who.
Variable P : platform.
(** [SIGAR_WHO_LIST_MAX] ([sigar_private.h]), [USER_PROCESS] ([utmp.h]),
    the sizes of the three character arrays of [sigar_who_t] ([sigar.h])
    and the macro [SIGAR_SSTRCPY] ([sigar_private.h]): the string it leaves
    in a destination of the given size. *)
Variable SIGAR_WHO_LIST_MAX : nat.
Variable USER_PROCESS : Z.
Variable sizeof_who_user : Z.
Variable sizeof_who_device : Z.
Variable sizeof_who_host : Z.
Variable SIGAR_SSTRCPY : Z -> string -> string.

(** [WHOCPY(dest, src)]: [SIGAR_SSTRCPY(dest, src)], then a terminator at
    [sizeof(src)], which the string read from [src] already stops at. *)
Definition WHOCPY (sizeof_dest : Z) (src : string) : string :=
  SIGAR_SSTRCPY sizeof_dest src.

(** The stores into [*who]. *)
Definition who_of_utmp (ut : utmp) : sigar_who_t :=
  Who (WHOCPY sizeof_who_user (ut_user ut))
      (WHOCPY sizeof_who_device (ut_line ut))
      (WHOCPY sizeof_who_host (ut_host ut))
      (ut_time ut).

(** The two [continue] tests of the read loop, negated. *)
Definition who_keeps (ut : utmp) : bool :=
  negb (String.eqb (ut_user ut) EmptyString) &&
  (ut_type ut =? USER_PROCESS)%Z.

(** The [while (fread(&ut, sizeof(ut), 1, fp) == 1)] loop over the complete
    records of the file. *)
Fixpoint who_read_loop (recs : list utmp) (l : sigar_list sigar_who_t)
    (m : mem) : option (sigar_list sigar_who_t * mem) :=
  match recs with
  | [] => Some (l, m)
  | ut :: rest =>
      if String.eqb (ut_user ut) EmptyString then who_read_loop rest l m
      else if negb (ut_type ut =? USER_PROCESS)%Z
      then who_read_loop rest l m
      else
        match sigar_list_insert SIGAR_WHO_LIST_MAX (who_of_utmp ut) l m with
        | Some (l', m') => who_read_loop rest l' m'
        | None => None
        end
  end.

(** [sigar_who_list_get].  [file] is what [fopen(SIGAR_UTMP_FILE, "r")]
    gives: [errno] when it fails, the records of the file otherwise. *)
Definition sigar_who_list_get (file : Z + list utmp)
    (wholist : sigar_list sigar_who_t) (m : mem)
  : option (Z * sigar_list sigar_who_t * mem) :=
  match file with
  | inl errno => Some (errno, wholist, m)
  | inr recs =>
      let '(l0, m0) := sigar_list_create SIGAR_WHO_LIST_MAX wholist m in
      match who_read_loop recs l0 m0 with
      | Some (l, m') => Some (SIGAR_OK P, l, m')
      | None => None
      end
  end.
End Who.

(* ===================================================================== *)
(** ** User and group names *)
(* ===================================================================== *)

(** [strncpy(buf, src, buflen); buf[buflen-1] = 0;]: the string left in
    [buf].  With [buflen <= 0] the stores fall outside the buffer:
    [None]. *)
Definition strncpy_terminated (src : string) (buflen : Z) : option string :=
  if (buflen <=? 0)%Z then None
  else Some (substring 0 (Z.to_nat (buflen - 1)) src).

(** [sprintf(buf, "%d", gid); buf[buflen-1] = 0;]: [sprintf] writes the
    digits and a terminator, inside the buffer or not. *)
Definition sprintf_d_terminated (n : Z) (buflen : Z) : option string :=
  if (buflen <? Z.of_nat (String.length (fmt_d n)) + 1)%Z then None
  else Some (fmt_d n).

Section UserGroup.
Variable P : platform.
(** [getpwuid_r] and [getgrgid_r] (the build with [HAVE_GETPWUID_R] and
    [HAVE_GETGRGID_R]): the return value, [errno] after the call and the
    record [*result] points to -- [None] for a null pointer; for a group,
    its [gr_name], which may itself be null. *)
Variable getpwuid_r : Z -> Z * Z * option string.
Variable getgrgid_r : Z -> Z * Z * option (option string).

(** [sigar_user_name_get]: the status and [buf] ([buf0] before the
    call). *)
Definition sigar_user_name_get (uid : Z) (buf0 : string) (buflen : Z)
  : run (Z * string) :=
  let '(ret, e, pw) := getpwuid_r uid in
  if negb (ret =? 0)%Z then Done (e, buf0)
  else
    match pw with
    | None => Fault
    | Some pw_name =>
        match strncpy_terminated pw_name buflen with
        | Some b => Done (SIGAR_OK P, b)
        | None => Fault
        end
    end.

(** [sigar_group_name_get] *)
Definition sigar_group_name_get (gid : Z) (buf0 : string) (buflen : Z)
  : run (Z * string) :=
  let '(ret, e, gr) := getgrgid_r gid in
  if negb (ret =? 0)%Z then Done (e, buf0)
  else
    match
      match gr with
      | Some (Some gr_name) => strncpy_terminated gr_name buflen
      | _ => sprintf_d_terminated gid buflen
      end
    with
    | Some b => Done (SIGAR_OK P, b)
    | None => Fault
    end.
End UserGroup.

(** A kernel with two interfaces, [lo] and then [eth0], answered as by
    [loopback_kernel] and [eth_kernel]. *)
Definition dual_kernel : kernel nat :=
  script_kernel (3%Z, 0%Z)
    [ifconf_ok 80 (fun n => match n with 0 => "lo" | _ => "eth0" end)%string]
    (fun req nm =>
       (if String.eqb nm "lo"
        then k_ifreq loopback_kernel 0 3%Z req nm
        else k_ifreq eth_kernel 0 3%Z req nm).1).

(** A [utmp] file of five records: a boot record, two sessions, a slot
    whose user name is empty and a third session; [USER_PROCESS] is 7. *)
Definition utmp_sample : list utmp :=
  [Utmp 2 "reboot" "~" "5.15.0" 1700000000;
   Utmp 7 "alice" "tty1" "" 1700000100;
   Utmp 7 "bob" "pts/0" "10.0.0.9" 1700000200;
   Utmp 7 "" "pts/1" "" 1700000300;
   Utmp 7 "carol" "pts/2" "gateway.example.org" 1700000400]%string.

(** A password file with [root] and [alice], and a group file with
    [wheel]; an id that is not listed gives a successful call and a null
    record. *)
Definition passwd_sample (uid : Z) : Z * Z * option string :=
  if (uid =? 0)%Z then (0%Z, 0%Z, Some "root"%string)
  else if (uid =? 1000)%Z then (0%Z, 0%Z, Some "alice"%string)
  else (0%Z, 0%Z, None).

Definition group_sample (gid : Z) : Z * Z * option (option string) :=
  if (gid =? 10)%Z then (0%Z, 0%Z, Some (Some "wheel"%string))
  else (0%Z, 0%Z, None).

(** An address whose reverse record is there, with a name without a dot
    and aliases none of which matches: the loop over [h_addr_list] goes on
    to the next. *)
Definition passes_over (R : resolver) (p : hostent) (a : list Z) : Prop :=
  exists q al,
    gethostbyaddr R a (h_length p) (h_addrtype p) = Some q /\
    IS_FQDN (h_name q) = false /\
    h_aliases q = Some al /\
    alias_scan al (h_name q) = None.

(* ===================================================================== *)
(** * Properties *)
(* ===================================================================== *)

(** ** Growable collections *)

Lemma ceil_div_unique (K n q : nat) :
  0 < K -> 1 <= q -> K * (q - 1) < n -> n <= K * q -> ceil_div n K = q.
Proof.
  intros HK Hq Hlo Hhi. unfold ceil_div. symmetry.
  assert (Hm : K * (q - 1) + K = K * q) by (destruct q; [lia | simpl; nia]).
  apply Nat.div_unique with (r := n + K - 1 - K * q); lia.
Qed.

Lemma ceil_div_0 (K : nat) : 0 < K -> ceil_div 0 K = 0.
Proof.
  intros HK. unfold ceil_div. apply Nat.div_small. lia.
Qed.

Section GrowableCollectionFacts.
Context {T : Type}.
Variable K : nat.
Hypothesis K_pos : 0 < K.

Lemma list_wf_create (l0 : sigar_list T) (m0 : mem) :
  list_wf K (sigar_list_create K l0 m0).1 [].
Proof.
  unfold sigar_list_create, list_wf, sigar_list_read. simpl.
  repeat split.
  - apply length_replicate.
  - exists 1. lia.
Qed.

Lemma list_wf_insert (x : T) (l : sigar_list T) (xs : list T) (m : mem) :
  list_wf K l xs ->
  exists l' m', sigar_list_insert K x l m = Some (l', m') /\
                list_wf K l' (xs ++ [x]).
Proof.
  intros (Hn & Hlen & Hrd & q & Hq & Hsz & Hle & Hlo).
  unfold sigar_list_insert, SIGAR_LIST_GROW, sigar_list_grow, realloc.
  unfold sigar_list_read in Hrd.
  destruct (number l =? size l) eqn:E.
  - (* full: one more chunk, then the store *)
    apply Nat.eqb_eq in E. simpl.
    destruct (decide (number l < length (cells l ++ replicate K None)))
      as [Hin | Hout].
    2:{ rewrite length_app, length_replicate in Hout. lia. }
    eexists _, _. split; [reflexivity |].
    unfold list_wf, sigar_list_read. simpl.
    split; [rewrite length_app; simpl; lia |].
    split; [rewrite length_insert, length_app, length_replicate; lia |].
    split.
    + rewrite (take_S_r _ _ (Some x)).
      * rewrite take_insert_ge by lia.
        rewrite take_app_le by lia.
        rewrite Hrd, fmap_app. reflexivity.
      * apply list_lookup_insert_eq. exact Hin.
    + exists (S q). rewrite length_app. simpl.
      replace (q - 0) with q by lia.
      split; [lia |]. split; [nia |]. split; [nia |]. right. nia.
  - (* room left: the store alone *)
    apply Nat.eqb_neq in E.
    destruct (decide (number l < length (cells l))) as [Hin | Hout].
    2:{ lia. }
    eexists _, _. split; [reflexivity |].
    unfold list_wf, sigar_list_read. simpl.
    split; [rewrite length_app; simpl; lia |].
    split; [rewrite length_insert; lia |].
    split.
    + rewrite (take_S_r _ _ (Some x)).
      * rewrite take_insert_ge by lia.
        rewrite Hrd, fmap_app. reflexivity.
      * apply list_lookup_insert_eq. exact Hin.
    + exists q. rewrite length_app. simpl.
      split; [lia |]. split; [lia |]. split; [lia |].
      right. destruct Hlo as [[H0 H1] | Hlo]; [subst q; simpl; lia | lia].
Qed.

Lemma list_wf_insert_all (ys xs : list T) (l : sigar_list T) (m : mem) :
  list_wf K l xs ->
  exists l' m', sigar_list_insert_all K ys l m = Some (l', m') /\
                list_wf K l' (xs ++ ys).
Proof.
  revert xs l m. induction ys as [| y ys IH]; intros xs l m Hwf.
  - exists l, m. rewrite app_nil_r. split; [reflexivity | exact Hwf].
  - destruct (list_wf_insert y l xs m Hwf) as (l1 & m1 & E1 & Hwf1).
    destruct (IH (xs ++ [y]) l1 m1 Hwf1) as (l2 & m2 & E2 & Hwf2).
    exists l2, m2. simpl. rewrite E1. split; [exact E2 |].
    rewrite <- app_assoc in Hwf2. exact Hwf2.
Qed.

Lemma list_wf_capacity (l : sigar_list T) (xs : list T) :
  list_wf K l xs -> size l = K * Nat.max 1 (ceil_div (length xs) K).
Proof.
  intros (_ & _ & _ & q & Hq & Hsz & Hle & [[H0 H1] | Hlo]).
  - rewrite H0, ceil_div_0 by exact K_pos. subst q. simpl. lia.
  - rewrite (ceil_div_unique K (length xs) q) by assumption.
    rewrite Nat.max_r by lia. exact Hsz.
Qed.
End GrowableCollectionFacts.

(** C3 (as amended).  For every chunk constant [K > 0] and every sequence
    of [N] insertions made under the grow-before-write discipline into a
    freshly created collection, every insertion succeeds, the count is [N],
    the capacity is [K * max 1 (ceil (N/K))] -- that is [K * ceil (N/K)] as
    soon as [N >= 1], and [K] for [N = 0], the chunk [create] allocates --
    and reading the elements back in index order yields the inserted
    elements in insertion order. *)
Theorem sigar_list_insert_all_capacity {T : Type} (K : nat) (xs : list T)
    (l0 : sigar_list T) (m0 : mem) :
  0 < K ->
  exists l m,
    sigar_list_insert_all K xs (sigar_list_create K l0 m0).1
                               (sigar_list_create K l0 m0).2 = Some (l, m) /\
    number l = length xs /\
    size l = K * Nat.max 1 (ceil_div (length xs) K) /\
    (1 <= length xs -> size l = K * ceil_div (length xs) K) /\
    sigar_list_read l = Some <$> xs.
Proof.
  intros HK.
  destruct (list_wf_insert_all K HK xs [] _ (sigar_list_create K l0 m0).2
              (list_wf_create K HK l0 m0)) as (l & m & E & Hwf).
  simpl in Hwf. exists l, m.
  pose proof (list_wf_capacity K HK l xs Hwf) as Hcap.
  destruct Hwf as (Hn & _ & Hrd & _).
  split; [exact E |]. split; [exact Hn |]. split; [exact Hcap |].
  split; [| exact Hrd].
  intros HN. rewrite Hcap. f_equal. apply Nat.max_r.
  unfold ceil_div. apply Nat.div_le_lower_bound; lia.
Qed.

(** Three insertions with chunk 2: the hypothesis of
    [sigar_list_insert_all_capacity] holds and the capacity is 4. *)
Lemma sigar_list_insert_all_capacity_three :
  exists l m,
    sigar_list_insert_all 2 [10; 20; 30]
      (sigar_list_create 2 (@SigarList nat 0 0 None []) (Mem 0 [])).1
      (sigar_list_create 2 (@SigarList nat 0 0 None []) (Mem 0 [])).2
    = Some (l, m) /\
    number l = 3 /\
    size l = 2 * Nat.max 1 (ceil_div 3 2) /\
    (1 <= 3 -> size l = 2 * ceil_div 3 2) /\
    sigar_list_read l = Some <$> [10; 20; 30].
Proof.
  apply (sigar_list_insert_all_capacity 2 [10; 20; 30]). lia.
Defined.

(** C3 as stated fails for [N = 0]: a collection created with chunk 4 and
    left empty has capacity 4, not [4 * ceil (0/4) = 0]. *)
Lemma sigar_list_capacity_when_empty :
  exists l m,
    sigar_list_insert_all 4 (@nil nat)
      (sigar_list_create 4 (@SigarList nat 0 0 None []) (Mem 0 [])).1
      (sigar_list_create 4 (@SigarList nat 0 0 None []) (Mem 0 [])).2
    = Some (l, m) /\
    number l = 0 /\ size l = 4 /\ 4 * ceil_div 0 4 = 0 /\
    size l <> 4 * ceil_div 0 4.
Proof.
  eexists _, _. split; [reflexivity |].
  simpl. repeat split; try reflexivity. discriminate.
Qed.

Lemma sigar_list_destroy_again {T : Type} (l : sigar_list T) (m : mem) :
  number l <= size l ->
  sigar_list_destroy (sigar_list_destroy l m).1 (sigar_list_destroy l m).2
    = sigar_list_destroy l m /\
  list_released (sigar_list_destroy l m).1.
Proof.
  intros Hinv. unfold sigar_list_destroy, list_released.
  destruct (size l =? 0) eqn:E; simpl.
  - rewrite E. apply Nat.eqb_eq in E. split; [reflexivity | lia].
  - split; [reflexivity | lia].
Qed.

Lemma sigar_net_interface_list_destroy_again (l : sigar_list cstr) (m : mem) :
  number l <= size l ->
  sigar_net_interface_list_destroy
    (sigar_net_interface_list_destroy l m).1
    (sigar_net_interface_list_destroy l m).2
    = sigar_net_interface_list_destroy l m /\
  list_released (sigar_net_interface_list_destroy l m).1.
Proof.
  intros Hinv. unfold sigar_net_interface_list_destroy, list_released.
  destruct (size l =? 0) eqn:E; simpl.
  - rewrite E. apply Nat.eqb_eq in E. split; [reflexivity | lia].
  - split; [reflexivity | lia].
Qed.

(** C8.  For a collection of plain values [l] and a collection of owned
    names [il] (count within capacity): a second destroy after a destroy
    changes nothing -- neither the fields nor the log of [free] calls --
    and count and capacity are 0; a freshly created collection that is
    destroyed, once or twice, has its storage released by at most one
    [free], no block twice, and count and capacity 0. *)
Theorem sigar_list_destroy_idempotent {T : Type} (K : nat)
    (l : sigar_list T) (il : sigar_list cstr) (m : mem) :
  number l <= size l -> number il <= size il ->
  (sigar_list_destroy (sigar_list_destroy l m).1 (sigar_list_destroy l m).2
     = sigar_list_destroy l m /\
   list_released (sigar_list_destroy l m).1) /\
  (sigar_net_interface_list_destroy
     (sigar_net_interface_list_destroy il m).1
     (sigar_net_interface_list_destroy il m).2
     = sigar_net_interface_list_destroy il m /\
   list_released (sigar_net_interface_list_destroy il m).1) /\
  (forall c d dd,
     c = sigar_list_create K l m ->
     d = sigar_list_destroy c.1 c.2 ->
     dd = sigar_list_destroy d.1 d.2 ->
     list_released d.1 /\ dd = d /\
     exists fs, m_freed dd.2 = m_freed m ++ fs /\ NoDup fs /\
                length fs <= 1) /\
  (forall c d dd,
     c = sigar_list_create K il m ->
     d = sigar_net_interface_list_destroy c.1 c.2 ->
     dd = sigar_net_interface_list_destroy d.1 d.2 ->
     list_released d.1 /\ dd = d /\
     exists fs, m_freed dd.2 = m_freed m ++ fs /\ NoDup fs /\
                length fs <= 1).
Proof.
  intros Hl Hil.
  split; [apply sigar_list_destroy_again; exact Hl |].
  split; [apply sigar_net_interface_list_destroy_again; exact Hil |].
  split.
  - intros c d dd -> -> ->.
    unfold sigar_list_create, malloc, sigar_list_destroy, list_released.
    simpl. destruct K as [| k]; simpl.
    + repeat split. exists []. rewrite app_nil_r.
      split; [reflexivity |]. split; [constructor | simpl; lia].
    + repeat split. exists [Some (m_next m)].
      split; [reflexivity |]. split; [| simpl; lia].
      apply NoDup_singleton.
  - intros c d dd -> -> ->.
    unfold sigar_list_create, malloc, sigar_net_interface_list_destroy,
      list_released, free_elements.
    simpl. destruct K as [| k]; simpl.
    + repeat split. exists []. rewrite app_nil_r.
      split; [reflexivity |]. split; [constructor | simpl; lia].
    + repeat split. exists [Some (m_next m)].
      split; [reflexivity |]. split; [| simpl; lia].
      apply NoDup_singleton.
Qed.

(** A collection holding one element in a block of two, destroyed
    twice. *)
Lemma sigar_list_destroy_idempotent_demo :
  (sigar_list_destroy
     (sigar_list_destroy (SigarList 1 2 (Some 7) [Some 5; None]) (Mem 8 [])).1
     (sigar_list_destroy (SigarList 1 2 (Some 7) [Some 5; None]) (Mem 8 [])).2
   = sigar_list_destroy (SigarList 1 2 (Some 7) [Some 5; None]) (Mem 8 []) /\
   list_released
     (sigar_list_destroy (SigarList 1 2 (Some 7) [Some 5; None])
                         (Mem 8 [])).1).
Proof.
  apply (sigar_list_destroy_idempotent 2
           (SigarList 1 2 (Some 7) [Some 5; None])
           (SigarList 1 2 (Some 6) [Some (CStr 5 "lo"); None])
           (Mem 8 [])); simpl; lia.
Defined.

(** ** Filesystem types *)

Lemma fstype_names_lookup (t : N) :
  (t < SIGAR_FSTYPE_MAX)%N ->
  exists nm, fstype_names !! N.to_nat t = Some nm /\ In nm fstype_names.
Proof.
  intros Ht. unfold SIGAR_FSTYPE_MAX in Ht.
  assert (Hn : N.to_nat t < 7) by lia.
  destruct (N.to_nat t) as [| [| [| [| [| [| [| n]]]]]]]; try lia;
    simpl; eexists; (split; [reflexivity |]); simpl; tauto.
Qed.

Lemma sigar_fs_type_get_clamp (fsp : sigar_file_system_t) :
  (fs_type (if (SIGAR_FSTYPE_MAX <=? fs_type fsp)%N
            then set_fs_type SIGAR_FSTYPE_NONE fsp else fsp)
   < SIGAR_FSTYPE_MAX)%N.
Proof.
  destruct (SIGAR_FSTYPE_MAX <=? fs_type fsp)%N eqn:E; simpl.
  - reflexivity.
  - apply N.leb_gt in E. exact E.
Qed.

(** C9.  Whatever the OS-specific lookup does, [sigar_fs_type_get] returns
    with [fsp->type] a valid index strictly below [SIGAR_FSTYPE_MAX] and
    [fsp->type_name] the entry of [fstype_names] at that index, one of the
    seven fixed names; a type at or beyond the bound on entry becomes
    [SIGAR_FSTYPE_NONE], and so does an unset type whose [sys_type_name]
    neither the OS-specific nor the common lookup recognises. *)
Theorem sigar_fs_type_get_valid
    (os : sigar_file_system_t -> sigar_file_system_t * Z)
    (fsp : sigar_file_system_t) :
  exists fsp',
    sigar_fs_type_get os fsp = Some fsp' /\
    (fs_type fsp' < SIGAR_FSTYPE_MAX)%N /\
    fstype_names !! N.to_nat (fs_type fsp') = Some (type_name fsp') /\
    In (type_name fsp')
       ["unknown"; "none"; "local"; "remote"; "ram"; "cdrom"; "swap"]%string /\
    ((SIGAR_FSTYPE_MAX <= fs_type fsp)%N ->
     fs_type fsp' = SIGAR_FSTYPE_NONE) /\
    (fs_type fsp = SIGAR_FSTYPE_UNKNOWN ->
     (os fsp).2 = 0%Z ->
     (sigar_common_fs_type_get (os fsp).1).2 = 0%N ->
     fs_type fsp' = SIGAR_FSTYPE_NONE).
Proof.
  unfold sigar_fs_type_get.
  set (fsp1 := if negb (fs_type fsp =? 0)%N then fsp else _).
  pose proof (sigar_fs_type_get_clamp fsp1) as Hlt.
  set (fsp2 := if (SIGAR_FSTYPE_MAX <=? fs_type fsp1)%N then _ else _) in *.
  destruct (fstype_names_lookup _ Hlt) as (nm & Hnm & Hin).
  rewrite Hnm. eexists. split; [reflexivity |]. simpl.
  split; [exact Hlt |]. split; [exact Hnm |]. split; [exact Hin |].
  split.
  - (* out of range on entry: already set, then clamped *)
    intros Hge. subst fsp2 fsp1.
    assert (E0 : (fs_type fsp =? 0)%N = false).
    { apply N.eqb_neq. unfold SIGAR_FSTYPE_MAX in Hge. lia. }
    rewrite E0. simpl.
    apply N.leb_le in Hge. rewrite Hge. reflexivity.
  - (* unset and unrecognised *)
    intros H0 Hos Hc. subst fsp2 fsp1. clear Hlt Hnm Hin.
    unfold SIGAR_FSTYPE_UNKNOWN in H0. rewrite H0. simpl.
    destruct (os fsp) as [fsp_os r_os]. simpl in Hos, Hc.
    rewrite Hos. simpl.
    destruct (sigar_common_fs_type_get fsp_os) as [fsp_c r_c].
    simpl in Hc. rewrite Hc. simpl. reflexivity.
Qed.

(** ** Interface enumeration *)

Lemma to_int_id (z : Z) :
  (- 2 ^ 31 <= z <= INT_MAX)%Z -> to_int z = z.
Proof.
  unfold to_int, INT_MAX. intros Hz.
  rewrite Z.mod_small; lia.
Qed.

Section EnumerationFacts.
Context {K : Type}.
Variable P : platform.
Variable kern : kernel K.

Local Open Scope Z_scope.

Lemma ifconf_increment_pos : 0 < ifconf_increment P.
Proof. unfold ifconf_increment. lia. Qed.

(** One round, read off the code: the session and world it leaves, the
    reply it got and how it ended. *)
Lemma ifconf_iter_eq (sock lastlen : Z) (s : sigar_t) (w : world K) :
  0 <= ifconf_len s -> round_buflen P lastlen s <= INT_MAX ->
  exists s1 w1,
    ifconf_iter P kern sock lastlen s w =
      (s1, w1,
       (k_ifconf kern (w_kernel w) sock (round_buflen P lastlen s)).1,
       round_exit P lastlen (round_buflen P lastlen s)
         (k_ifconf kern (w_kernel w) sock (round_buflen P lastlen s)).1) /\
    ifconf_len s1 = round_buflen P lastlen s /\
    (round_grows lastlen s = true -> is_Some (ifconf_buf s1)) /\
    (round_grows lastlen s = false -> s1 = s) /\
    w_fds w1 = w_fds w.
Proof.
  intros H0 Hmax.
  pose proof ifconf_increment_pos as Hinc.
  revert Hmax.
  unfold ifconf_iter, round_buflen, round_exit, round_grows, sys_ifconf.
  destruct (negb (bool_decide (is_Some (ifconf_buf s))) ||
            negb (lastlen =? 0)) eqn:G; intros Hmax.
  - rewrite to_int_id by (unfold INT_MAX in *; lia). simpl.
    destruct (k_ifconf kern (w_kernel w) sock
                (ifconf_len s + ifconf_increment P)) as [r k'].
    simpl.
    destruct ((ic_ret r <? 0) &&
              (negb (ic_errno r =? EINVAL P) || (lastlen =? ic_len r)));
      [| destruct (ic_len r <? ifconf_len s + ifconf_increment P);
         [| destruct (negb (ic_len r =? lastlen))]];
      eexists _, _; (split; [reflexivity |]); simpl;
      (split; [reflexivity |]); (split; [intros _; eexists; reflexivity |]);
      (split; [discriminate | reflexivity]).
  - simpl.
    destruct (k_ifconf kern (w_kernel w) sock (ifconf_len s)) as [r k'].
    simpl.
    destruct ((ic_ret r <? 0) &&
              (negb (ic_errno r =? EINVAL P) || (lastlen =? ic_len r)));
      [| destruct (ic_len r <? ifconf_len s);
         [| destruct (negb (ic_len r =? lastlen))]];
      eexists _, _; (split; [reflexivity |]); simpl;
      (split; [reflexivity |]); (split; [discriminate |]);
      (split; [reflexivity | reflexivity]).
Qed.

Lemma ifconf_loop_S (fuel : nat) (sock lastlen : Z) (s : sigar_t)
    (w : world K) :
  ifconf_loop P kern (S fuel) sock lastlen s w =
    let '(s1, w1, ifc, e) := ifconf_iter P kern sock lastlen s w in
    match e with
    | LoopReturn st => Done (s1, w1, inl st)
    | LoopBreak => Done (s1, w1, inr ifc)
    | LoopContinue ll => ifconf_loop P kern fuel sock ll s1 w1
    end.
Proof. reflexivity. Qed.

Lemma ifconf_rounds_S (fuel : nat) (sock lastlen : Z) (s : sigar_t)
    (w : world K) :
  ifconf_rounds P kern (S fuel) sock lastlen s w =
    let '(s1, w1, ifc, e) := ifconf_iter P kern sock lastlen s w in
    IfconfRound lastlen (ifconf_len s1) ifc e ::
    match e with
    | LoopContinue ll => ifconf_rounds P kern fuel sock ll s1 w1
    | _ => []
    end.
Proof. reflexivity. Qed.

(** What the buffer a round offers looks like, from the state the round
    starts in. *)
Lemma round_buflen_bounds (lastlen : Z) (s : sigar_t) :
  session_ok s -> 0 <= lastlen <= ifconf_len s ->
  lastlen < round_buflen P lastlen s /\
  ifconf_len s <= round_buflen P lastlen s <=
    ifconf_len s + ifconf_increment P.
Proof.
  intros [Hlen Hbuf] Hll.
  pose proof ifconf_increment_pos as Hinc.
  unfold round_buflen, round_grows.
  destruct (bool_decide (is_Some (ifconf_buf s))) eqn:B; simpl.
  - apply bool_decide_eq_true in B. specialize (Hbuf B).
    destruct (lastlen =? 0) eqn:E; simpl.
    + apply Z.eqb_eq in E. lia.
    + lia.
  - lia.
Qed.

Lemma round_buflen_after_retry (ll : Z) (s : sigar_t) :
  ll <> 0 ->
  round_buflen P ll s = ifconf_len s + ifconf_increment P.
Proof.
  intros Hll. unfold round_buflen, round_grows.
  apply Z.eqb_neq in Hll. rewrite Hll.
  rewrite orb_true_r. reflexivity.
Qed.

(** The exits of a round whose reply stays within the buffer offered. *)
Lemma round_exit_within (lastlen B : Z) (r : ifconf_reply) :
  lastlen < B -> ic_len r <= B ->
  (round_exit P lastlen B r = LoopBreak -> ic_len r < B) /\
  (forall ll, round_exit P lastlen B r = LoopContinue ll ->
              ll = B /\ ic_len r = B) /\
  (ic_len r = B -> 0 <= ic_ret r ->
   round_exit P lastlen B r = LoopContinue B).
Proof.
  intros Hll Hle. unfold round_exit.
  destruct (ic_ret r <? 0) eqn:Eret.
  - destruct (negb (ic_errno r =? EINVAL P) || (lastlen =? ic_len r))
      eqn:Eerr; simpl.
    + split; [discriminate |]. split; [discriminate |].
      apply Z.ltb_lt in Eret. lia.
    + destruct (ic_len r <? B) eqn:Elt.
      * apply Z.ltb_lt in Elt.
        split; [auto |]. split; [discriminate | lia].
      * apply Z.ltb_ge in Elt.
        destruct (ic_len r =? lastlen) eqn:Eeq; simpl.
        -- apply Z.eqb_eq in Eeq. lia.
        -- split; [discriminate |]. split.
           ++ intros ll [= <-]. lia.
           ++ apply Z.ltb_lt in Eret. lia.
  - simpl.
    destruct (ic_len r <? B) eqn:Elt.
    + apply Z.ltb_lt in Elt.
      split; [auto |]. split; [discriminate | lia].
    + apply Z.ltb_ge in Elt.
      destruct (ic_len r =? lastlen) eqn:Eeq; simpl.
      * apply Z.eqb_eq in Eeq. lia.
      * split; [discriminate |]. split.
        -- intros ll [= <-]. lia.
        -- intros HB _. rewrite HB. reflexivity.
Qed.

(** A reply that repeats [lastlen] never makes the loop go round again. *)
Lemma round_exit_same_length (lastlen B : Z) (r : ifconf_reply) (ll : Z) :
  ic_len r = lastlen -> round_exit P lastlen B r <> LoopContinue ll.
Proof.
  intros Hsame. unfold round_exit.
  destruct ((ic_ret r <? 0) &&
            (negb (ic_errno r =? EINVAL P) || (lastlen =? ic_len r)));
    [discriminate |].
  destruct (ic_len r <? B); [discriminate |].
  rewrite Hsame, Z.eqb_refl. simpl. discriminate.
Qed.

(** The run of the loop against a kernel that stays within the buffer. *)
Lemma ifconf_run_within (fuel : nat) (sock lastlen : Z) (s : sigar_t)
    (w : world K) :
  ifconf_within_buffer kern ->
  session_ok s -> 0 <= lastlen <= ifconf_len s ->
  ifconf_len s + ifconf_increment P * Z.of_nat fuel <= INT_MAX ->
  (forall s' w' ifc,
     ifconf_loop P kern fuel sock lastlen s w = Done (s', w', inr ifc) ->
     ic_len ifc < ifconf_len s' /\ 0 < ifconf_len s') /\
  (forall i rd,
     ifconf_rounds P kern fuel sock lastlen s w !! i = Some rd ->
     rd_buflen rd =
       round_buflen P lastlen s + Z.of_nat i * ifconf_increment P /\
     (rd_exit rd = LoopBreak -> ic_len (rd_reply rd) < rd_buflen rd) /\
     (ic_len (rd_reply rd) = rd_buflen rd -> 0 <= ic_ret (rd_reply rd) ->
      rd_exit rd = LoopContinue (rd_buflen rd))).
Proof.
  intros Hk. revert lastlen s w.
  pose proof ifconf_increment_pos as Hinc.
  induction fuel as [| fuel IH]; intros lastlen s w Hs Hll Hmax.
  - split; [intros s' w' ifc; discriminate | intros i rd; discriminate].
  - destruct (round_buflen_bounds lastlen s Hs Hll) as [HllB HB].
    destruct (ifconf_iter_eq sock lastlen s w) as
      (s1 & w1 & E & Hlen1 & Hgrow & Hsame & _); [lia | nia |].
    set (B := round_buflen P lastlen s) in *.
    set (r := (k_ifconf kern (w_kernel w) sock B).1) in *.
    assert (HrB : ic_len r <= B) by apply Hk.
    destruct (round_exit_within lastlen B r HllB HrB)
      as (Hbreak & Hcont & Hfull).
    assert (Hs1 : session_ok s1).
    { split; [lia |]. intros _. lia. }
    rewrite ifconf_loop_S, ifconf_rounds_S, E.
    destruct (round_exit P lastlen B r) as [st | | ll] eqn:Eexit.
    + split.
      * intros s' w' ifc; discriminate.
      * intros [| i] rd; [| discriminate]. intros [= <-]. simpl.
        rewrite Hlen1. split; [lia |]. split; [discriminate | exact Hfull].
    + split.
      * intros s' w' ifc [= <- <- <-]. rewrite Hlen1.
        split; [apply Hbreak; reflexivity | lia].
      * intros [| i] rd; [| discriminate]. intros [= <-]. simpl.
        rewrite Hlen1. split; [lia |]. split; [auto | exact Hfull].
    + destruct (Hcont ll eq_refl) as [-> Hr].
      destruct (IH B s1 w1 Hs1) as [IHloop IHrounds]; [lia | nia |].
      split; [exact IHloop |].
      intros [| i] rd.
      * intros [= <-]. simpl. rewrite Hlen1.
        split; [lia |]. split; [discriminate | exact Hfull].
      * intros Hrd. destruct (IHrounds i rd Hrd) as (Hbuf & Hb & Hf).
        split; [| split; assumption].
        rewrite Hbuf, round_buflen_after_retry by lia. lia.
Qed.

Lemma ifreq_count_le (len : Z) :
  (ifreq_count P len <= Z.to_nat len)%nat.
Proof.
  unfold ifreq_count.
  set (rec := Z.pos (sizeof_ifreq P)).
  assert (Hrec : 0 < rec) by (unfold rec; lia).
  destruct (Z_le_gt_dec len 0) as [Hneg | Hposv].
  - assert ((len + rec - 1) / rec <= 0).
    { apply Z.lt_succ_r. apply Z.div_lt_upper_bound; lia. }
    lia.
  - assert ((len + rec - 1) / rec <= len).
    { apply Z.lt_succ_r. apply Z.div_lt_upper_bound; nia. }
    lia.
Qed.

(** The copy of the names stays inside the block when there is room, and
    leaves every slot up to [number] written. *)
Lemma ifconf_copy_names_done (names : list string) (l : sigar_list cstr)
    (m : mem) :
  (number l + length names <= length (cells l))%nat ->
  exists l' m' cs,
    ifconf_copy_names names l m = Done (l', m') /\
    size l' = size l /\
    number l' = (number l + length names)%nat /\
    length (cells l') = length (cells l) /\
    sigar_list_read l' = sigar_list_read l ++ (Some <$> cs) /\
    cs_val <$> cs = names.
Proof.
  revert l m. induction names as [| nm names IH]; intros l m Hroom.
  - exists l, m, []. simpl. rewrite app_nil_r.
    repeat split; try reflexivity. lia.
  - simpl in Hroom. simpl.
    destruct (decide (number l < length (cells l))%nat) as [Hin | Hout];
      [| lia].
    edestruct (IH (SigarList (S (number l)) (size l) (data l)
                     (<[number l := Some (CStr (m_next m) nm)]> (cells l)))
                  (Mem (S (m_next m)) (m_freed m)))
      as (l' & m' & cs & E & Hsz & Hn & Hlen & Hrd & Hval).
    { simpl. rewrite length_insert. lia. }
    exists l', m', (CStr (m_next m) nm :: cs).
    split; [exact E |]. simpl in *.
    split; [exact Hsz |]. split; [lia |].
    split; [rewrite Hlen, length_insert; reflexivity |].
    split; [| change (nm :: (cs_val <$> cs) = nm :: names);
              f_equal; exact Hval].
    rewrite Hrd. unfold sigar_list_read. simpl.
    rewrite (take_S_r _ _ (Some (CStr (m_next m) nm)))
      by (apply list_lookup_insert_eq; exact Hin).
    rewrite take_insert_ge by lia.
    rewrite <- app_assoc. reflexivity.
Qed.

(** [sigar_net_interface_list_get], path by path. *)
Lemma sigar_net_interface_list_get_eq (fuel : nat) (s : sigar_t)
    (w : world K) (l0 : sigar_list cstr) :
  sigar_net_interface_list_get P kern fuel s w l0 =
    if ((sys_socket kern w).1 <? 0) then
      Done (w_errno (sys_socket kern w).2, l0, s, (sys_socket kern w).2)
    else
      match ifconf_loop P kern fuel (sys_socket kern w).1 0 s
              (sys_socket kern w).2 with
      | Done (s1, w1, inl st) => Done (st, l0, s1, w1)
      | Done (s1, w1, inr ifc) =>
          '(l, m2) ← ifconf_copy_names
                       (ic_req ifc <$> seq 0 (ifreq_count P (ic_len ifc)))
                       (SigarList 0 (Z.to_nat (ic_len ifc))
                          (Some (m_next (w_mem w1)))
                          (replicate (Z.to_nat (ic_len ifc)) None))
                       (Mem (S (m_next (w_mem w1))) (m_freed (w_mem w1)));
          Done (SIGAR_OK P, l, s1,
                set_mem m2 (sys_close (sys_socket kern w).1 w1))
      | Fault => Fault
      | NoFuel => NoFuel
      end.
Proof.
  unfold sigar_net_interface_list_get.
  destruct (sys_socket kern w) as [sock w0]. simpl.
  destruct (sock <? 0); [reflexivity |].
  destruct (ifconf_loop P kern fuel sock 0 s w0) as [[[s1 w1] res] | |];
    simpl; reflexivity.
Qed.

(** An accepted reply gives a list: the copy cannot fault. *)
Lemma sigar_net_interface_list_get_accept (ifc : ifconf_reply) (m : mem) :
  exists l m2 cs,
    ifconf_copy_names
      (ic_req ifc <$> seq 0 (ifreq_count P (ic_len ifc)))
      (SigarList 0 (Z.to_nat (ic_len ifc)) (Some (m_next m))
         (replicate (Z.to_nat (ic_len ifc)) None))
      (Mem (S (m_next m)) (m_freed m)) = Done (l, m2) /\
    size l = Z.to_nat (ic_len ifc) /\
    (number l <= length (cells l))%nat /\
    sigar_list_read l = Some <$> cs /\
    cs_val <$> cs = ic_req ifc <$> seq 0 (ifreq_count P (ic_len ifc)).
Proof.
  edestruct (ifconf_copy_names_done
               (ic_req ifc <$> seq 0 (ifreq_count P (ic_len ifc)))
               (SigarList 0 (Z.to_nat (ic_len ifc)) (Some (m_next m))
                  (replicate (Z.to_nat (ic_len ifc)) None))
               (Mem (S (m_next m)) (m_freed m)))
    as (l & m2 & cs & E & Hsz & Hn & Hlen & Hrd & Hval).
  { simpl. rewrite length_fmap, length_seq, length_replicate.
    apply ifreq_count_le. }
  exists l, m2, cs. simpl in *.
  split; [exact E |]. split; [exact Hsz |].
  split.
  - rewrite Hn, Hlen, length_fmap, length_seq, length_replicate.
    apply ifreq_count_le.
  - split; [exact Hrd | exact Hval].
Qed.

(** A [return] inside the loop gives [errno] of an [ioctl] that failed. *)
Lemma ifconf_iter_return (sock lastlen : Z) (s : sigar_t) (w : world K)
    (s1 : sigar_t) (w1 : world K) (ifc : ifconf_reply) (st : Z) :
  ifconf_iter P kern sock lastlen s w = (s1, w1, ifc, LoopReturn st) ->
  exists k B, ic_ret (k_ifconf kern k sock B).1 < 0 /\
              st = ic_errno (k_ifconf kern k sock B).1.
Proof.
  unfold ifconf_iter, sys_ifconf.
  destruct (negb (bool_decide (is_Some (ifconf_buf s))) ||
            negb (lastlen =? 0)); simpl.
  - destruct (k_ifconf kern (w_kernel w) sock
                (to_int (ifconf_len s + ifconf_increment P)))
      as [r k'] eqn:Ek. simpl.
    destruct (ic_ret r <? 0) eqn:Eret; simpl.
    + destruct (negb (ic_errno r =? EINVAL P) || (lastlen =? ic_len r)).
      * intros [= _ _ _ <-]. eexists _, _. rewrite Ek. simpl.
        split; [apply Z.ltb_lt; exact Eret | reflexivity].
      * destruct (ic_len r <? _); [discriminate |].
        destruct (negb (ic_len r =? lastlen)); discriminate.
    + destruct (ic_len r <? _); [discriminate |].
      destruct (negb (ic_len r =? lastlen)); discriminate.
  - destruct (k_ifconf kern (w_kernel w) sock (ifconf_len s))
      as [r k'] eqn:Ek. simpl.
    destruct (ic_ret r <? 0) eqn:Eret; simpl.
    + destruct (negb (ic_errno r =? EINVAL P) || (lastlen =? ic_len r)).
      * intros [= _ _ _ <-]. eexists _, _. rewrite Ek. simpl.
        split; [apply Z.ltb_lt; exact Eret | reflexivity].
      * destruct (ic_len r <? _); [discriminate |].
        destruct (negb (ic_len r =? lastlen)); discriminate.
    + destruct (ic_len r <? _); [discriminate |].
      destruct (negb (ic_len r =? lastlen)); discriminate.
Qed.

Lemma ifconf_loop_return (fuel : nat) (sock lastlen : Z) (s : sigar_t)
    (w : world K) (s' : sigar_t) (w' : world K) (st : Z) :
  ifconf_loop P kern fuel sock lastlen s w = Done (s', w', inl st) ->
  exists k B, ic_ret (k_ifconf kern k sock B).1 < 0 /\
              st = ic_errno (k_ifconf kern k sock B).1.
Proof.
  revert lastlen s w. induction fuel as [| fuel IH]; intros lastlen s w.
  - discriminate.
  - rewrite ifconf_loop_S.
    destruct (ifconf_iter P kern sock lastlen s w)
      as [[[s1 w1] ifc] e] eqn:E.
    destruct e as [st1 | | ll].
    + intros [= <- <- <-]. apply (ifconf_iter_return _ _ _ _ _ _ _ _ E).
    + discriminate.
    + apply IH.
Qed.
End EnumerationFacts.

Section EnumerationClaims.
Context {K : Type}.
Variable P : platform.
Variable kern : kernel K.

Local Open Scope Z_scope.

(** C1 (as amended).  Against a kernel that never reports more bytes than
    the buffer it was offered (and whose failing calls set [errno]), from a
    session whose buffer is absent or of positive length, and as long as
    the buffer length stays within [int]: whenever
    [sigar_net_interface_list_get] accepts a reply and returns [SIGAR_OK],
    the length the kernel reported is strictly less than the buffer length
    of that attempt; and a successful reply that fills the buffer exactly
    never ends the retry loop: the round ends in [continue] and the next
    round offers a buffer one increment larger. *)
Theorem sigar_net_interface_list_get_accepts_below_buffer
    (fuel : nat) (s : sigar_t) (w : world K) (l0 : sigar_list cstr) :
  ifconf_within_buffer kern -> failure_sets_errno P kern ->
  session_ok s ->
  ifconf_len s + ifconf_increment P * Z.of_nat fuel <= INT_MAX ->
  (forall l s' w',
     sigar_net_interface_list_get P kern fuel s w l0
       = Done (SIGAR_OK P, l, s', w') ->
     Z.of_nat (size l) < ifconf_len s') /\
  (forall sock s' w' ifc,
     ifconf_loop P kern fuel sock 0 s w = Done (s', w', inr ifc) ->
     ic_len ifc < ifconf_len s') /\
  (forall sock i rd,
     ifconf_rounds P kern fuel sock 0 s w !! i = Some rd ->
     (rd_exit rd = LoopBreak -> ic_len (rd_reply rd) < rd_buflen rd) /\
     (0 <= ic_ret (rd_reply rd) -> ic_len (rd_reply rd) = rd_buflen rd ->
      rd_exit rd = LoopContinue (rd_buflen rd) /\
      forall rd',
        ifconf_rounds P kern fuel sock 0 s w !! S i = Some rd' ->
        rd_buflen rd' = rd_buflen rd + ifconf_increment P)).
Proof.
  intros Hk [Hsockerr Hioerr] Hs Hmax.
  assert (Hll : 0 <= 0 <= ifconf_len s) by (destruct Hs; lia).
  split; [| split].
  - (* the call as a whole *)
    intros l s' w'. rewrite sigar_net_interface_list_get_eq.
    unfold sys_socket.
    destruct (k_socket kern (w_kernel w)) as [[fd e] k'] eqn:Esock. simpl.
    destruct (fd <? 0) eqn:Efd.
    + (* socket failed: errno is returned, and it is not SIGAR_OK *)
      intros [= He _ _ _]. exfalso.
      apply (Hsockerr (w_kernel w)); rewrite Esock; simpl;
        [apply Z.ltb_lt; exact Efd | exact He].
    + set (w0 := World k' e (fd :: w_fds w) (w_log w ++ [EvSocket fd])
                       (w_mem w)).
      destruct (ifconf_run_within P kern fuel fd 0 s w0 Hk Hs Hll Hmax)
        as [Hloop _].
      destruct (ifconf_loop P kern fuel fd 0 s w0)
        as [[[s1 w1] [st | ifc]] | |] eqn:Eloop; try discriminate.
      * (* return inside the loop: the status is errno of a failed ioctl *)
        intros [= Hst _ _ _]. exfalso. subst st.
        destruct (ifconf_loop_return P kern _ _ _ _ _ _ _ _ Eloop)
          as (k & B & Hret & Herr).
        apply (Hioerr k fd B Hret). symmetry. exact Herr.
      * (* break: the reply is below the buffer length *)
        destruct (sigar_net_interface_list_get_accept P ifc (w_mem w1))
          as (l1 & m2 & cs & Ecopy & Hsz & _).
        rewrite Ecopy. simpl. intros [= <- <- _].
        destruct (Hloop s1 w1 ifc eq_refl) as [Hlt Hposv].
        rewrite Hsz. lia.
  - (* the loop *)
    intros sock s' w' ifc Eloop.
    destruct (ifconf_run_within P kern fuel sock 0 s w Hk Hs Hll Hmax)
      as [Hloop _].
    apply (Hloop s' w' ifc Eloop).
  - (* round by round *)
    intros sock i rd Hrd.
    destruct (ifconf_run_within P kern fuel sock 0 s w Hk Hs Hll Hmax)
      as [_ Hrounds].
    destruct (Hrounds i rd Hrd) as (Hbuf & Hbreak & Hfull).
    split; [exact Hbreak |].
    intros Hret Hlen. split; [apply Hfull; assumption |].
    intros rd' Hrd'.
    destruct (Hrounds (S i) rd' Hrd') as (Hbuf' & _).
    rewrite Hbuf', Hbuf. lia.
Qed.
End EnumerationClaims.

Lemma need_kernel_within_buffer (R : Z) : ifconf_within_buffer (need_kernel R).
Proof.
  intros k fd len. simpl.
  destruct (len <? R)%Z eqn:E; simpl; [lia |].
  apply Z.ltb_ge in E. exact E.
Qed.

Lemma need_kernel_failure_sets_errno (R : Z) :
  failure_sets_errno linux (need_kernel R).
Proof.
  split.
  - intros k. simpl. lia.
  - intros k fd len. simpl.
    destruct (len <? R)%Z; simpl; [discriminate | lia].
Qed.

Lemma need_kernel_fixed (R : Z) :
  (0 <= R)%Z -> fixed_requirement (need_kernel R) R.
Proof.
  intros HR. split; [exact HR |].
  intros k fd len Hlen. simpl.
  assert (E : (len <? R)%Z = false) by (apply Z.ltb_ge; lia).
  rewrite E. simpl. split; [lia | reflexivity].
Qed.

Lemma sigar0_ok : session_ok sigar0.
Proof.
  split; simpl; [lia |]. intros [x Hx]. discriminate.
Qed.

(** The hypotheses hold of a Linux kernel that needs 1000 bytes and of the
    session [sigar_open] leaves. *)
Lemma sigar_net_interface_list_get_accepts_below_buffer_linux :
  (forall l s' w',
     sigar_net_interface_list_get linux (need_kernel 1000) 4 sigar0
       (world0 tt) (SigarList 0 0 None [])
       = Done (SIGAR_OK linux, l, s', w') ->
     (Z.of_nat (size l) < ifconf_len s')%Z) /\
  (forall sock s' w' ifc,
     ifconf_loop linux (need_kernel 1000) 4 sock 0 sigar0 (world0 tt)
       = Done (s', w', inr ifc) ->
     (ic_len ifc < ifconf_len s')%Z) /\
  (forall sock i rd,
     ifconf_rounds linux (need_kernel 1000) 4 sock 0 sigar0 (world0 tt) !! i
       = Some rd ->
     (rd_exit rd = LoopBreak -> (ic_len (rd_reply rd) < rd_buflen rd)%Z) /\
     ((0 <= ic_ret (rd_reply rd))%Z -> ic_len (rd_reply rd) = rd_buflen rd ->
      rd_exit rd = LoopContinue (rd_buflen rd) /\
      forall rd',
        ifconf_rounds linux (need_kernel 1000) 4 sock 0 sigar0 (world0 tt)
          !! S i = Some rd' ->
        rd_buflen rd' = (rd_buflen rd + ifconf_increment linux)%Z)).
Proof.
  apply (sigar_net_interface_list_get_accepts_below_buffer
           linux (need_kernel 1000) 4 sigar0 (world0 tt)
           (SigarList 0 0 None [])).
  - apply need_kernel_within_buffer.
  - apply need_kernel_failure_sets_errno.
  - apply sigar0_ok.
  - vm_compute. discriminate.
Defined.

(** C1 as stated fails.  The kernel answers the first attempt (buffer of
    800 bytes) with [EINVAL] and the length it needs, 1600; the second
    attempt offers 1600 bytes and the kernel fills them exactly.  The
    reported length equals [lastlen], the loop breaks and the call returns
    [SIGAR_OK] with a reply as long as the buffer. *)
Lemma sigar_net_interface_list_get_accepts_full_buffer :
  match sigar_net_interface_list_get linux reporting_kernel 2 sigar0
          (world0 0%nat) (SigarList 0 0 None []) with
  | Done (st, l, s', _) =>
      st = SIGAR_OK linux /\ Z.of_nat (size l) = ifconf_len s' /\
      ifconf_len s' = 1600%Z
  | _ => False
  end /\
  match ifconf_rounds linux reporting_kernel 2 3 0 sigar0 (world0 0%nat)
          !! 1%nat with
  | Some rd =>
      ic_ret (rd_reply rd) = 0%Z /\ rd_buflen rd = 1600%Z /\
      ic_len (rd_reply rd) = rd_buflen rd /\ rd_exit rd = LoopBreak
  | None => False
  end.
Proof.
  split.
  - vm_compute. repeat split.
  - vm_compute. repeat split.
Qed.

(** ** Termination of the enumeration loop *)

Section TerminationFacts.
Context {K : Type}.
Variable P : platform.
Variable kern : kernel K.

Local Open Scope Z_scope.

(** A round goes round again only on a length it has not just seen. *)
Lemma ifconf_iter_continue (sock lastlen : Z) (s : sigar_t) (w : world K)
    (s1 : sigar_t) (w1 : world K) (ifc : ifconf_reply) (ll : Z) :
  ifconf_iter P kern sock lastlen s w = (s1, w1, ifc, LoopContinue ll) ->
  ic_len ifc <> lastlen.
Proof.
  unfold ifconf_iter, sys_ifconf.
  destruct (negb (bool_decide (is_Some (ifconf_buf s))) ||
            negb (lastlen =? 0)); simpl.
  - destruct (k_ifconf kern (w_kernel w) sock
                (to_int (ifconf_len s + ifconf_increment P))) as [r k'].
    simpl.
    destruct ((ic_ret r <? 0) &&
              (negb (ic_errno r =? EINVAL P) || (lastlen =? ic_len r)));
      [discriminate |].
    destruct (ic_len r <? _); [discriminate |].
    destruct (ic_len r =? lastlen) eqn:E; simpl; [discriminate |].
    intros [= _ _ <- _]. apply Z.eqb_neq. exact E.
  - destruct (k_ifconf kern (w_kernel w) sock (ifconf_len s)) as [r k'].
    simpl.
    destruct ((ic_ret r <? 0) &&
              (negb (ic_errno r =? EINVAL P) || (lastlen =? ic_len r)));
      [discriminate |].
    destruct (ic_len r <? _); [discriminate |].
    destruct (ic_len r =? lastlen) eqn:E; simpl; [discriminate |].
    intros [= _ _ <- _]. apply Z.eqb_neq. exact E.
Qed.

Lemma ifconf_rounds_same_length (fuel : nat) (sock lastlen : Z)
    (s : sigar_t) (w : world K) (i : nat) (rd : ifconf_round) (ll : Z) :
  ifconf_rounds P kern fuel sock lastlen s w !! i = Some rd ->
  ic_len (rd_reply rd) = rd_lastlen rd ->
  rd_exit rd <> LoopContinue ll.
Proof.
  revert lastlen s w i.
  induction fuel as [| fuel IH]; intros lastlen s w i; [discriminate |].
  rewrite ifconf_rounds_S.
  destruct (ifconf_iter P kern sock lastlen s w)
    as [[[s1 w1] ifc] e] eqn:E.
  destruct i as [| i].
  - intros [= <-]. simpl. intros Hsame ->.
    apply (ifconf_iter_continue _ _ _ _ _ _ _ _ E). exact Hsame.
  - destruct e as [st | | l1]; try discriminate. apply IH.
Qed.

(** Offered more than the [R] bytes it requires, the kernel is accepted. *)
Lemma round_exit_enough (R lastlen B : Z) (r : ifconf_reply) :
  R < B -> 0 <= ic_ret r -> ic_len r = R ->
  round_exit P lastlen B r = LoopBreak.
Proof.
  intros HB Hret Hlen. unfold round_exit.
  assert (E1 : (ic_ret r <? 0) = false) by (apply Z.ltb_ge; lia).
  assert (E2 : (ic_len r <? B) = true) by (apply Z.ltb_lt; lia).
  rewrite E1, E2. reflexivity.
Qed.

Lemma round_exit_continue (lastlen B : Z) (r : ifconf_reply) (ll : Z) :
  round_exit P lastlen B r = LoopContinue ll -> ll = ic_len r /\ B <= ll.
Proof.
  unfold round_exit.
  destruct ((ic_ret r <? 0) &&
            (negb (ic_errno r =? EINVAL P) || (lastlen =? ic_len r)));
    [discriminate |].
  destruct (ic_len r <? B) eqn:E; [discriminate |].
  destruct (negb (ic_len r =? lastlen)); [| discriminate].
  intros [= <-]. apply Z.ltb_ge in E. lia.
Qed.

(** The buffer a round offers is positive. *)
Lemma round_buflen_pos (lastlen : Z) (s : sigar_t) :
  session_ok s -> 0 < round_buflen P lastlen s.
Proof.
  intros [Hlen Hbuf]. pose proof (ifconf_increment_pos P) as Hinc.
  unfold round_buflen, round_grows.
  destruct (bool_decide (is_Some (ifconf_buf s))) eqn:B; simpl.
  - apply bool_decide_eq_true in B. specialize (Hbuf B).
    destruct (negb (lastlen =? 0)); lia.
  - lia.
Qed.

(** The run against a kernel with a fixed requirement: if [n] increments
    take the buffer beyond [R], the loop is over within [n + 1] rounds. *)
Lemma ifconf_run_terminates (R : Z) (n : nat) (sock lastlen : Z)
    (s : sigar_t) (w : world K) :
  fixed_requirement kern R -> session_ok s ->
  round_buflen P lastlen s <= INT_MAX ->
  R + ifconf_increment P <= INT_MAX ->
  R - round_buflen P lastlen s < Z.of_nat n * ifconf_increment P ->
  exists k res,
    (1 <= k <= S n)%nat /\
    (forall fuel, (k <= fuel)%nat ->
       ifconf_loop P kern fuel sock lastlen s w = Done res /\
       ifconf_rounds P kern fuel sock lastlen s w =
         ifconf_rounds P kern k sock lastlen s w) /\
    length (ifconf_rounds P kern k sock lastlen s w) = k /\
    (forall i rd,
       ifconf_rounds P kern k sock lastlen s w !! i = Some rd ->
       rd_buflen rd =
         round_buflen P lastlen s + Z.of_nat i * ifconf_increment P).
Proof.
  intros [HR Hfix]. revert lastlen s w.
  pose proof (ifconf_increment_pos P) as Hinc.
  induction n as [| n IH]; intros lastlen s w Hs Hmax HRmax Hn.
  - (* the buffer is already beyond R: one round *)
    destruct (ifconf_iter_eq P kern sock lastlen s w) as
      (s1 & w1 & E & Hlen1 & _); [destruct Hs; lia | exact Hmax |].
    set (B := round_buflen P lastlen s) in *.
    destruct (Hfix (w_kernel w) sock B) as [Hret Hlen]; [lia |].
    rewrite (round_exit_enough R lastlen B _ ltac:(lia) Hret Hlen) in E.
    exists 1%nat. eexists. split; [lia |]. split; [| split].
    + intros [| fuel] Hfuel; [lia |].
      rewrite ifconf_loop_S, !ifconf_rounds_S, E. split; reflexivity.
    + rewrite ifconf_rounds_S, E. reflexivity.
    + intros [| i] rd; rewrite ifconf_rounds_S, E; [| discriminate].
      intros [= <-]. simpl. lia.
  - destruct (ifconf_iter_eq P kern sock lastlen s w) as
      (s1 & w1 & E & Hlen1 & _); [destruct Hs; lia | exact Hmax |].
    pose proof (round_buflen_pos lastlen s Hs) as HBpos.
    set (B := round_buflen P lastlen s) in *.
    set (r := (k_ifconf kern (w_kernel w) sock B).1) in *.
    destruct (round_exit P lastlen B r) as [st | | ll] eqn:Eexit.
    + exists 1%nat. eexists. split; [lia |]. split; [| split].
      * intros [| fuel] Hfuel; [lia |].
        rewrite ifconf_loop_S, !ifconf_rounds_S, E. split; reflexivity.
      * rewrite ifconf_rounds_S, E. reflexivity.
      * intros [| i] rd; rewrite ifconf_rounds_S, E; [| discriminate].
        intros [= <-]. simpl. lia.
    + exists 1%nat. eexists. split; [lia |]. split; [| split].
      * intros [| fuel] Hfuel; [lia |].
        rewrite ifconf_loop_S, !ifconf_rounds_S, E. split; reflexivity.
      * rewrite ifconf_rounds_S, E. reflexivity.
      * intros [| i] rd; rewrite ifconf_rounds_S, E; [| discriminate].
        intros [= <-]. simpl. lia.
    + (* the loop goes round: the buffer was not beyond R *)
      destruct (round_exit_continue lastlen B r ll Eexit) as [Hll HBll].
      assert (HBR : B <= R).
      { destruct (Z_le_gt_dec B R) as [Hle | Hgt]; [exact Hle |].
        destruct (Hfix (w_kernel w) sock B) as [Hret Hlen]; [lia |].
        fold r in Hret, Hlen.
        rewrite (round_exit_enough R lastlen B r ltac:(lia) Hret Hlen)
          in Eexit. discriminate. }
      assert (Hs1 : session_ok s1) by (split; [lia | intros _; lia]).
      assert (Hnext : round_buflen P ll s1 = B + ifconf_increment P).
      { rewrite round_buflen_after_retry by lia. lia. }
      destruct (IH ll s1 w1 Hs1) as (k & res & Hk & Hrun & Hlenk & Hbuf);
        [lia | lia | lia |].
      exists (S k), res. split; [lia |]. split; [| split].
      * intros [| fuel] Hfuel; [lia |].
        rewrite ifconf_loop_S, !ifconf_rounds_S, E.
        destruct (Hrun fuel) as [Hl Hr]; [lia |].
        split; [exact Hl | rewrite Hr; reflexivity].
      * rewrite ifconf_rounds_S, E. simpl. rewrite Hlenk. reflexivity.
      * intros [| i] rd; rewrite ifconf_rounds_S, E.
        -- intros [= <-]. simpl. lia.
        -- intros Hrd. rewrite (Hbuf i rd Hrd), Hnext. lia.
Qed.

(** The number of increments that take a buffer of [B] bytes beyond
    [R]. *)
Lemma increments_beyond (R B : Z) :
  R - B < Z.of_nat (Z.to_nat ((R - B) / ifconf_increment P + 1))
          * ifconf_increment P.
Proof.
  pose proof (ifconf_increment_pos P) as Hinc.
  pose proof (Z.div_mod (R - B) (ifconf_increment P) ltac:(lia)) as Hdm.
  pose proof (Z.mod_pos_bound (R - B) (ifconf_increment P) Hinc) as Hm.
  destruct (Z_lt_ge_dec (R - B) 0) as [Hneg | Hpos].
  - assert ((R - B) / ifconf_increment P < 0)
      by (apply Z.div_lt_upper_bound; lia).
    lia.
  - assert (0 <= (R - B) / ifconf_increment P)
      by (apply Z.div_pos; lia).
    rewrite Z2Nat.id by lia. nia.
Qed.
End TerminationFacts.

Section TerminationClaim.
Context {K : Type}.
Variable P : platform.
Variable kern : kernel K.

Local Open Scope Z_scope.

(** C2.  Against a kernel whose required size [R] is the same on every
    attempt (the session buffer absent or of positive length, and
    [R + increment] and the first buffer length within [int]) the retry
    loop of [sigar_net_interface_list_get] terminates: some number [n] of
    rounds, at most one more than the increments needed to take the buffer
    beyond [R], suffices as fuel for the loop and for the whole call.  The
    [i]-th round offers the first buffer length plus [i] increments, so the
    buffer grows by [sizeof(struct ifreq) * SIGAR_NET_IFLIST_MAX] on every
    retry, the sizes attempted are pairwise distinct and the retries,
    [n - 1], are fewer than the distinct sizes attempted; and a round whose
    reply repeats the length seen last never continues. *)
Theorem sigar_net_interface_list_get_terminates
    (R sock : Z) (s : sigar_t) (w : world K) (l0 : sigar_list cstr) :
  fixed_requirement kern R -> session_ok s ->
  first_buflen P s <= INT_MAX -> R + ifconf_increment P <= INT_MAX ->
  (exists n res,
     (1 <= n <=
        S (Z.to_nat ((R - first_buflen P s) / ifconf_increment P + 1)))%nat /\
     (forall fuel, (n <= fuel)%nat ->
        ifconf_loop P kern fuel sock 0 s w = Done res /\
        ifconf_rounds P kern fuel sock 0 s w =
          ifconf_rounds P kern n sock 0 s w) /\
     length (ifconf_rounds P kern n sock 0 s w) = n /\
     (forall i rd,
        ifconf_rounds P kern n sock 0 s w !! i = Some rd ->
        rd_buflen rd =
          first_buflen P s + Z.of_nat i * ifconf_increment P) /\
     NoDup (rd_buflen <$> ifconf_rounds P kern n sock 0 s w) /\
     (n - 1 < length (rd_buflen <$> ifconf_rounds P kern n sock 0 s w))%nat /\
     (forall i rd ll,
        ifconf_rounds P kern n sock 0 s w !! i = Some rd ->
        ic_len (rd_reply rd) = rd_lastlen rd ->
        rd_exit rd <> LoopContinue ll)) /\
  (exists n,
     (n <= S (Z.to_nat ((R - first_buflen P s) / ifconf_increment P + 1)))%nat
     /\
     forall fuel, (n <= fuel)%nat ->
       exists r, sigar_net_interface_list_get P kern fuel s w l0 = Done r).
Proof.
  intros Hfix Hs Hmax HRmax.
  pose proof (ifconf_increment_pos P) as Hinc.
  split.
  - destruct (ifconf_run_terminates P kern R
                (Z.to_nat ((R - first_buflen P s) / ifconf_increment P + 1))
                sock 0 s w Hfix Hs Hmax HRmax
                (increments_beyond P R (first_buflen P s)))
      as (n & res & Hn & Hrun & Hlen & Hbuf).
    exists n, res.
    split; [exact Hn |]. split; [exact Hrun |]. split; [exact Hlen |].
    split; [exact Hbuf |]. split; [| split].
    + (* pairwise distinct sizes *)
      apply NoDup_alt. intros i j x Hi Hj.
      apply list_lookup_fmap_Some in Hi as (rdi & -> & Hi).
      apply list_lookup_fmap_Some in Hj as (rdj & Hx & Hj).
      rewrite (Hbuf i rdi Hi), (Hbuf j rdj Hj) in Hx. nia.
    + rewrite length_fmap, Hlen. lia.
    + intros i rd ll. apply ifconf_rounds_same_length.
  - (* the whole call *)
    destruct (k_socket kern (w_kernel w)) as [[fd e] k'] eqn:Esock.
    set (w0 := World k' e (fd :: w_fds w) (w_log w ++ [EvSocket fd])
                     (w_mem w)).
    destruct (ifconf_run_terminates P kern R
                (Z.to_nat ((R - first_buflen P s) / ifconf_increment P + 1))
                fd 0 s w0 Hfix Hs Hmax HRmax
                (increments_beyond P R (first_buflen P s)))
      as (n & [[s1 w1] res] & Hn & Hrun & _).
    exists n. split; [lia |].
    intros fuel Hfuel. rewrite sigar_net_interface_list_get_eq.
    unfold sys_socket. rewrite Esock. simpl.
    destruct (fd <? 0); [eexists; reflexivity |].
    destruct (Hrun fuel Hfuel) as [Eloop _]. fold w0. rewrite Eloop.
    destruct res as [st | ifc]; [eexists; reflexivity |].
    destruct (sigar_net_interface_list_get_accept P ifc (w_mem w1))
      as (l1 & m2 & cs & Ecopy & _).
    rewrite Ecopy. simpl. eexists; reflexivity.
Qed.
End TerminationClaim.

(** A kernel that needs 1000 bytes, from the session [sigar_open]
    leaves. *)
Lemma sigar_net_interface_list_get_terminates_linux :
  (exists n,
     (n <= S (Z.to_nat ((1000 - first_buflen linux sigar0)
                        / ifconf_increment linux + 1)))%nat /\
     forall fuel, (n <= fuel)%nat ->
       exists r, sigar_net_interface_list_get linux (need_kernel 1000) fuel
                   sigar0 (world0 tt) (SigarList 0 0 None []) = Done r).
Proof.
  apply (sigar_net_interface_list_get_terminates linux (need_kernel 1000)
           1000 3 sigar0 (world0 tt) (SigarList 0 0 None [])).
  - apply need_kernel_fixed. lia.
  - apply sigar0_ok.
  - vm_compute. discriminate.
  - vm_compute. discriminate.
Defined.

(** ** Descriptors and the configuration of one interface *)

Section DescriptorFacts.
Context {K : Type}.
Variable P : platform.
Variable kern : kernel K.

Local Open Scope Z_scope.

Lemma sys_socket_spec (w w0 : world K) (fd : Z) :
  sys_socket kern w = (fd, w0) ->
  w_log w0 = w_log w ++ [EvSocket fd] /\
  w_fds w0 = (if fd <? 0 then w_fds w else fd :: w_fds w).
Proof.
  unfold sys_socket.
  destruct (k_socket kern (w_kernel w)) as [[fd' e] k'].
  intros [= <- <-]. simpl. split; reflexivity.
Qed.

Lemma sys_ifreq_spec (fd : Z) (req : ioctl_req) (nm : string)
    (w w1 : world K) (r : ifreq_reply) :
  sys_ifreq kern fd req nm w = (r, w1) ->
  w_log w1 = w_log w ++ [EvIfreq fd req nm] /\ w_fds w1 = w_fds w.
Proof.
  unfold sys_ifreq.
  destruct (k_ifreq kern (w_kernel w) fd req nm) as [r' k'].
  intros [= <- <-]. simpl. split; reflexivity.
Qed.

Lemma remove_fd_head (fd : Z) (fds : list Z) :
  remove_fd fd (fd :: fds) = fds.
Proof. simpl. rewrite Z.eqb_refl. reflexivity. Qed.

Ltac step_ifreq H :=
  match type of H with
  | context [sys_ifreq kern ?fd ?req ?nm ?w] =>
      let r := fresh "r" in
      let w' := fresh "w" in
      let E := fresh "E" in
      let Hlog := fresh "Hlog" in
      let Hfds := fresh "Hfds" in
      destruct (sys_ifreq kern fd req nm w) as [r w'] eqn:E;
      destruct (sys_ifreq_spec _ _ _ _ _ _ E) as [Hlog Hfds]
  end.

(** [sigar_net_interface_config_get], all paths at once: the descriptors
    open afterwards are those open before; and a configuration whose flags
    carry the loopback bit comes from the path that returns [SIGAR_OK],
    mirrors the address, zeroes the broadcast address, stores the null
    hardware address and issues no [SIOCGIFHWADDR]. *)
Lemma sigar_net_interface_config_get_paths (name : string) (w w' : world K)
    (st : Z) (c : sigar_net_interface_config_t) :
  sigar_net_interface_config_get P kern name w = (st, c, w') ->
  w_fds w' = w_fds w /\
  (Z.land (cfg_flags c) (IFF_LOOPBACK P) <> 0 ->
   st = SIGAR_OK P /\
   cfg_destination c = cfg_address c /\
   cfg_broadcast c = 0 /\
   cfg_hwaddr c = SIGAR_NULL_HWADDR P /\
   exists evs,
     w_log w' = w_log w ++ evs /\
     forall fd req nm, In (EvIfreq fd req nm) evs -> req <> SIOCGIFHWADDR).
Proof.
  unfold sigar_net_interface_config_get.
  destruct (sys_socket kern w) as [sock w0] eqn:Es.
  destruct (sys_socket_spec _ _ _ Es) as [Hlog0 Hfds0].
  destruct (sock <? 0) eqn:Esock.
  { intros [= <- <- <-]. split; [exact Hfds0 |].
    simpl. intros H; contradiction H; reflexivity. }
  intros H.
  step_ifreq H.
  destruct (negb (ir_ret r =? 0)).
  { injection H as <- <- <-. simpl.
    split; [rewrite Hfds, Hfds0; apply remove_fd_head |].
    intros H; contradiction H; reflexivity. }
  step_ifreq H. step_ifreq H.
  destruct (negb (ir_ret r1 =? 0)).
  { injection H as <- <- <-. simpl.
    split; [rewrite Hfds2, Hfds1, Hfds, Hfds0; apply remove_fd_head |].
    intros H; contradiction H; reflexivity. }
  set (flags := if negb (Z.land (to_u64 (ir_val r1)) (IFF_MULTICAST P) =? 0)
                then _ else _) in H.
  destruct (negb (Z.land flags (IFF_LOOPBACK P) =? 0)) eqn:Eloop.
  - (* loopback *)
    step_ifreq H. step_ifreq H.
    injection H as <- <- <-. simpl.
    split.
    + rewrite Hfds4, Hfds3, Hfds2, Hfds1, Hfds, Hfds0.
      apply remove_fd_head.
    + intros _. repeat (split; [reflexivity |]).
      rewrite Hlog4, Hlog3, Hlog2, Hlog1, Hlog, Hlog0.
      rewrite <- !app_assoc. eexists. split; [reflexivity |].
      simpl. intros fd req nm Hin.
      repeat (destruct Hin as [Hin | Hin]; [inversion Hin; discriminate |]).
      contradiction.
  - (* not loopback *)
    do 5 step_ifreq H.
    injection H as <- <- <-. simpl.
    split.
    + rewrite Hfds7, Hfds6, Hfds5, Hfds4, Hfds3, Hfds2, Hfds1, Hfds, Hfds0.
      apply remove_fd_head.
    + intros Hbit. exfalso. apply Hbit.
      apply negb_false_iff in Eloop. apply Z.eqb_eq in Eloop. exact Eloop.
Qed.

(** C7.  A configuration [sigar_net_interface_config_get] produces with
    the loopback bit in its flags comes from a successful call and has
    destination equal to address, broadcast 0 and the null hardware
    address; the system calls the call made include no hardware-address
    request. *)
Theorem sigar_net_interface_config_get_loopback (name : string)
    (w w' : world K) (st : Z) (c : sigar_net_interface_config_t) :
  sigar_net_interface_config_get P kern name w = (st, c, w') ->
  Z.land (cfg_flags c) (IFF_LOOPBACK P) <> 0 ->
  st = SIGAR_OK P /\
  cfg_destination c = cfg_address c /\
  cfg_broadcast c = 0 /\
  cfg_hwaddr c = SIGAR_NULL_HWADDR P /\
  exists evs,
    w_log w' = w_log w ++ evs /\
    forall fd req nm, In (EvIfreq fd req nm) evs -> req <> SIOCGIFHWADDR.
Proof.
  intros Hget Hbit.
  destruct (sigar_net_interface_config_get_paths name w w' st c Hget)
    as [_ Hloop].
  apply Hloop. exact Hbit.
Qed.

(** Every path of [sigar_net_interface_config_get] closes the socket it
    opened. *)
Lemma sigar_net_interface_config_get_closes (name : string) (w : world K) :
  w_fds (sigar_net_interface_config_get P kern name w).2 = w_fds w.
Proof.
  destruct (sigar_net_interface_config_get P kern name w)
    as [[st c] w'] eqn:E.
  apply (sigar_net_interface_config_get_paths name w w' st c E).
Qed.
End DescriptorFacts.

(** The interface [lo] of [loopback_kernel]. *)
Lemma sigar_net_interface_config_get_loopback_lo :
  lo_config.1.1 = SIGAR_OK linux /\
  cfg_destination lo_config.1.2 = cfg_address lo_config.1.2 /\
  cfg_broadcast lo_config.1.2 = 0%Z /\
  cfg_hwaddr lo_config.1.2 = SIGAR_NULL_HWADDR linux /\
  exists evs,
    w_log lo_config.2 = w_log (world0 0) ++ evs /\
    forall fd req nm, In (EvIfreq fd req nm) evs -> req <> SIOCGIFHWADDR.
Proof.
  apply (sigar_net_interface_config_get_loopback linux loopback_kernel
           "lo" (world0 0) lo_config.2 lo_config.1.1 lo_config.1.2).
  - vm_compute. reflexivity.
  - vm_compute. discriminate.
Defined.

Example lo_config_value :
  lo_config.1.1 = 0%Z /\
  lo_config.1.2 =
    IfConfig "lo" "00:00:00:00:00:00" 16777343 16777343 0 255 73 65536 1 /\
  w_fds lo_config.2 = [].
Proof. vm_compute. repeat split. Qed.

Example sigar_hwaddr_format_sample :
  sigar_hwaddr_format [1; 171; 0; 255; 16; 10]%Z = "01:AB:00:FF:10:0A"%string.
Proof. reflexivity. Qed.

Example sigar_inet_ntoa_sample :
  sigar_inet_ntoa 83886090 = "10.0.0.5"%string.
Proof. reflexivity. Qed.

Section DescriptorLeak.
Context {K : Type}.
Variable P : platform.
Variable kern : kernel K.

Local Open Scope Z_scope.

Lemma ifconf_iter_fds (sock lastlen : Z) (s : sigar_t) (w : world K) :
  w_fds (ifconf_iter P kern sock lastlen s w).1.1.2 = w_fds w.
Proof.
  unfold ifconf_iter, sys_ifconf.
  destruct (negb (bool_decide (is_Some (ifconf_buf s))) ||
            negb (lastlen =? 0)); simpl.
  - destruct (k_ifconf kern (w_kernel w) sock _) as [r k']. simpl.
    destruct ((ic_ret r <? 0) && _); [reflexivity |].
    destruct (ic_len r <? _); [reflexivity |].
    destruct (negb (ic_len r =? lastlen)); reflexivity.
  - destruct (k_ifconf kern (w_kernel w) sock _) as [r k']. simpl.
    destruct ((ic_ret r <? 0) && _); [reflexivity |].
    destruct (ic_len r <? _); [reflexivity |].
    destruct (negb (ic_len r =? lastlen)); reflexivity.
Qed.

Lemma ifconf_loop_fds (fuel : nat) (sock lastlen : Z) (s : sigar_t)
    (w : world K) (s' : sigar_t) (w' : world K) (res : Z + ifconf_reply) :
  ifconf_loop P kern fuel sock lastlen s w = Done (s', w', res) ->
  w_fds w' = w_fds w.
Proof.
  revert lastlen s w. induction fuel as [| fuel IH]; intros lastlen s w.
  - discriminate.
  - rewrite ifconf_loop_S.
    pose proof (ifconf_iter_fds sock lastlen s w) as Hfds.
    destruct (ifconf_iter P kern sock lastlen s w)
      as [[[s1 w1] ifc] e]. simpl in Hfds.
    destruct e as [st | | ll].
    + intros [= <- <- <-]. exact Hfds.
    + intros [= <- <- <-]. exact Hfds.
    + intros Hloop. rewrite (IH _ _ _ Hloop). exact Hfds.
Qed.

(** Where [sigar_net_interface_list_get] leaves the descriptors: closed
    when the socket could not be opened or a reply was accepted, still
    open when the call returns from inside the loop. *)
Lemma sigar_net_interface_list_get_fds (fuel : nat) (s : sigar_t)
    (w : world K) (l0 : sigar_list cstr)
    (st : Z) (l : sigar_list cstr) (s' : sigar_t) (w' : world K) :
  sigar_net_interface_list_get P kern fuel s w l0 = Done (st, l, s', w') ->
  w_fds w' = w_fds w \/
  (0 <= (sys_socket kern w).1 /\
   w_fds w' = (sys_socket kern w).1 :: w_fds w /\
   ifconf_loop P kern fuel (sys_socket kern w).1 0 s (sys_socket kern w).2
     = Done (s', w', inl st)).
Proof.
  rewrite sigar_net_interface_list_get_eq.
  destruct (sys_socket kern w) as [sock w0] eqn:Es. simpl.
  destruct (sys_socket_spec kern _ _ _ Es) as [_ Hfds0].
  destruct (sock <? 0) eqn:Esock.
  - intros [= _ _ _ <-]. left. exact Hfds0.
  - apply Z.ltb_ge in Esock.
    destruct (ifconf_loop P kern fuel sock 0 s w0)
      as [[[s1 w1] [st1 | ifc]] | |] eqn:Eloop; try discriminate.
    + intros [= <- _ <- <-]. right.
      rewrite (ifconf_loop_fds _ _ _ _ _ _ _ _ Eloop), Hfds0.
      split; [exact Esock |]. split; reflexivity.
    + destruct (ifconf_copy_names _ _ _) as [[l1 m2] | |];
        simpl; try discriminate.
      intros [= _ _ _ <-]. left. simpl.
      rewrite (ifconf_loop_fds _ _ _ _ _ _ _ _ Eloop), Hfds0.
      apply remove_fd_head.
Qed.
End DescriptorLeak.

(** C4 fails on the code.  [sigar_net_interface_config_get] closes its
    socket on every path ([sigar_net_interface_config_get_closes]), but
    [sigar_net_interface_list_get] does not: when [SIOCGIFCONF] fails with
    an error other than [EINVAL] -- here [ENOMEM], 12 -- the call returns
    that error from inside the loop and descriptor 3, opened by the call,
    is still open; no [close] was issued. *)
Theorem sigar_net_interface_list_get_leaks_socket :
  match sigar_net_interface_list_get linux failing_kernel 1 sigar0
          (world0 0%nat) (SigarList 0 0 None []) with
  | Done (st, _, _, w') =>
      st = 12%Z /\ w_fds (world0 0%nat) = [] /\ w_fds w' = [3%Z] /\
      w_log w' = [EvSocket 3; EvIfconf 3 800]
  | _ => False
  end.
Proof.
  vm_compute. repeat split.
Qed.

(** ** FQDN resolution *)

Lemma IS_FQDN_dot (a : string) :
  IS_FQDN a = true <-> In "."%char (list_ascii_of_string a).
Proof.
  unfold IS_FQDN. induction a as [| x a IH]; simpl.
  - split; [discriminate | contradiction].
  - destruct (Ascii.eqb x ".") eqn:E.
    + apply Ascii.eqb_eq in E. subst x. split; [auto | reflexivity].
    + apply Ascii.eqb_neq in E. rewrite IH. split; [auto |].
      intros [Hx | Hin]; [contradiction | exact Hin].
Qed.

Lemma strnEQ_prefix (h a : string) :
  strnEQ a h (strlen h) = true <-> exists rest, a = (h +:+ rest)%string.
Proof.
  unfold strnEQ, strlen. revert a.
  induction h as [| y h IH]; intros a; simpl.
  - split; [intros _; exists a; reflexivity | reflexivity].
  - destruct a as [| x a].
    + split; [discriminate | intros [rest Hr]; discriminate].
    + destruct (Ascii.eqb x y) eqn:E.
      * apply Ascii.eqb_eq in E. subst y. rewrite IH. split.
        -- intros [rest ->]. exists rest. reflexivity.
        -- intros [rest [= ->]]. exists rest. reflexivity.
      * apply Ascii.eqb_neq in E. split; [discriminate |].
        intros [rest [= Hx _]]. contradiction.
Qed.

(** The rule of [H_ALIAS_MATCH]: the alias contains a dot and starts with
    the name it is matched against. *)
Lemma H_ALIAS_MATCH_iff (alias name : string) :
  H_ALIAS_MATCH alias name = true <->
  In "."%char (list_ascii_of_string alias) /\
  exists rest, alias = (name +:+ rest)%string.
Proof.
  unfold H_ALIAS_MATCH. rewrite andb_true_iff, IS_FQDN_dot, strnEQ_prefix.
  reflexivity.
Qed.

(** [alias_scan] picks the first alias of the list that matches. *)
Lemma alias_scan_first (al : list string) (h a : string) :
  alias_scan al h = Some a <->
  exists pre post,
    al = pre ++ a :: post /\ H_ALIAS_MATCH a h = true /\
    forall x, In x pre -> H_ALIAS_MATCH x h = false.
Proof.
  induction al as [| x al IH]; simpl.
  - split; [discriminate |].
    intros (pre & post & Hal & _). destruct pre; discriminate.
  - destruct (H_ALIAS_MATCH x h) eqn:E.
    + split.
      * intros [= ->]. exists [], al. simpl.
        split; [reflexivity |]. split; [exact E | contradiction].
      * intros (pre & post & Hal & Hm & Hpre).
        destruct pre as [| y pre]; simpl in Hal.
        -- injection Hal as -> _. reflexivity.
        -- injection Hal as -> _.
           rewrite (Hpre y (or_introl eq_refl)) in E. discriminate.
    + rewrite IH. split.
      * intros (pre & post & -> & Hm & Hpre).
        exists (x :: pre), post. simpl.
        split; [reflexivity |]. split; [exact Hm |].
        intros y [<- | Hy]; [exact E | apply Hpre; exact Hy].
      * intros (pre & post & Hal & Hm & Hpre).
        destruct pre as [| y pre]; simpl in Hal.
        -- injection Hal as -> _. rewrite Hm in E. discriminate.
        -- injection Hal as -> ->. exists pre, post.
           split; [reflexivity |]. split; [exact Hm |].
           intros z Hz. apply Hpre. right. exact Hz.
Qed.

Section FqdnClaims.
Context {K : Type}.
Variable P : platform.
Variable kern : kernel K.
Variable R : resolver.

(** C5 (as amended).  When forward resolution succeeds and its canonical
    name [h_name] is not dotted, an alias is accepted iff it contains a dot
    and starts with that canonical name -- the name the resolver returned,
    not the short hostname [gethostname] gave; the first such alias in list
    order is copied into the caller's buffer (by [SIGAR_STRNCPY], bounded
    by [namelen]) and the call returns [SIGAR_OK].  In particular
    ["host.internal.example.com"] matches ["host"] and
    ["otherhost.example.com"] does not. *)
Theorem sigar_fqdn_get_alias (fuel : nat) (s : sigar_t) (w : world K)
    (namelen e : Z) (name : string) (p : hostent) (al : list string) :
  gethostname R (namelen - 1) = (0%Z, e, name) ->
  gethostbyname R name = Some p ->
  IS_FQDN (h_name p) = false ->
  h_aliases p = Some al ->
  (forall a,
     alias_scan al (h_name p) = Some a ->
     sigar_fqdn_get P kern R fuel s w namelen
       = Done (SIGAR_OK P, SIGAR_STRNCPY P a namelen, s, w)) /\
  (forall a,
     alias_scan al (h_name p) = Some a <->
     exists pre post,
       al = pre ++ a :: post /\
       (In "."%char (list_ascii_of_string a) /\
        exists rest, a = (h_name p +:+ rest)%string) /\
       forall x, In x pre ->
         ~ (In "."%char (list_ascii_of_string x) /\
            exists rest, x = (h_name p +:+ rest)%string)) /\
  H_ALIAS_MATCH "host.internal.example.com" "host" = true /\
  H_ALIAS_MATCH "otherhost.example.com" "host" = false.
Proof.
  intros Hname Hp Hdot Hal.
  split; [| split; [| split; reflexivity]].
  - intros a Hscan. unfold sigar_fqdn_get.
    rewrite Hname. simpl. rewrite Hp, Hdot, Hal, Hscan. reflexivity.
  - intros a. rewrite alias_scan_first. split.
    + intros (pre & post & Hl & Hm & Hpre). exists pre, post.
      split; [exact Hl |]. split; [apply H_ALIAS_MATCH_iff; exact Hm |].
      intros x Hx Hmx. apply H_ALIAS_MATCH_iff in Hmx.
      rewrite (Hpre x Hx) in Hmx. discriminate.
    + intros (pre & post & Hl & Hm & Hpre). exists pre, post.
      split; [exact Hl |]. split; [apply H_ALIAS_MATCH_iff; exact Hm |].
      intros x Hx. destruct (H_ALIAS_MATCH x (h_name p)) eqn:E;
        [| reflexivity].
      exfalso. apply (Hpre x Hx). apply H_ALIAS_MATCH_iff. exact E.
Qed.
End FqdnClaims.

(** The second alias of [alias_resolver] is the first that matches. *)
Lemma sigar_fqdn_get_alias_host :
  sigar_fqdn_get linux loopback_kernel alias_resolver 0 sigar0 (world0 0) 64
    = Done (SIGAR_OK linux,
            SIGAR_STRNCPY linux "host.internal.example.com" 64,
            sigar0, world0 0).
Proof.
  apply (proj1 (sigar_fqdn_get_alias linux loopback_kernel alias_resolver
                  0 sigar0 (world0 0) 64 0 "host"
                  (HostEnt "host"
                     (Some ["otherhost.example.com";
                            "host.internal.example.com"]%string)
                     2 4 (Some []))
                  ["otherhost.example.com";
                   "host.internal.example.com"]%string
                  eq_refl eq_refl eq_refl eq_refl)
               "host.internal.example.com"%string).
  reflexivity.
Defined.

Example sigar_fqdn_get_alias_host_value :
  sigar_fqdn_get linux loopback_kernel alias_resolver 0 sigar0 (world0 0) 64
    = Done (0%Z, "host.internal.example.com"%string, sigar0, world0 0).
Proof. reflexivity. Qed.

(** C5 as stated fails.  The machine is named [host]; the resolver answers
    with the canonical name [localhost] and the aliases [host] and
    [host.internal.example.com].  The second alias is dotted and starts
    with the short hostname, yet it is not accepted: aliases are matched
    against [localhost], in the forward record and in the reverse one, and
    the name comes from the domain stage. *)
Lemma sigar_fqdn_get_alias_of_short_name_rejected :
  (gethostname hosts_resolver 63).2 = "host"%string /\
  (exists p, gethostbyname hosts_resolver "host" = Some p /\
             IS_FQDN (h_name p) = false /\
             h_aliases p = Some ["host"; "host.internal.example.com"]%string) /\
  In "."%char (list_ascii_of_string "host.internal.example.com") /\
  (exists rest, "host.internal.example.com"%string = ("host" +:+ rest)%string) /\
  sigar_fqdn_get linux loopback_kernel hosts_resolver 0 sigar0 (world0 0) 64
    = Done (SIGAR_OK linux, "host.example.org"%string, sigar0, world0 0).
Proof.
  split; [reflexivity |].
  split; [eexists; repeat split; reflexivity |].
  split; [apply IS_FQDN_dot; reflexivity |].
  split; [exists ".internal.example.com"%string; reflexivity |].
  reflexivity.
Qed.

Section FqdnFallback.
Context {K : Type}.
Variable P : platform.
Variable kern : kernel K.
Variable R : resolver.

Lemma sigar_net_interface_list_get_list_ok (fuel : nat) (s : sigar_t)
    (w : world K) (l0 : sigar_list cstr)
    (st : Z) (l : sigar_list cstr) (s' : sigar_t) (w' : world K) :
  number l0 <= length (cells l0) ->
  sigar_net_interface_list_get P kern fuel s w l0 = Done (st, l, s', w') ->
  number l <= length (cells l).
Proof.
  intros Hl0. rewrite sigar_net_interface_list_get_eq.
  destruct (_ <? 0)%Z.
  - intros [= _ <- _ _]. exact Hl0.
  - destruct (ifconf_loop P kern fuel _ 0 s _)
      as [[[s1 w1] [st1 | ifc]] | |]; try discriminate.
    + intros [= _ <- _ _]. exact Hl0.
    + destruct (sigar_net_interface_list_get_accept P ifc (w_mem w1))
        as (l1 & m2 & cs & Ecopy & _ & Hnum & _).
      rewrite Ecopy. simpl. intros [= _ <- _ _]. exact Hnum.
Qed.

(** With no usable interface the scan of [fqdn_ip_get] leaves the name
    alone. *)
Lemma fqdn_ip_scan_nothing (es : list (option cstr)) (w : world K)
    (name : string) :
  no_usable_interface P kern es w ->
  exists w', fqdn_ip_scan P kern es w name = Done (name, w').
Proof.
  revert w. induction es as [| [c |] es IH]; intros w; simpl.
  - intros _. exists w. reflexivity.
  - destruct (sigar_net_interface_config_get P kern (cs_val c) w)
      as [[st cfg] w1]. simpl.
    intros [Hbad Hrest].
    assert (E : negb (st =? SIGAR_OK P)%Z ||
                negb (Z.land (cfg_flags cfg) (SIGAR_IFF_LOOPBACK P) =? 0)%Z
                = true).
    { apply orb_true_iff. destruct Hbad as [Hst | Hlo].
      - left. apply negb_true_iff. apply Z.eqb_neq. exact Hst.
      - right. apply negb_true_iff. apply Z.eqb_neq. exact Hlo. }
    rewrite E. apply IH. exact Hrest.
  - contradiction.
Qed.

(** [fqdn_ip_get] when the fallback finds nothing. *)
Lemma fqdn_ip_get_nothing (fuel : nat) (s : sigar_t) (w : world K)
    (name : string) :
  (exists st l s1 w1,
     sigar_net_interface_list_get P kern fuel s w (SigarList 0 0 None [])
       = Done (st, l, s1, w1) /\
     (st <> SIGAR_OK P \/
      no_usable_interface P kern (sigar_list_read l) w1)) ->
  exists st s' w',
    fqdn_ip_get P kern fuel s w name = Done (st, name, s', w').
Proof.
  intros (st & l & s1 & w1 & Hget & Hcase).
  unfold fqdn_ip_get. rewrite Hget. simpl.
  destruct (st =? SIGAR_OK P)%Z eqn:Est; simpl.
  - destruct Hcase as [Hst | Hnone].
    + apply Z.eqb_eq in Est. contradiction.
    + pose proof (sigar_net_interface_list_get_list_ok
                    fuel s w (SigarList 0 0 None []) st l s1 w1
                    (Nat.le_0_l 0) Hget) as Hnum.
      destruct (decide (number l <= length (cells l))) as [_ | Hbad];
        [| contradiction].
      destruct (fqdn_ip_scan_nothing _ _ name Hnone) as [w2 Escan].
      rewrite Escan. simpl.
      destruct (sigar_net_interface_list_destroy l (w_mem w2)) as [l' m'].
      eexists _, _, _. reflexivity.
  - eexists _, _, _. reflexivity.
Qed.

(** C10.  If [gethostname] succeeds with a name without a dot,
    [gethostbyname] fails, and the IP fallback finds nothing -- the
    enumeration returns an error, or it returns a list none of whose
    interfaces yields both a successful configuration lookup and a
    non-loopback flag -- then [sigar_fqdn_get] returns [SIGAR_OK] and the
    caller's buffer holds the short hostname, unmodified. *)
Theorem sigar_fqdn_get_keeps_short_name (fuel : nat) (s : sigar_t)
    (w : world K) (namelen e : Z) (name : string) :
  gethostname R (namelen - 1) = (0%Z, e, name) ->
  gethostbyname R name = None ->
  IS_FQDN name = false ->
  (exists st l s1 w1,
     sigar_net_interface_list_get P kern fuel s w (SigarList 0 0 None [])
       = Done (st, l, s1, w1) /\
     (st <> SIGAR_OK P \/
      no_usable_interface P kern (sigar_list_read l) w1)) ->
  exists s' w',
    sigar_fqdn_get P kern R fuel s w namelen
      = Done (SIGAR_OK P, name, s', w').
Proof.
  intros Hname Hp Hdot Hnothing.
  destruct (fqdn_ip_get_nothing fuel s w name Hnothing)
    as (st & s' & w' & Eip).
  exists s', w'. unfold sigar_fqdn_get.
  rewrite Hname. simpl. rewrite Hp, Hdot. simpl.
  rewrite Eip. reflexivity.
Qed.

(** Whenever [sigar_fqdn_get] returns, its status is [errno] of a failed
    [gethostname], or [SIGAR_OK]. *)
Lemma sigar_fqdn_get_status (fuel : nat) (s : sigar_t) (w : world K)
    (namelen st : Z) (name : string) (s' : sigar_t) (w' : world K) :
  sigar_fqdn_get P kern R fuel s w namelen = Done (st, name, s', w') ->
  ((gethostname R (namelen - 1)).1.1 <> 0%Z /\
   st = (gethostname R (namelen - 1)).1.2) \/
  ((gethostname R (namelen - 1)).1.1 = 0%Z /\ st = SIGAR_OK P).
Proof.
  unfold sigar_fqdn_get.
  destruct (gethostname R (namelen - 1)) as [[ret e] nm]. simpl.
  destruct (ret =? 0)%Z eqn:E; simpl.
  2:{ intros [= <- _ _ _]. left.
      split; [apply Z.eqb_neq; exact E | reflexivity]. }
  apply Z.eqb_eq in E. intros H. right. split; [exact E |].
  revert H. unfold mbind, run_bind.
  repeat match goal with
         | |- context [match ?x with _ => _ end] => destruct x eqn:?; simpl
         end;
    try discriminate; intros [= <- _ _ _]; reflexivity.
Qed.
End FqdnFallback.

(** C6 fails on the code.  [gethostname] succeeds and [gethostbyname]
    resolves the name to an address, but the address has no reverse
    record: [gethostbyaddr] returns a null pointer, which the loop over
    [h_addr_list] dereferences ([q->h_name]) without the test the forward
    lookup gets.  The call does not return [SIGAR_OK]: it faults. *)
Theorem sigar_fqdn_get_faults_without_reverse_record {K : Type}
    (P : platform) (kern : kernel K) (fuel : nat) (s : sigar_t)
    (w : world K) (namelen : Z) :
  (gethostname unreversed_resolver (namelen - 1)).1.1 = 0%Z /\
  sigar_fqdn_get P kern unreversed_resolver fuel s w namelen = Fault.
Proof.
  split; [reflexivity |].
  unfold sigar_fqdn_get. simpl. reflexivity.
Qed.

(** The name does not resolve and the only interface is [lo]: the short
    hostname stays. *)
Lemma sigar_fqdn_get_keeps_short_name_lo :
  exists s' w',
    sigar_fqdn_get linux loopback_kernel lonely_resolver 1 sigar0
      (world0 0) 64
      = Done (SIGAR_OK linux, "host"%string, s', w').
Proof.
  apply (sigar_fqdn_get_keeps_short_name linux loopback_kernel
           lonely_resolver 1 sigar0 (world0 0) 64 0 "host");
    try reflexivity.
  eexists _, _, _, _. split; [vm_compute; reflexivity |].
  right. vm_compute. split; [| exact I].
  right. discriminate.
Defined.

(** ** The model at work *)

(** A kernel that needs 2000 bytes is asked three times, with 800, 1600
    and 2400 bytes, and the 50 records it returns become the list. *)
Example need_kernel_2000_rounds :
  rd_buflen <$> ifconf_rounds linux (need_kernel 2000) 5 3 0 sigar0 (world0 tt)
    = [800; 1600; 2400]%Z /\
  match sigar_net_interface_list_get linux (need_kernel 2000) 5 sigar0
          (world0 tt) (SigarList 0 0 None []) with
  | Done (st, l, s', w') =>
      st = 0%Z /\ number l = 50 /\ size l = 2000 /\
      ifconf_len s' = 2400%Z /\ w_fds w' = []
  | _ => False
  end.
Proof. vm_compute. repeat split. Qed.

(** The last resort of the resolver: the address of the first interface
    that is not loopback. *)
Example sigar_fqdn_get_ip_fallback :
  match sigar_fqdn_get linux eth_kernel lonely_resolver 1 sigar0
          (world0 0) 64 with
  | Done (st, name, _, w') =>
      st = 0%Z /\ name = "10.0.0.5"%string /\ w_fds w' = []
  | _ => False
  end.
Proof. vm_compute. repeat split. Qed.

Example eth0_config_value :
  (sigar_net_interface_config_get linux eth_kernel "eth0" (world0 0)).1 =
    (0%Z, IfConfig "eth0" "00:16:3E:01:AB:FF" 83886090 0 4278190090
                   16777215 6211 1500 1).
Proof. vm_compute. reflexivity. Qed.

(** ** Formatting of sizes *)

Lemma forallb_Z_range (f : Z -> bool) (n : nat) :
  forallb f (map Z.of_nat (seq 0 n)) = true ->
  forall z, (0 <= z < Z.of_nat n)%Z -> f z = true.
Proof.
  intros H z Hz. rewrite forallb_forall in H. apply H.
  apply in_map_iff. exists (Z.to_nat z).
  split; [lia | apply in_seq; lia].
Qed.

Lemma string_length_app (a b : string) :
  String.length (a +:+ b) = String.length a + String.length b.
Proof.
  induction a as [| c a IH]; simpl; [reflexivity | rewrite IH; reflexivity].
Qed.

Lemma string_app_assoc (a b c : string) :
  ((a +:+ b) +:+ c = a +:+ (b +:+ c))%string.
Proof.
  induction a as [| x a IH]; [reflexivity |].
  change (String x ((a +:+ b) +:+ c) = String x (a +:+ (b +:+ c)))%string.
  rewrite IH. reflexivity.
Qed.

Lemma fmt_d_digit (n : Z) :
  (0 <= n < 10)%Z -> String.length (fmt_d n) = 1.
Proof.
  intros Hn. apply Nat.eqb_eq.
  apply (forallb_Z_range (fun z => String.length (fmt_d z) =? 1) 10);
    [vm_compute; reflexivity | exact Hn].
Qed.

Lemma fmt_3d_width (n : Z) :
  (0 <= n < 1000)%Z -> String.length (fmt_3d n) = 3.
Proof.
  intros Hn. apply Nat.eqb_eq.
  apply (forallb_Z_range (fun z => String.length (fmt_3d z) =? 3) 1000);
    [vm_compute; reflexivity | exact Hn].
Qed.

(** The loop ends before [o] leaves the units [us] as long as [size] is
    below [973 * 1024 ^ length us], and what it writes has 4 characters,
    the last one the unit. *)
Lemma format_size_loop_fits (us rest : list ascii) (size : Z) :
  (973 <= size < 973 * 1024 ^ Z.of_nat (length us))%Z ->
  exists body o,
    format_size_loop (us ++ rest) size = Some (body +:+ String o EmptyString) /\
    String.length body = 3 /\ In o us.
Proof.
  revert size. induction us as [| o us IH]; intros size Hsize.
  - simpl in Hsize. lia.
  - change (length (o :: us)) with (S (length us)) in Hsize.
    rewrite Nat2Z.inj_succ, Z.pow_succ_r in Hsize by lia.
    simpl format_size_loop.
    rewrite Z.shiftr_div_pow2 by lia.
    change (2 ^ 10)%Z with 1024%Z.
    replace (Z.land size 1023) with (size mod 1024)%Z
      by (symmetry; apply (Z.land_ones size 10); lia).
    pose proof (Z.div_mod size 1024 ltac:(lia)) as Hdm.
    pose proof (Z.mod_pos_bound size 1024 ltac:(lia)) as Hmod.
    set (q := (size / 1024)%Z) in *. set (r := (size mod 1024)%Z) in *.
    assert (Hq : (0 <= q < 973 * 1024 ^ Z.of_nat (length us))%Z) by lia.
    destruct (973 <=? q)%Z eqn:Ebig.
    + apply Z.leb_le in Ebig.
      destruct (IH q ltac:(lia)) as (body & o' & E & Hlen & Hin).
      exists body, o'. split; [exact E |]. split; [exact Hlen |].
      right. exact Hin.
    + apply Z.leb_gt in Ebig.
      destruct ((q <? 9)%Z || ((q =? 9)%Z && (r <? 973)%Z)) eqn:Esmall.
      * assert (Hr : (0 <= (r * 5 + 256) / 512 <= 10)%Z).
        { split; [apply Z.div_pos; lia |].
          apply Z.lt_succ_r. apply Z.div_lt_upper_bound; lia. }
        destruct (10 <=? (r * 5 + 256) / 512)%Z eqn:Eup.
        -- (* rounded up to the next unit digit *)
           apply Z.leb_le in Eup.
           assert (Hq9 : (q < 9)%Z).
           { apply orb_true_iff in Esmall as [Hlt | Heq];
               [apply Z.ltb_lt; exact Hlt |].
             apply andb_true_iff in Heq as [_ Hr9]. apply Z.ltb_lt in Hr9.
             assert ((r * 5 + 256) / 512 < 10)%Z
               by (apply Z.div_lt_upper_bound; lia).
             lia. }
           exists (fmt_d (q + 1) +:+ "." +:+ fmt_d 0)%string, o.
           split.
           ++ rewrite !string_app_assoc. reflexivity.
           ++ split; [| left; reflexivity].
              rewrite !string_length_app, !fmt_d_digit by lia. reflexivity.
        -- apply Z.leb_gt in Eup.
           assert (Hq9 : (q <= 9)%Z).
           { apply orb_true_iff in Esmall as [Hlt | Heq];
               [apply Z.ltb_lt in Hlt; lia |].
             apply andb_true_iff in Heq as [Hq9 _].
             apply Z.eqb_eq in Hq9. lia. }
           exists (fmt_d q +:+ "." +:+ fmt_d ((r * 5 + 256) / 512))%string, o.
           split.
           ++ rewrite !string_app_assoc. reflexivity.
           ++ split; [| left; reflexivity].
              rewrite !string_length_app, !fmt_d_digit by lia. reflexivity.
      * exists (fmt_3d (if (512 <=? r)%Z then (q + 1)%Z else q)), o.
        split; [reflexivity |]. split; [| left; reflexivity].
        apply fmt_3d_width. destruct (512 <=? r)%Z; lia.
Qed.

(** X1.  For every 64-bit [size], [sigar_format_size] returns without
    reading past its table of units; it writes ["-"] for
    [SIGAR_FIELD_NOTIMPL] and otherwise exactly 4 characters (a buffer of
    5 bytes is enough): 3 characters and a space below 973, 3 characters
    and one of the units K, M, G, T, P, E from 973 on. *)
Theorem sigar_format_size_fits (NOTIMPL size : Z) :
  (0 <= size < 2 ^ 64)%Z ->
  exists s,
    sigar_format_size NOTIMPL size = Some s /\
    (size = NOTIMPL -> s = "-"%string) /\
    (size <> NOTIMPL ->
     String.length s = 4 /\
     exists body o,
       s = (body +:+ String o EmptyString)%string /\
       String.length body = 3 /\
       ((size < 973)%Z -> o = " "%char) /\
       ((973 <= size)%Z -> In o ["K"; "M"; "G"; "T"; "P"; "E"]%char)).
Proof.
  intros Hsize. unfold sigar_format_size.
  destruct (size =? NOTIMPL)%Z eqn:En.
  - apply Z.eqb_eq in En. exists "-"%string.
    split; [reflexivity |]. split; [reflexivity | contradiction].
  - apply Z.eqb_neq in En.
    destruct (size <? 973)%Z eqn:Esmall.
    + apply Z.ltb_lt in Esmall. eexists. split; [reflexivity |].
      split; [contradiction |]. intros _.
      split; [rewrite string_length_app, fmt_3d_width by lia; reflexivity |].
      exists (fmt_3d size), " "%char.
      split; [reflexivity |]. split; [apply fmt_3d_width; lia |].
      split; [reflexivity | lia].
    + apply Z.ltb_ge in Esmall.
      destruct (format_size_loop_fits ["K"; "M"; "G"; "T"; "P"; "E"]%char
                  ["000"%char] size) as (body & o & E & Hlen & Hin).
      { simpl. lia. }
      exists (body +:+ String o EmptyString)%string.
      split; [exact E |]. split; [contradiction |]. intros _.
      split; [rewrite string_length_app, Hlen; reflexivity |].
      exists body, o. split; [reflexivity |]. split; [exact Hlen |].
      split; [lia | intros _; exact Hin].
Qed.

(** One and a half kilobytes. *)
Lemma sigar_format_size_fits_1536 :
  exists s,
    sigar_format_size (2 ^ 64 - 1) 1536 = Some s /\
    (1536%Z = (2 ^ 64 - 1)%Z -> s = "-"%string) /\
    (1536%Z <> (2 ^ 64 - 1)%Z ->
     String.length s = 4 /\
     exists body o,
       s = (body +:+ String o EmptyString)%string /\
       String.length body = 3 /\
       ((1536 < 973)%Z -> o = " "%char) /\
       ((973 <= 1536)%Z -> In o ["K"; "M"; "G"; "T"; "P"; "E"]%char)).
Proof.
  apply (sigar_format_size_fits (2 ^ 64 - 1) 1536). lia.
Defined.

Example sigar_format_size_samples :
  sigar_format_size (2 ^ 64 - 1) 1536 = Some "1.5K"%string /\
  sigar_format_size (2 ^ 64 - 1) 972 = Some "972 "%string /\
  sigar_format_size (2 ^ 64 - 1) (2 ^ 64 - 2) = Some " 16E"%string.
Proof. vm_compute. repeat split. Qed.

(** ** Rendering of hardware and IP addresses *)

Lemma hex_digit_value_inv (n : Z) :
  (0 <= n < 16)%Z -> hex_digit_value (hex_digit n) = n.
Proof.
  intros Hn. apply Z.eqb_eq.
  apply (forallb_Z_range
           (fun z => (hex_digit_value (hex_digit z) =? z)%Z) 16);
    [vm_compute; reflexivity | exact Hn].
Qed.

Lemma fmt_02X_app (x : Z) (rest : string) :
  (fmt_02X x +:+ rest)%string =
  String (hex_digit (x / 16)) (String (hex_digit (x mod 16)) rest).
Proof. reflexivity. Qed.

Lemma hex_digits_inj (x y : Z) :
  (0 <= x < 256)%Z -> (0 <= y < 256)%Z ->
  hex_digit (x / 16) = hex_digit (y / 16) ->
  hex_digit (x mod 16) = hex_digit (y mod 16) -> x = y.
Proof.
  intros Hx Hy Hhi Hlo.
  apply (f_equal hex_digit_value) in Hhi, Hlo.
  rewrite !hex_digit_value_inv in Hhi
    by (split; [apply Z.div_pos; lia | apply Z.div_lt_upper_bound; lia]).
  rewrite !hex_digit_value_inv in Hlo by (apply Z.mod_pos_bound; lia).
  rewrite (Z.div_mod x 16), (Z.div_mod y 16) by lia. lia.
Qed.

Lemma land_255 (b : Z) : Z.land b 255 = (b mod 256)%Z.
Proof. apply (Z.land_ones b 8). lia. Qed.

(** X2.  [sigar_hwaddr_format] always writes 17 characters; it reads each
    byte modulo 256, so that a byte stored in a signed [char] and the same
    byte stored unsigned are rendered alike; and two 6-byte addresses with
    the same rendering are the same bytes. *)
Theorem sigar_hwaddr_format_faithful (p q : list Z) :
  String.length (sigar_hwaddr_format p) = 17 /\
  sigar_hwaddr_format ((fun b => b mod 256)%Z <$> p) = sigar_hwaddr_format p /\
  (length p = 6 -> length q = 6 ->
   sigar_hwaddr_format p = sigar_hwaddr_format q ->
   (fun b => b mod 256)%Z <$> p = (fun b => b mod 256)%Z <$> q).
Proof.
  split; [reflexivity |]. split.
  - unfold sigar_hwaddr_format.
    assert (Hnth : forall i,
               Z.land (nth i ((fun b => b mod 256)%Z <$> p) 0%Z) 255 =
               Z.land (nth i p 0%Z) 255).
    { intros i.
      change 0%Z with ((fun b => b mod 256)%Z 0%Z) at 1.
      change (fmap (M:=list)) with (@map Z Z).
      rewrite map_nth, !land_255. apply Z.mod_mod. lia. }
    rewrite !Hnth. reflexivity.
  - intros Hp Hq.
    destruct p as [| p0 [| p1 [| p2 [| p3 [| p4 [| p5 [| ? ?]]]]]]];
      try discriminate.
    destruct q as [| q0 [| q1 [| q2 [| q3 [| q4 [| q5 [| ? ?]]]]]]];
      try discriminate.
    unfold sigar_hwaddr_format. simpl nth. rewrite !land_255.
    rewrite !fmt_02X_app.
    change (":" +:+ ?s)%string with (String ":" s).
    intros H.
    assert (Hb : forall b, (0 <= b mod 256 < 256)%Z)
      by (intros b; apply Z.mod_pos_bound; lia).
    unfold fmt_02X in H.
    injection H as H0h H0l H1h H1l H2h H2l H3h H3l H4h H4l H5h H5l.
    change ([p0 mod 256; p1 mod 256; p2 mod 256;
             p3 mod 256; p4 mod 256; p5 mod 256]%Z =
            [q0 mod 256; q1 mod 256; q2 mod 256;
             q3 mod 256; q4 mod 256; q5 mod 256]%Z).
    rewrite (hex_digits_inj _ _ (Hb p0) (Hb q0) H0h H0l).
    rewrite (hex_digits_inj _ _ (Hb p1) (Hb q1) H1h H1l).
    rewrite (hex_digits_inj _ _ (Hb p2) (Hb q2) H2h H2l).
    rewrite (hex_digits_inj _ _ (Hb p3) (Hb q3) H3h H3l).
    rewrite (hex_digits_inj _ _ (Hb p4) (Hb q4) H4h H4l).
    rewrite (hex_digits_inj _ _ (Hb p5) (Hb q5) H5h H5l).
    reflexivity.
Qed.

Lemma ntoa_octet_facts (u : Z) :
  (0 <= u < 256)%Z ->
  dec_value (ntoa_octet u) = u /\
  IS_FQDN (ntoa_octet u) = false /\
  1 <= String.length (ntoa_octet u) <= 3.
Proof.
  intros Hu.
  pose proof (forallb_Z_range
                (fun z => (dec_value (ntoa_octet z) =? z)%Z &&
                          negb (IS_FQDN (ntoa_octet z)) &&
                          (1 <=? String.length (ntoa_octet z)) &&
                          (String.length (ntoa_octet z) <=? 3))
                256 ltac:(vm_compute; reflexivity) u Hu) as H.
  cbv beta in H.
  apply andb_true_iff in H as [H H3]. apply andb_true_iff in H as [H H2].
  apply andb_true_iff in H as [H0 H1].
  apply Z.eqb_eq in H0. apply negb_true_iff in H1.
  apply Nat.leb_le in H2, H3. repeat split; assumption.
Qed.

Lemma IS_FQDN_cons (c : ascii) (s : string) :
  IS_FQDN (String c s) = false -> c <> "."%char /\ IS_FQDN s = false.
Proof.
  unfold IS_FQDN. simpl.
  destruct (Ascii.eqb c ".") eqn:E; [discriminate |].
  apply Ascii.eqb_neq in E. intros H. split; assumption.
Qed.

Lemma IS_FQDN_app_dot (s r : string) :
  IS_FQDN (s +:+ String "." r) = true.
Proof.
  apply IS_FQDN_dot. induction s as [| c s IH].
  - left. reflexivity.
  - right. exact IH.
Qed.

(** Two strings cut at their first dot agree part by part. *)
Lemma app_dot_inj (s1 s2 r1 r2 : string) :
  IS_FQDN s1 = false -> IS_FQDN s2 = false ->
  (s1 +:+ String "." r1 = s2 +:+ String "." r2)%string ->
  s1 = s2 /\ r1 = r2.
Proof.
  revert s2. induction s1 as [| c1 s1 IH]; intros [| c2 s2] H1 H2.
  - intros [= ->]. split; reflexivity.
  - intros [= <- _]. apply IS_FQDN_cons in H2 as [Hc _]. contradiction.
  - intros [= -> _]. apply IS_FQDN_cons in H1 as [Hc _]. contradiction.
  - intros H. injection H as -> Htail.
    apply IS_FQDN_cons in H1 as [_ H1]. apply IS_FQDN_cons in H2 as [_ H2].
    destruct (IH s2 H1 H2 Htail) as [-> ->]. split; reflexivity.
Qed.

Lemma sigar_inet_ntoa_octets (a : Z) :
  sigar_inet_ntoa a =
  (ntoa_octet ((a mod 2 ^ 32) mod 256) +:+
   String "." (ntoa_octet ((a mod 2 ^ 32) / 256 mod 256) +:+
   String "." (ntoa_octet ((a mod 2 ^ 32) / 65536 mod 256) +:+
   String "." (ntoa_octet ((a mod 2 ^ 32) / 16777216 mod 256)))))%string.
Proof.
  unfold sigar_inet_ntoa.
  change (2 ^ (8 * 0))%Z with 1%Z. change (2 ^ (8 * 1))%Z with 256%Z.
  change (2 ^ (8 * 2))%Z with 65536%Z. change (2 ^ (8 * 3))%Z with 16777216%Z.
  rewrite Z.div_1_r. reflexivity.
Qed.

Lemma four_octets (x y : Z) :
  (0 <= x < 2 ^ 32)%Z -> (0 <= y < 2 ^ 32)%Z ->
  (x mod 256 = y mod 256)%Z ->
  (x / 256 mod 256 = y / 256 mod 256)%Z ->
  (x / 65536 mod 256 = y / 65536 mod 256)%Z ->
  (x / 16777216 mod 256 = y / 16777216 mod 256)%Z ->
  x = y.
Proof.
  intros Hx Hy H0 H1 H2 H3.
  pose proof (Z.div_mod x 256 ltac:(lia)) as Dx0.
  pose proof (Z.div_mod y 256 ltac:(lia)) as Dy0.
  pose proof (Z.div_mod (x / 256) 256 ltac:(lia)) as Dx1.
  pose proof (Z.div_mod (y / 256) 256 ltac:(lia)) as Dy1.
  pose proof (Z.div_mod (x / 256 / 256) 256 ltac:(lia)) as Dx2.
  pose proof (Z.div_mod (y / 256 / 256) 256 ltac:(lia)) as Dy2.
  rewrite !Z.div_div in Dx1, Dy1, Dx2, Dy2 by lia.
  change (256 * 256)%Z with 65536%Z in *.
  rewrite Z.div_div in Dx2, Dy2 by lia.
  change (65536 * 256)%Z with 16777216%Z in *.
  assert (Hx3 : (0 <= x / 16777216 < 256)%Z)
    by (split; [apply Z.div_pos; lia | apply Z.div_lt_upper_bound; lia]).
  assert (Hy3 : (0 <= y / 16777216 < 256)%Z)
    by (split; [apply Z.div_pos; lia | apply Z.div_lt_upper_bound; lia]).
  rewrite (Z.mod_small (x / 16777216)) in H3 by lia.
  rewrite (Z.mod_small (y / 16777216)) in H3 by lia.
  lia.
Qed.

(** X3.  [sigar_inet_ntoa] writes between 7 and 15 characters (a buffer of
    16 bytes is enough), a dotted name in the sense of [IS_FQDN]; it reads
    the low 32 bits of the address only; and two addresses with the same
    rendering have the same low 32 bits. *)
Theorem sigar_inet_ntoa_faithful (a b : Z) :
  7 <= String.length (sigar_inet_ntoa a) <= 15 /\
  IS_FQDN (sigar_inet_ntoa a) = true /\
  sigar_inet_ntoa (a mod 2 ^ 32) = sigar_inet_ntoa a /\
  (sigar_inet_ntoa a = sigar_inet_ntoa b ->
   (a mod 2 ^ 32 = b mod 2 ^ 32)%Z).
Proof.
  assert (Hoct : forall x d, (0 < d)%Z -> (0 <= x / d mod 256 < 256)%Z)
    by (intros x d _; apply Z.mod_pos_bound; lia).
  assert (Hoct0 : forall x, (0 <= x mod 256 < 256)%Z)
    by (intros x; apply Z.mod_pos_bound; lia).
  split; [| split; [| split]].
  - rewrite sigar_inet_ntoa_octets.
    destruct (ntoa_octet_facts _ (Hoct0 (a mod 2 ^ 32)%Z)) as (_ & _ & L0).
    destruct (ntoa_octet_facts _ (Hoct (a mod 2 ^ 32)%Z 256%Z ltac:(lia)))
      as (_ & _ & L1).
    destruct (ntoa_octet_facts _ (Hoct (a mod 2 ^ 32)%Z 65536%Z ltac:(lia)))
      as (_ & _ & L2).
    destruct (ntoa_octet_facts _
                (Hoct (a mod 2 ^ 32)%Z 16777216%Z ltac:(lia)))
      as (_ & _ & L3).
    rewrite string_length_app. simpl String.length.
    rewrite string_length_app. simpl String.length.
    rewrite string_length_app. simpl String.length.
    lia.
  - rewrite sigar_inet_ntoa_octets. apply IS_FQDN_app_dot.
  - rewrite !sigar_inet_ntoa_octets.
    rewrite Z.mod_mod by lia. reflexivity.
  - rewrite !sigar_inet_ntoa_octets. intros H.
    set (x := (a mod 2 ^ 32)%Z) in *. set (y := (b mod 2 ^ 32)%Z) in *.
    assert (Hx : (0 <= x < 2 ^ 32)%Z) by (apply Z.mod_pos_bound; lia).
    assert (Hy : (0 <= y < 2 ^ 32)%Z) by (apply Z.mod_pos_bound; lia).
    destruct (ntoa_octet_facts _ (Hoct0 x)) as (V0 & D0 & _).
    destruct (ntoa_octet_facts _ (Hoct0 y)) as (V0' & D0' & _).
    destruct (ntoa_octet_facts _ (Hoct x 256%Z ltac:(lia))) as (V1 & D1 & _).
    destruct (ntoa_octet_facts _ (Hoct y 256%Z ltac:(lia)))
      as (V1' & D1' & _).
    destruct (ntoa_octet_facts _ (Hoct x 65536%Z ltac:(lia)))
      as (V2 & D2 & _).
    destruct (ntoa_octet_facts _ (Hoct y 65536%Z ltac:(lia)))
      as (V2' & D2' & _).
    destruct (ntoa_octet_facts _ (Hoct x 16777216%Z ltac:(lia)))
      as (V3 & _ & _).
    destruct (ntoa_octet_facts _ (Hoct y 16777216%Z ltac:(lia)))
      as (V3' & _ & _).
    apply app_dot_inj in H as [E0 H]; [| assumption | assumption].
    apply app_dot_inj in H as [E1 H]; [| assumption | assumption].
    apply app_dot_inj in H as [E2 E3]; [| assumption | assumption].
    apply (f_equal dec_value) in E0, E1, E2, E3.
    rewrite V0, V0' in E0. rewrite V1, V1' in E1.
    rewrite V2, V2' in E2. rewrite V3, V3' in E3.
    apply four_octets; assumption.
Qed.

(** ** The session buffer across enumerations *)

Section SessionFacts.
Context {K : Type}.
Variable P : platform.
Variable kern : kernel K.

Local Open Scope Z_scope.

Lemma round_buflen_step (lastlen : Z) (s : sigar_t) :
  (round_grows lastlen s = true /\
   round_buflen P lastlen s = ifconf_len s + ifconf_increment P) \/
  (round_grows lastlen s = false /\
   round_buflen P lastlen s = ifconf_len s /\ is_Some (ifconf_buf s)).
Proof.
  unfold round_buflen.
  destruct (round_grows lastlen s) eqn:G; [left; auto | right].
  split; [reflexivity |]. split; [reflexivity |].
  unfold round_grows in G. apply orb_false_iff in G as [G _].
  apply negb_false_iff in G. apply bool_decide_eq_true in G. exact G.
Qed.

(** What the loop does to the session: the buffer is there afterwards, its
    length has grown by a whole number of increments, one per round at
    most. *)
Lemma ifconf_loop_session (fuel : nat) (sock lastlen : Z) (s : sigar_t)
    (w : world K) (s' : sigar_t) (w' : world K) (res : Z + ifconf_reply) :
  ifconf_loop P kern fuel sock lastlen s w = Done (s', w', res) ->
  session_ok s ->
  ifconf_len s + ifconf_increment P * Z.of_nat fuel <= INT_MAX ->
  session_ok s' /\ is_Some (ifconf_buf s') /\
  exists k : nat,
    (k <= fuel)%nat /\
    ifconf_len s' = ifconf_len s + Z.of_nat k * ifconf_increment P.
Proof.
  revert lastlen s w. pose proof (ifconf_increment_pos P) as Hinc.
  induction fuel as [| fuel IH]; intros lastlen s w Hloop Hs Hmax;
    [discriminate |].
  pose proof (round_buflen_pos P lastlen s Hs) as HBpos.
  assert (Hlen0 : 0 <= ifconf_len s) by (destruct Hs; lia).
  destruct (round_buflen_step lastlen s) as [[G HB] | [G [HB Hbuf]]].
  - (* the round grows the buffer *)
    destruct (ifconf_iter_eq P kern sock lastlen s w) as
      (s1 & w1 & E & Hlen1 & Hgrow & _); [lia | nia |].
    specialize (Hgrow G).
    assert (Hs1 : session_ok s1) by (split; [lia | intros _; lia]).
    rewrite ifconf_loop_S, E in Hloop.
    destruct (round_exit P lastlen _ _) as [st | | ll].
    + injection Hloop as <- _ _. split; [exact Hs1 |].
      split; [exact Hgrow |]. exists 1%nat. split; [lia | lia].
    + injection Hloop as <- _ _. split; [exact Hs1 |].
      split; [exact Hgrow |]. exists 1%nat. split; [lia | lia].
    + destruct (IH ll s1 w1 Hloop Hs1) as (Hs' & Hb' & k & Hk & Hlen');
        [nia |].
      split; [exact Hs' |]. split; [exact Hb' |].
      exists (S k). split; [lia | lia].
  - (* the round reuses the buffer of the session *)
    destruct (ifconf_iter_eq P kern sock lastlen s w) as
      (s1 & w1 & E & Hlen1 & _ & Hsame & _); [lia | nia |].
    specialize (Hsame G). subst s1.
    rewrite ifconf_loop_S, E in Hloop.
    destruct (round_exit P lastlen _ _) as [st | | ll].
    + injection Hloop as <- _ _. split; [exact Hs |].
      split; [exact Hbuf |]. exists 0%nat. split; [lia | lia].
    + injection Hloop as <- _ _. split; [exact Hs |].
      split; [exact Hbuf |]. exists 0%nat. split; [lia | lia].
    + destruct (IH ll s w1 Hloop Hs) as (Hs' & Hb' & k & Hk & Hlen');
        [nia |].
      split; [exact Hs' |]. split; [exact Hb' |].
      exists k. split; [lia | lia].
Qed.

(** X4.  [sigar_net_interface_list_get] keeps the session buffer well
    formed (absent or of positive length) whatever the kernel answers, as
    long as the length stays within [int]: the length never shrinks, it
    grows by a whole number of increments, at most one per round, and so
    stays a multiple of the record size if it was one. *)
Theorem sigar_net_interface_list_get_session (fuel : nat) (s : sigar_t)
    (w : world K) (l0 : sigar_list cstr)
    (st : Z) (l : sigar_list cstr) (s' : sigar_t) (w' : world K) :
  sigar_net_interface_list_get P kern fuel s w l0 = Done (st, l, s', w') ->
  session_ok s ->
  ifconf_len s + ifconf_increment P * Z.of_nat fuel <= INT_MAX ->
  session_ok s' /\
  ifconf_len s <= ifconf_len s' /\
  (exists k : nat,
     (k <= fuel)%nat /\
     ifconf_len s' = ifconf_len s + Z.of_nat k * ifconf_increment P) /\
  ((Z.pos (sizeof_ifreq P) | ifconf_len s) ->
   (Z.pos (sizeof_ifreq P) | ifconf_len s')).
Proof.
  intros Hget Hs Hmax. pose proof (ifconf_increment_pos P) as Hinc.
  assert (Hk : exists k : nat,
             (k <= fuel)%nat /\ session_ok s' /\
             ifconf_len s' = ifconf_len s + Z.of_nat k * ifconf_increment P).
  { rewrite sigar_net_interface_list_get_eq in Hget.
    destruct (_ <? 0).
    - injection Hget as _ _ <- _. exists 0%nat.
      split; [lia |]. split; [exact Hs | lia].
    - destruct (ifconf_loop P kern fuel _ 0 s _)
        as [[[s1 w1] res] | |] eqn:Eloop; try discriminate.
      destruct (ifconf_loop_session _ _ _ _ _ _ _ _ Eloop Hs Hmax)
        as (Hs1 & _ & k & Hk & Hlen).
      assert (s' = s1) as ->.
      { destruct res as [st1 | ifc].
        - injection Hget as _ _ <- _. reflexivity.
        - destruct (ifconf_copy_names _ _ _) as [[l1 m2] | |];
            simpl in Hget; try discriminate.
          injection Hget as _ _ <- _. reflexivity. }
      exists k. split; [exact Hk |]. split; [exact Hs1 | exact Hlen]. }
  destruct Hk as (k & Hk & Hs' & Hlen).
  split; [exact Hs' |]. split; [nia |].
  split; [exists k; split; assumption |].
  intros [q Hq]. rewrite Hlen, Hq. unfold ifconf_increment.
  exists (q + Z.of_nat k * Z.pos (SIGAR_NET_IFLIST_MAX P)). lia.
Qed.
End SessionFacts.

(** A kernel that needs 2000 bytes, asked from the session [sigar_open]
    leaves. *)
Lemma sigar_net_interface_list_get_session_linux :
  session_ok
    (match sigar_net_interface_list_get linux (need_kernel 2000) 5 sigar0
             (world0 tt) (SigarList 0 0 None []) with
     | Done (_, _, s', _) => s'
     | _ => sigar0
     end) /\
  (ifconf_len sigar0 <=
   ifconf_len
     (match sigar_net_interface_list_get linux (need_kernel 2000) 5 sigar0
              (world0 tt) (SigarList 0 0 None []) with
      | Done (_, _, s', _) => s'
      | _ => sigar0
      end))%Z.
Proof.
  destruct (sigar_net_interface_list_get linux (need_kernel 2000) 5 sigar0
              (world0 tt) (SigarList 0 0 None []))
    as [[[[st l] s'] w'] | |] eqn:E.
  - destruct (sigar_net_interface_list_get_session linux (need_kernel 2000)
                5 sigar0 (world0 tt) (SigarList 0 0 None []) st l s' w' E
                sigar0_ok ltac:(vm_compute; discriminate))
      as (Hs & Hle & _).
    split; [exact Hs | exact Hle].
  - split; [apply sigar0_ok | simpl; lia].
  - split; [apply sigar0_ok | simpl; lia].
Defined.

(** ** The list an enumeration returns, and its release *)

Section InterfaceListFacts.
Context {K : Type}.
Variable P : platform.
Variable kern : kernel K.

(** The copy of the names, with the blocks [strdup] hands out. *)
Lemma ifconf_copy_names_blocks (names : list string) (l : sigar_list cstr)
    (m : mem) :
  number l + length names <= length (cells l) ->
  exists l' cs,
    ifconf_copy_names names l m
      = Done (l', Mem (m_next m + length names) (m_freed m)) /\
    size l' = size l /\ data l' = data l /\
    number l' = number l + length names /\
    sigar_list_read l' = sigar_list_read l ++ (Some <$> cs) /\
    cs_val <$> cs = names /\
    cs_ptr <$> cs = seq (m_next m) (length names).
Proof.
  revert l m. induction names as [| nm names IH]; intros l m Hroom.
  - exists l, []. simpl. rewrite app_nil_r, !Nat.add_0_r.
    destruct m. repeat split; reflexivity.
  - simpl in Hroom. simpl ifconf_copy_names.
    destruct (decide (number l < length (cells l))) as [Hin | Hout];
      [| lia].
    edestruct (IH (SigarList (S (number l)) (size l) (data l)
                     (<[number l := Some (CStr (m_next m) nm)]> (cells l)))
                  (Mem (S (m_next m)) (m_freed m)))
      as (l' & cs & E & Hsz & Hdata & Hn & Hrd & Hval & Hptr).
    { simpl. rewrite length_insert. lia. }
    exists l', (CStr (m_next m) nm :: cs).
    simpl in E, Hsz, Hdata, Hn, Hptr.
    replace (m_next m + length (nm :: names))
      with (S (m_next m) + length names) by (simpl; lia).
    split; [exact E |]. split; [exact Hsz |]. split; [exact Hdata |].
    split; [simpl; lia |].
    split; [| split].
    + rewrite Hrd. unfold sigar_list_read. simpl.
      rewrite (take_S_r _ _ (Some (CStr (m_next m) nm)))
        by (apply list_lookup_insert_eq; exact Hin).
      rewrite take_insert_ge by lia.
      rewrite <- app_assoc. reflexivity.
    + change (nm :: (cs_val <$> cs) = nm :: names). f_equal. exact Hval.
    + change (m_next m :: (cs_ptr <$> cs) =
              m_next m :: seq (S (m_next m)) (length names)).
      f_equal. exact Hptr.
Qed.

Lemma free_elements_log (cs : list cstr) (m : mem) :
  m_freed (free_elements (Some <$> cs) m) =
    m_freed m ++ (Some <$> (cs_ptr <$> cs)) /\
  m_next (free_elements (Some <$> cs) m) = m_next m.
Proof.
  revert m. induction cs as [| c cs IH]; intros m.
  - simpl. rewrite app_nil_r. split; reflexivity.
  - change (free_elements (Some <$> c :: cs) m)
      with (free_elements (Some <$> cs) (free (Some (cs_ptr c)) m)).
    destruct (IH (free (Some (cs_ptr c)) m)) as [-> ->]. simpl.
    rewrite <- app_assoc. split; reflexivity.
Qed.

(** The accepted path of [sigar_net_interface_list_get], and the release of
    the list it builds. *)
Lemma sigar_net_interface_list_get_accepted (fuel : nat) (s : sigar_t)
    (w : world K) (l0 : sigar_list cstr)
    (s1 : sigar_t) (w1 : world K) (ifc : ifconf_reply) :
  (0 <= (sys_socket kern w).1)%Z ->
  ifconf_loop P kern fuel (sys_socket kern w).1 0 s (sys_socket kern w).2
    = Done (s1, w1, inr ifc) ->
  exists l w' cs,
    sigar_net_interface_list_get P kern fuel s w l0
      = Done (SIGAR_OK P, l, s1, w') /\
    w_fds w' = w_fds w /\
    number l = ifreq_count P (ic_len ifc) /\
    size l = Z.to_nat (ic_len ifc) /\
    sigar_list_read l = Some <$> cs /\
    cs_val <$> cs = ic_req ifc <$> seq 0 (ifreq_count P (ic_len ifc)) /\
    data l = Some (m_next (w_mem w1)) /\
    cs_ptr <$> cs =
      seq (S (m_next (w_mem w1))) (ifreq_count P (ic_len ifc)) /\
    m_freed (w_mem w') = m_freed (w_mem w1) /\
    m_next (w_mem w') =
      S (m_next (w_mem w1)) + ifreq_count P (ic_len ifc).
Proof.
  intros Hsock Hloop.
  rewrite sigar_net_interface_list_get_eq.
  assert (E : ((sys_socket kern w).1 <? 0)%Z = false)
    by (apply Z.ltb_ge; exact Hsock).
  rewrite E, Hloop.
  edestruct (ifconf_copy_names_blocks
               (ic_req ifc <$> seq 0 (ifreq_count P (ic_len ifc)))
               (SigarList 0 (Z.to_nat (ic_len ifc))
                  (Some (m_next (w_mem w1)))
                  (replicate (Z.to_nat (ic_len ifc)) None))
               (Mem (S (m_next (w_mem w1))) (m_freed (w_mem w1))))
    as (l & cs & Ecopy & Hsz & Hdata & Hn & Hrd & Hval & Hptr).
  { simpl. rewrite length_fmap, length_seq, length_replicate.
    apply ifreq_count_le. }
  rewrite Ecopy. simpl in *.
  rewrite length_fmap, length_seq in Hn, Hptr.
  eexists l, _, cs. split; [reflexivity |].
  split.
  - simpl. rewrite (ifconf_loop_fds P kern _ _ _ _ _ _ _ _ Hloop).
    destruct (sys_socket kern w) as [sock w0] eqn:Es.
    destruct (sys_socket_spec kern _ _ _ Es) as [_ Hfds0].
    simpl in *. rewrite Hfds0, E. apply remove_fd_head.
  - repeat split; try assumption.
    simpl. rewrite length_fmap, length_seq. reflexivity.
Qed.
End InterfaceListFacts.

Section InterfaceListClaims.
Context {K : Type}.
Variable P : platform.
Variable kern : kernel K.

(** X5.  When the retry loop breaks out with a reply, the call returns
    [SIGAR_OK] with its socket closed and a list that holds the name of
    every record of the reply -- one per [sizeof(struct ifreq)] bytes
    reported, rounded up -- in the order the kernel gave them, none
    skipped, the count within the capacity. *)
Theorem sigar_net_interface_list_get_names (fuel : nat) (s : sigar_t)
    (w : world K) (l0 : sigar_list cstr)
    (s1 : sigar_t) (w1 : world K) (ifc : ifconf_reply) :
  (0 <= (sys_socket kern w).1)%Z ->
  ifconf_loop P kern fuel (sys_socket kern w).1 0 s (sys_socket kern w).2
    = Done (s1, w1, inr ifc) ->
  exists l w' cs,
    sigar_net_interface_list_get P kern fuel s w l0
      = Done (SIGAR_OK P, l, s1, w') /\
    w_fds w' = w_fds w /\
    number l = ifreq_count P (ic_len ifc) /\
    number l <= size l /\
    sigar_list_read l = Some <$> cs /\
    cs_val <$> cs = ic_req ifc <$> seq 0 (ifreq_count P (ic_len ifc)).
Proof.
  intros Hsock Hloop.
  destruct (sigar_net_interface_list_get_accepted P kern fuel s w l0
              s1 w1 ifc Hsock Hloop)
    as (l & w' & cs & E & Hfds & Hn & Hsz & Hrd & Hval & _).
  exists l, w', cs.
  split; [exact E |]. split; [exact Hfds |]. split; [exact Hn |].
  split; [| split; assumption].
  rewrite Hn, Hsz. apply ifreq_count_le.
Qed.

(** X6.  Destroying the list an enumeration returned releases each block
    the enumeration allocated exactly once -- every name, then the array --
    and nothing else, and leaves count and capacity 0; when the reply was
    empty the capacity is 0 and [free] is called on nothing. *)
Theorem sigar_net_interface_list_get_then_destroy (fuel : nat) (s : sigar_t)
    (w : world K) (l0 : sigar_list cstr)
    (s1 : sigar_t) (w1 : world K) (ifc : ifconf_reply) :
  (0 <= (sys_socket kern w).1)%Z ->
  ifconf_loop P kern fuel (sys_socket kern w).1 0 s (sys_socket kern w).2
    = Done (s1, w1, inr ifc) ->
  (0 <= ic_len ifc)%Z ->
  exists l w' fs,
    sigar_net_interface_list_get P kern fuel s w l0
      = Done (SIGAR_OK P, l, s1, w') /\
    list_released (sigar_net_interface_list_destroy l (w_mem w')).1 /\
    m_freed (sigar_net_interface_list_destroy l (w_mem w')).2
      = m_freed (w_mem w') ++ fs /\
    NoDup fs /\
    (forall p, In (Some p) fs ->
               m_next (w_mem w1) <= p < m_next (w_mem w')) /\
    ((0 < ic_len ifc)%Z -> length fs = S (number l)) /\
    (ic_len ifc = 0%Z -> fs = []).
Proof.
  intros Hsock Hloop Hlen.
  pose proof (sigar_net_interface_list_get_accepted P kern fuel s w l0
                s1 w1 ifc Hsock Hloop)
    as (l & w' & cs & E & _ & Hn & Hsz & Hrd & _ & Hdata & Hptr & _ & Hnext).
  unfold sigar_net_interface_list_destroy, list_released.
  destruct (size l =? 0) eqn:Esz.
  - (* an empty reply: nothing to release *)
    exists l, w', []. split; [exact E |]. rewrite Esz.
    apply Nat.eqb_eq in Esz.
    assert (Hcnt : ifreq_count P (ic_len ifc) = 0).
    { pose proof (ifreq_count_le P (ic_len ifc)). lia. }
    simpl.
    split; [lia |]. split; [rewrite app_nil_r; reflexivity |].
    split; [constructor |]. split; [contradiction |].
    split; [lia | reflexivity].
  - exists l, w',
      ((Some <$> seq (S (m_next (w_mem w1))) (ifreq_count P (ic_len ifc)))
       ++ [Some (m_next (w_mem w1))]).
    split; [exact E |]. rewrite Esz.
    apply Nat.eqb_neq in Esz. simpl.
    split; [split; reflexivity |].
    unfold sigar_list_read in Hrd. rewrite Hrd, Hdata.
    destruct (free_elements_log cs (w_mem w')) as [Hlog _].
    split; [rewrite Hlog, Hptr, <- app_assoc; reflexivity |].
    split; [| split; [| split]].
    + apply NoDup_app. split; [| split].
      * apply NoDup_fmap_2; [intros x y [= ->]; reflexivity |].
        apply NoDup_seq.
      * intros x Hx Hx'. apply list_elem_of_singleton in Hx'. subst x.
        apply list_elem_of_fmap in Hx as (y & [= <-] & Hy).
        apply elem_of_seq in Hy. lia.
      * apply NoDup_singleton.
    + intros p Hin. apply in_app_or in Hin as [Hin | [Hin | []]].
      * apply list_elem_of_In, list_elem_of_fmap in Hin
          as (y & [= <-] & Hy).
        apply elem_of_seq in Hy. lia.
      * injection Hin as <-. lia.
    + intros _. rewrite length_app, length_fmap, length_seq, Hn.
      simpl. lia.
    + intros Hneg. lia.
Qed.
End InterfaceListClaims.

(** The single record of [loopback_kernel]. *)
Lemma sigar_net_interface_list_get_names_lo :
  exists l w' cs,
    sigar_net_interface_list_get linux loopback_kernel 1 sigar0 (world0 0)
      (SigarList 0 0 None [])
      = Done (SIGAR_OK linux, l, Sigar (Some 0) 800, w') /\
    w_fds w' = w_fds (world0 0) /\
    number l = ifreq_count linux 40 /\
    number l <= size l /\
    sigar_list_read l = Some <$> cs /\
    cs_val <$> cs = (fun _ => "lo"%string) <$> seq 0 (ifreq_count linux 40).
Proof.
  apply (sigar_net_interface_list_get_names linux loopback_kernel 1 sigar0
           (world0 0) (SigarList 0 0 None []) (Sigar (Some 0) 800)
           (World 1 0%Z [3%Z] [EvSocket 3; EvIfconf 3 800] (Mem 1 []))
           (ifconf_ok 40 (fun _ => "lo"%string))).
  - vm_compute. discriminate.
  - vm_compute. reflexivity.
Defined.

Lemma sigar_net_interface_list_get_then_destroy_lo :
  exists l w' fs,
    sigar_net_interface_list_get linux loopback_kernel 1 sigar0 (world0 0)
      (SigarList 0 0 None [])
      = Done (SIGAR_OK linux, l, Sigar (Some 0) 800, w') /\
    list_released (sigar_net_interface_list_destroy l (w_mem w')).1 /\
    m_freed (sigar_net_interface_list_destroy l (w_mem w')).2
      = m_freed (w_mem w') ++ fs /\
    NoDup fs /\
    (forall p, In (Some p) fs -> 1 <= p < m_next (w_mem w')) /\
    ((0 < 40)%Z -> length fs = S (number l)) /\
    (40%Z = 0%Z -> fs = []).
Proof.
  apply (sigar_net_interface_list_get_then_destroy linux loopback_kernel 1
           sigar0 (world0 0) (SigarList 0 0 None []) (Sigar (Some 0) 800)
           (World 1 0%Z [3%Z] [EvSocket 3; EvIfconf 3 800] (Mem 1 []))
           (ifconf_ok 40 (fun _ => "lo"%string))).
  - vm_compute. discriminate.
  - vm_compute. reflexivity.
  - vm_compute. discriminate.
Defined.

(** ** The enumeration buffer of the session *)

Section SessionBuffer.
Context {K : Type}.
Variable P : platform.
Variable kern : kernel K.

Lemma ifconf_iter_buffer (sock lastlen : Z) (s : sigar_t) (w : world K) :
  mem_ok (w_mem w) -> buf_live s (w_mem w) ->
  exists p,
    ifconf_buf (ifconf_iter P kern sock lastlen s w).1.1.1 = Some p /\
    p < m_next (w_mem (ifconf_iter P kern sock lastlen s w).1.1.2) /\
    ~ In (Some p) (m_freed (w_mem w)) /\
    m_next (w_mem w)
      <= m_next (w_mem (ifconf_iter P kern sock lastlen s w).1.1.2) /\
    m_freed (w_mem (ifconf_iter P kern sock lastlen s w).1.1.2) =
      match (ifconf_iter P kern sock lastlen s w).2 with
      | LoopReturn _ => m_freed (w_mem w) ++ [Some p]
      | _ => m_freed (w_mem w)
      end.
Proof.
  intros Hok Hlive. unfold ifconf_iter, sys_ifconf.
  destruct (negb (bool_decide (is_Some (ifconf_buf s))) ||
            negb (lastlen =? 0)%Z) eqn:Egrow; simpl.
  - exists (m_next (w_mem w)).
    destruct (k_ifconf kern (w_kernel w) sock _) as [r k']. simpl.
    assert (Hfresh : ~ In (Some (m_next (w_mem w))) (m_freed (w_mem w))).
    { intros Hin. apply Hok in Hin. lia. }
    destruct ((ic_ret r <? 0)%Z && _); simpl;
      [repeat split; (reflexivity || lia || exact Hfresh) |].
    destruct (ic_len r <? _)%Z; simpl;
      [repeat split; (reflexivity || lia || exact Hfresh) |].
    destruct (negb (ic_len r =? lastlen)%Z); simpl;
      repeat split; (reflexivity || lia || exact Hfresh).
  - apply orb_false_elim in Egrow as [Ebuf _].
    apply negb_false_iff, bool_decide_eq_true in Ebuf as [p Hp].
    destruct (Hlive p Hp) as [Hlt Hnin].
    exists p.
    destruct (k_ifconf kern (w_kernel w) sock _) as [r k']. simpl.
    destruct ((ic_ret r <? 0)%Z && _); simpl;
      [rewrite Hp; repeat split; (reflexivity || lia || exact Hnin) |].
    destruct (ic_len r <? _)%Z; simpl;
      [repeat split; (assumption || reflexivity || lia) |].
    destruct (negb (ic_len r =? lastlen)%Z); simpl;
      repeat split; (assumption || reflexivity || lia).
Qed.

Lemma ifconf_loop_buffer (fuel : nat) (sock lastlen : Z) (s : sigar_t)
    (w : world K) (s' : sigar_t) (w' : world K) (res : Z + ifconf_reply) :
  ifconf_loop P kern fuel sock lastlen s w = Done (s', w', res) ->
  mem_ok (w_mem w) -> buf_live s (w_mem w) ->
  exists p,
    ifconf_buf s' = Some p /\ p < m_next (w_mem w') /\
    ~ In (Some p) (m_freed (w_mem w)) /\
    m_next (w_mem w) <= m_next (w_mem w') /\
    m_freed (w_mem w') =
      match res with
      | inl _ => m_freed (w_mem w) ++ [Some p]
      | inr _ => m_freed (w_mem w)
      end.
Proof.
  revert lastlen s w. induction fuel as [| fuel IH]; intros lastlen s w.
  - discriminate.
  - rewrite ifconf_loop_S. intros Hloop Hok Hlive.
    destruct (ifconf_iter_buffer sock lastlen s w Hok Hlive)
      as (p & Hp & Hlt & Hnin & Hmono & Hfreed).
    destruct (ifconf_iter P kern sock lastlen s w)
      as [[[s1 w1] ifc] e]. simpl in Hp, Hlt, Hmono, Hfreed.
    destruct e as [st | | ll].
    + injection Hloop as <- <- <-. exists p. repeat split; assumption.
    + injection Hloop as <- <- <-. exists p. repeat split; assumption.
    + destruct (IH _ _ _ Hloop) as (q & Hq & Hqlt & Hqnin & Hqmono & Hqfreed).
      * intros x Hx. rewrite Hfreed in Hx. apply Hok in Hx. lia.
      * intros x Hx. rewrite Hp in Hx. injection Hx as <-.
        split; [exact Hlt | rewrite Hfreed; exact Hnin].
      * exists q. rewrite Hfreed in Hqnin, Hqfreed.
        repeat split; (assumption || lia).
Qed.

Variable sigar_os_close : sigar_t -> Z.

(** X7.  An enumeration that breaks out of its loop leaves the session
    owning a live buffer: the call releases nothing, the buffer is distinct
    from the array and the names of the list it returns, and [sigar_close]
    afterwards releases the buffer and nothing else. *)
Theorem sigar_net_interface_list_get_keeps_buffer (fuel : nat) (s : sigar_t)
    (w : world K) (l0 : sigar_list cstr)
    (s1 : sigar_t) (w1 : world K) (ifc : ifconf_reply) :
  (0 <= (sys_socket kern w).1)%Z ->
  ifconf_loop P kern fuel (sys_socket kern w).1 0 s (sys_socket kern w).2
    = Done (s1, w1, inr ifc) ->
  mem_ok (w_mem w) -> buf_live s (w_mem w) ->
  exists l w' p q,
    sigar_net_interface_list_get P kern fuel s w l0
      = Done (SIGAR_OK P, l, s1, w') /\
    ifconf_buf s1 = Some p /\ data l = Some q /\ p < q /\
    Forall (fun e => exists c, e = Some c /\ q < cs_ptr c)
           (sigar_list_read l) /\
    m_freed (w_mem w') = m_freed (w_mem w) /\
    mem_ok (w_mem w') /\ buf_live s1 (w_mem w') /\
    m_freed (sigar_close sigar_os_close s1 (w_mem w')).2
      = m_freed (w_mem w) ++ [Some p].
Proof.
  intros Hsock Hloop Hok Hlive.
  destruct (sigar_net_interface_list_get_accepted P kern fuel s w l0
              s1 w1 ifc Hsock Hloop)
    as (l & w' & cs & E & _ & _ & _ & Hrd & _ & Hdata & Hptr & Hfr & Hnext).
  assert (Hmem0 : w_mem (sys_socket kern w).2 = w_mem w).
  { unfold sys_socket.
    destruct (k_socket kern (w_kernel w)) as [[fd e] k']. reflexivity. }
  destruct (ifconf_loop_buffer _ _ _ _ _ _ _ _ Hloop)
    as (p & Hp & Hlt & Hnin & Hmono & Hfreed).
  { rewrite Hmem0. exact Hok. }
  { rewrite Hmem0. exact Hlive. }
  rewrite Hmem0 in Hnin, Hmono, Hfreed.
  exists l, w', p, (m_next (w_mem w1)).
  split; [exact E |]. split; [exact Hp |]. split; [exact Hdata |].
  split; [exact Hlt |].
  split.
  { rewrite Hrd. apply Forall_fmap, Forall_forall. intros c Hc.
    exists c. split; [reflexivity |].
    assert (Hin : cs_ptr c ∈ cs_ptr <$> cs)
      by (apply list_elem_of_fmap; exists c; split;
          [reflexivity | exact Hc]).
    rewrite Hptr in Hin. apply elem_of_seq in Hin. lia. }
  split; [rewrite Hfr; exact Hfreed |].
  split.
  { intros x Hx. rewrite Hfr, Hfreed in Hx. apply Hok in Hx. lia. }
  split.
  { intros x Hx. rewrite Hp in Hx. injection Hx as <-.
    split; [lia | rewrite Hfr, Hfreed; exact Hnin]. }
  unfold sigar_close. simpl. rewrite Hp. simpl.
  rewrite Hfr, Hfreed. reflexivity.
Qed.

(** X8.  An enumeration that returns from inside its loop has released the
    buffer the session still points to: the block, which was live or not
    yet handed out before the call, is in the log of released blocks, the
    list is untouched, and [sigar_close] afterwards releases the same
    block a second time. *)
Theorem sigar_net_interface_list_get_dangling_buffer (fuel : nat)
    (s : sigar_t) (w : world K) (l0 : sigar_list cstr)
    (s1 : sigar_t) (w1 : world K) (st : Z) :
  (0 <= (sys_socket kern w).1)%Z ->
  ifconf_loop P kern fuel (sys_socket kern w).1 0 s (sys_socket kern w).2
    = Done (s1, w1, inl st) ->
  mem_ok (w_mem w) -> buf_live s (w_mem w) ->
  sigar_net_interface_list_get P kern fuel s w l0 = Done (st, l0, s1, w1) /\
  exists p,
    ifconf_buf s1 = Some p /\
    ~ In (Some p) (m_freed (w_mem w)) /\
    m_freed (w_mem w1) = m_freed (w_mem w) ++ [Some p] /\
    ~ buf_live s1 (w_mem w1) /\
    m_freed (sigar_close sigar_os_close s1 (w_mem w1)).2
      = m_freed (w_mem w) ++ [Some p; Some p].
Proof.
  intros Hsock Hloop Hok Hlive.
  split.
  { rewrite sigar_net_interface_list_get_eq.
    assert (E : ((sys_socket kern w).1 <? 0)%Z = false)
      by (apply Z.ltb_ge; exact Hsock).
    rewrite E, Hloop. reflexivity. }
  assert (Hmem0 : w_mem (sys_socket kern w).2 = w_mem w).
  { unfold sys_socket.
    destruct (k_socket kern (w_kernel w)) as [[fd e] k']. reflexivity. }
  destruct (ifconf_loop_buffer _ _ _ _ _ _ _ _ Hloop)
    as (p & Hp & Hlt & Hnin & Hmono & Hfreed).
  { rewrite Hmem0. exact Hok. }
  { rewrite Hmem0. exact Hlive. }
  rewrite Hmem0 in Hnin, Hmono, Hfreed.
  exists p. split; [exact Hp |]. split; [exact Hnin |].
  split; [exact Hfreed |]. split.
  { intros Hl. destruct (Hl p Hp) as [_ Hn]. apply Hn.
    rewrite Hfreed. apply in_or_app. right. left. reflexivity. }
  unfold sigar_close. simpl. rewrite Hp. simpl.
  rewrite Hfreed, <- app_assoc. reflexivity.
Qed.
End SessionBuffer.

(** A retry against [reporting_kernel]: the second buffer is the one the
    session keeps. *)
Lemma sigar_net_interface_list_get_keeps_buffer_retry :
  exists l w' p q,
    sigar_net_interface_list_get linux reporting_kernel 3 sigar0 (world0 0)
      (SigarList 0 0 None [])
      = Done (SIGAR_OK linux, l, Sigar (Some 1) 1600, w') /\
    Some 1 = Some p /\ data l = Some q /\ p < q /\
    Forall (fun e => exists c, e = Some c /\ q < cs_ptr c)
           (sigar_list_read l) /\
    m_freed (w_mem w') = [] /\
    mem_ok (w_mem w') /\ buf_live (Sigar (Some 1) 1600) (w_mem w') /\
    m_freed (sigar_close (fun _ => 0%Z) (Sigar (Some 1) 1600) (w_mem w')).2
      = [Some p].
Proof.
  apply (sigar_net_interface_list_get_keeps_buffer linux reporting_kernel
           (fun _ => 0%Z) 3 sigar0 (world0 0) (SigarList 0 0 None [])
           (Sigar (Some 1) 1600)
           (World 2 0%Z [3%Z] [EvSocket 3; EvIfconf 3 800; EvIfconf 3 1600]
                  (Mem 2 []))
           (ifconf_ok 1600 (fun _ => "eth0"%string))).
  - vm_compute. discriminate.
  - vm_compute. reflexivity.
  - intros p [].
  - intros p Hp. discriminate Hp.
Defined.

(** [failing_kernel]: the first request fails with [ENOMEM]. *)
Lemma sigar_net_interface_list_get_dangling_buffer_enomem :
  sigar_net_interface_list_get linux failing_kernel 1 sigar0 (world0 0)
    (SigarList 0 0 None [])
    = Done (12%Z, SigarList 0 0 None [], Sigar (Some 0) 800,
            World 1 12%Z [3%Z] [EvSocket 3; EvIfconf 3 800]
                  (Mem 1 [Some 0])) /\
  exists p,
    Some 0 = Some p /\
    ~ In (Some p) [] /\
    [Some 0] = [] ++ [Some p] /\
    ~ buf_live (Sigar (Some 0) 800) (Mem 1 [Some 0]) /\
    m_freed (sigar_close (fun _ => 0%Z) (Sigar (Some 0) 800)
               (Mem 1 [Some 0])).2
      = [] ++ [Some p; Some p].
Proof.
  apply (sigar_net_interface_list_get_dangling_buffer linux failing_kernel
           (fun _ => 0%Z) 1 sigar0 (world0 0) (SigarList 0 0 None [])
           (Sigar (Some 0) 800)
           (World 1 12%Z [3%Z] [EvSocket 3; EvIfconf 3 800]
                  (Mem 1 [Some 0]))
           12%Z).
  - vm_compute. discriminate.
  - vm_compute. reflexivity.
  - intros p [].
  - intros p Hp. discriminate Hp.
Defined.

(** ** The address fallback *)

Section AddressFallback.
Context {K : Type}.
Variable P : platform.
Variable kern : kernel K.

Lemma config_all_fds (es : list (option cstr)) (w : world K) :
  w_fds (config_all P kern es w) = w_fds w.
Proof.
  revert w. induction es as [| [c |] es IH]; intros w; simpl;
    [reflexivity | | reflexivity].
  rewrite IH. apply sigar_net_interface_config_get_closes.
Qed.

(** The scan stops at the first interface whose lookup succeeds without
    the loopback flag; what follows it in the list is not read. *)
Lemma fqdn_ip_scan_first (pre : list cstr) (c : cstr)
    (post : list (option cstr)) (w : world K) (name : string) :
  no_usable_interface P kern (Some <$> pre) w ->
  (sigar_net_interface_config_get P kern (cs_val c)
     (config_all P kern (Some <$> pre) w)).1.1 = SIGAR_OK P ->
  Z.land (cfg_flags (sigar_net_interface_config_get P kern (cs_val c)
                       (config_all P kern (Some <$> pre) w)).1.2)
         (SIGAR_IFF_LOOPBACK P) = 0%Z ->
  fqdn_ip_scan P kern ((Some <$> pre) ++ Some c :: post) w name =
    Done (sigar_inet_ntoa
            (cfg_address (sigar_net_interface_config_get P kern (cs_val c)
                            (config_all P kern (Some <$> pre) w)).1.2),
          (sigar_net_interface_config_get P kern (cs_val c)
             (config_all P kern (Some <$> pre) w)).2).
Proof.
  revert w. induction pre as [| d pre IH]; intros w.
  - simpl. intros _ Hst Hlo.
    destruct (sigar_net_interface_config_get P kern (cs_val c) w)
      as [[st cfg] w1]. simpl in *.
    rewrite Hst, Hlo, !Z.eqb_refl. reflexivity.
  - change (Some <$> d :: pre) with (Some d :: (Some <$> pre)).
    simpl. 
    destruct (sigar_net_interface_config_get P kern (cs_val d) w)
      as [[st cfg] w1]. simpl.
    intros [Hbad Hrest] Hst Hlo.
    assert (E : negb (st =? SIGAR_OK P)%Z ||
                negb (Z.land (cfg_flags cfg) (SIGAR_IFF_LOOPBACK P) =? 0)%Z
                = true).
    { apply orb_true_iff. destruct Hbad as [Hb | Hb].
      - left. apply negb_true_iff, Z.eqb_neq. exact Hb.
      - right. apply negb_true_iff, Z.eqb_neq. exact Hb. }
    rewrite E. apply IH; assumption.
Qed.

(** X9.  [fqdn_ip_get], given an enumeration that succeeded: when the
    interfaces in front of [c] are all unusable (lookup failed, or
    loopback) and [c] is usable, the name becomes the dotted quad of the
    address of [c], the status is [SIGAR_OK], the interfaces after [c] are
    never looked up -- kernel state and event log are those the lookup of
    [c] left -- and the descriptors open are those the enumeration left. *)
Theorem fqdn_ip_get_first_usable (fuel : nat) (s : sigar_t) (w : world K)
    (name : string) (l : sigar_list cstr) (s1 : sigar_t) (w1 : world K)
    (pre : list cstr) (c : cstr) (post : list (option cstr)) :
  sigar_net_interface_list_get P kern fuel s w (SigarList 0 0 None [])
    = Done (SIGAR_OK P, l, s1, w1) ->
  sigar_list_read l = (Some <$> pre) ++ Some c :: post ->
  no_usable_interface P kern (Some <$> pre) w1 ->
  (sigar_net_interface_config_get P kern (cs_val c)
     (config_all P kern (Some <$> pre) w1)).1.1 = SIGAR_OK P ->
  Z.land (cfg_flags (sigar_net_interface_config_get P kern (cs_val c)
                       (config_all P kern (Some <$> pre) w1)).1.2)
         (SIGAR_IFF_LOOPBACK P) = 0%Z ->
  exists w',
    fqdn_ip_get P kern fuel s w name =
      Done (SIGAR_OK P,
            sigar_inet_ntoa
              (cfg_address
                 (sigar_net_interface_config_get P kern (cs_val c)
                    (config_all P kern (Some <$> pre) w1)).1.2),
            s1, w') /\
    IS_FQDN (sigar_inet_ntoa
               (cfg_address
                  (sigar_net_interface_config_get P kern (cs_val c)
                     (config_all P kern (Some <$> pre) w1)).1.2)) = true /\
    w_kernel w' =
      w_kernel (sigar_net_interface_config_get P kern (cs_val c)
                  (config_all P kern (Some <$> pre) w1)).2 /\
    w_log w' =
      w_log (sigar_net_interface_config_get P kern (cs_val c)
               (config_all P kern (Some <$> pre) w1)).2 /\
    w_fds w' = w_fds w1.
Proof.
  intros Hget Hread Hpre Hst Hlo.
  pose proof (sigar_net_interface_list_get_list_ok P kern
                fuel s w (SigarList 0 0 None []) _ l s1 w1
                (Nat.le_0_l 0) Hget) as Hnum.
  unfold fqdn_ip_get. rewrite Hget. simpl.
  rewrite Z.eqb_refl. simpl.
  destruct (decide (number l <= length (cells l))) as [_ | Hbad];
    [| contradiction].
  rewrite Hread, (fqdn_ip_scan_first pre c post w1 name Hpre Hst Hlo).
  simpl.
  destruct (sigar_net_interface_list_destroy l _) as [l' m'].
  eexists. split; [reflexivity |].
  split; [rewrite sigar_inet_ntoa_octets; apply IS_FQDN_app_dot |].
  split; [reflexivity |]. split; [reflexivity |].
  simpl. rewrite sigar_net_interface_config_get_closes.
  apply config_all_fds.
Qed.
End AddressFallback.

(** [lo] is passed over, [eth0] gives the name. *)
Lemma fqdn_ip_get_first_usable_eth0 :
  exists w',
    fqdn_ip_get linux dual_kernel 1 sigar0 (world0 0) "host" =
      Done (SIGAR_OK linux, "10.0.0.5"%string, Sigar (Some 0) 800, w') /\
    IS_FQDN "10.0.0.5" = true /\
    w_kernel w' = 1 /\
    w_log w' =
      [EvSocket 3; EvIfconf 3 800; EvClose 3;
       EvSocket 3; EvIfreq 3 SIOCGIFADDR "lo";
       EvIfreq 3 SIOCGIFNETMASK "lo"; EvIfreq 3 SIOCGIFFLAGS "lo";
       EvIfreq 3 SIOCGIFMTU "lo"; EvIfreq 3 SIOCGIFMETRIC "lo";
       EvClose 3; EvSocket 3; EvIfreq 3 SIOCGIFADDR "eth0";
       EvIfreq 3 SIOCGIFNETMASK "eth0"; EvIfreq 3 SIOCGIFFLAGS "eth0";
       EvIfreq 3 SIOCGIFDSTADDR "eth0"; EvIfreq 3 SIOCGIFBRDADDR "eth0";
       EvIfreq 3 SIOCGIFHWADDR "eth0"; EvIfreq 3 SIOCGIFMTU "eth0";
       EvIfreq 3 SIOCGIFMETRIC "eth0"; EvClose 3] /\
    w_fds w' = [].
Proof.
  apply (fqdn_ip_get_first_usable linux dual_kernel 1 sigar0 (world0 0)
           "host"
           (SigarList 2 80 (Some 1)
              ([Some (CStr 2 "lo"); Some (CStr 3 "eth0")]
               ++ replicate 78 None))
           (Sigar (Some 0) 800)
           (World 1 0%Z [] [EvSocket 3; EvIfconf 3 800; EvClose 3]
                  (Mem 4 []))
           [CStr 2 "lo"] (CStr 3 "eth0") []).
  - vm_compute. reflexivity.
  - vm_compute. reflexivity.
  - vm_compute. split; [right; discriminate | exact I].
  - vm_compute. reflexivity.
  - vm_compute. reflexivity.
Defined.

(** ** What [sigar_fqdn_get] touches *)

Section FqdnFrame.
Context {K : Type}.
Variable P : platform.
Variable kern : kernel K.
Variable R : resolver.

(** X10.  Whenever [sigar_fqdn_get] returns, either it has left the session
    and the kernel alone, or [gethostname] had succeeded and the session,
    the world and the name are those [fqdn_ip_get] left when called on a
    name without a dot -- and then the status is [SIGAR_OK] whatever the
    status of [fqdn_ip_get] was. *)
Theorem sigar_fqdn_get_frame (fuel : nat) (s : sigar_t) (w : world K)
    (namelen st : Z) (name : string) (s' : sigar_t) (w' : world K) :
  sigar_fqdn_get P kern R fuel s w namelen = Done (st, name, s', w') ->
  (s' = s /\ w' = w) \/
  ((gethostname R (namelen - 1)).1.1 = 0%Z /\ st = SIGAR_OK P /\
   exists nm st0,
     IS_FQDN nm = false /\
     fqdn_ip_get P kern fuel s w nm = Done (st0, name, s', w')).
Proof.
  unfold sigar_fqdn_get.
  destruct (gethostname R (namelen - 1)) as [[ret e] nm]. simpl.
  destruct (ret =? 0)%Z eqn:E; simpl.
  2:{ intros [= _ _ <- <-]. left. split; reflexivity. }
  apply Z.eqb_eq in E.
  assert (Hip : forall nm0,
    IS_FQDN nm0 = false ->
    (fqdn_ip_get P kern fuel s w nm0 ≫=
       (λ '(_, name', s0, w0), Done (SIGAR_OK P, name', s0, w0)))
      = Done (st, name, s', w') ->
    ret = 0%Z /\ st = SIGAR_OK P /\
    exists nm st0,
      IS_FQDN nm = false /\
      fqdn_ip_get P kern fuel s w nm = Done (st0, name, s', w')).
  { intros nm0 Hdot. unfold mbind, run_bind.
    destruct (fqdn_ip_get P kern fuel s w nm0)
      as [[[[st0 n0] s0] w0] | |] eqn:Eip; try discriminate.
    intros [= <- <- <- <-].
    split; [exact E |]. split; [reflexivity |].
    exists nm0, st0. split; [exact Hdot | exact Eip]. }
  destruct (gethostbyname R nm) as [p |].
  - destruct (IS_FQDN (h_name p));
      [intros [= _ _ <- <-]; left; split; reflexivity |].
    destruct (match h_aliases p with
              | Some al => alias_scan al (h_name p)
              | None => None
              end);
      [intros [= _ _ <- <-]; left; split; reflexivity |].
    unfold mbind at 1, run_bind at 1.
    destruct (match h_addr_list p with
              | Some addrs => fqdn_addr_scan R addrs p
              | None => Done None
              end) as [[x |] | |]; try discriminate.
    + intros [= _ _ <- <-]. left. split; reflexivity.
    + destruct (IS_FQDN (fqdn_domain_stage P R nm namelen)) eqn:Ed; simpl.
      * intros [= _ _ <- <-]. left. split; reflexivity.
      * intros H. right. exact (Hip _ Ed H).
  - destruct (IS_FQDN nm) eqn:Ed; simpl.
    + intros [= _ _ <- <-]. left. split; reflexivity.
    + intros H. right. exact (Hip _ Ed H).
Qed.
End FqdnFrame.

(** The fallback of a machine whose name does not resolve. *)
Lemma sigar_fqdn_get_frame_eth0 :
  (Sigar (Some 0) 800 = sigar0 /\
   World 1 0%Z []
     [EvSocket 3; EvIfconf 3 800; EvClose 3; EvSocket 3;
      EvIfreq 3 SIOCGIFADDR "eth0"; EvIfreq 3 SIOCGIFNETMASK "eth0";
      EvIfreq 3 SIOCGIFFLAGS "eth0"; EvIfreq 3 SIOCGIFDSTADDR "eth0";
      EvIfreq 3 SIOCGIFBRDADDR "eth0"; EvIfreq 3 SIOCGIFHWADDR "eth0";
      EvIfreq 3 SIOCGIFMTU "eth0"; EvIfreq 3 SIOCGIFMETRIC "eth0";
      EvClose 3]
     (Mem 3 [Some 2; Some 1]) = world0 0) \/
  ((gethostname lonely_resolver (64 - 1)).1.1 = 0%Z /\
   0%Z = SIGAR_OK linux /\
   exists nm st0,
     IS_FQDN nm = false /\
     fqdn_ip_get linux eth_kernel 1 sigar0 (world0 0) nm =
       Done (st0, "10.0.0.5"%string, Sigar (Some 0) 800,
             World 1 0%Z []
               [EvSocket 3; EvIfconf 3 800; EvClose 3; EvSocket 3;
                EvIfreq 3 SIOCGIFADDR "eth0"; EvIfreq 3 SIOCGIFNETMASK "eth0";
                EvIfreq 3 SIOCGIFFLAGS "eth0";
                EvIfreq 3 SIOCGIFDSTADDR "eth0";
                EvIfreq 3 SIOCGIFBRDADDR "eth0";
                EvIfreq 3 SIOCGIFHWADDR "eth0"; EvIfreq 3 SIOCGIFMTU "eth0";
                EvIfreq 3 SIOCGIFMETRIC "eth0"; EvClose 3]
               (Mem 3 [Some 2; Some 1]))).
Proof.
  apply (sigar_fqdn_get_frame linux eth_kernel lonely_resolver 1 sigar0
           (world0 0) 64).
  vm_compute. reflexivity.
Defined.

Section DomainStage.
Variable P : platform.
Variable R : resolver.

End DomainStage.

(** ** The logged-in users *)

Lemma sigar_list_insert_all_mem {T : Type} (K : nat) (xs : list T)
    (l l' : sigar_list T) (m m' : mem) :
  sigar_list_insert_all K xs l m = Some (l', m') ->
  (exists p, data l = Some p /\ p < m_next m) ->
  m_freed m' = m_freed m /\ m_next m <= m_next m' /\
  exists p, data l' = Some p /\ p < m_next m' /\
            (data l' = data l \/ m_next m <= p).
Proof.
  revert l m. induction xs as [| x xs IH]; intros l m.
  - intros [= <- <-] (p & Hp & Hlt).
    split; [reflexivity |]. split; [lia |].
    exists p. split; [exact Hp |]. split; [exact Hlt | left; reflexivity].
  - simpl. unfold sigar_list_insert, SIGAR_LIST_GROW, sigar_list_grow, realloc.
    intros H (p & Hp & Hlt).
    destruct (number l =? size l); simpl in H.
    + destruct (decide _) as [_ |]; [| discriminate].
      apply IH in H as (Hfr & Hmono & q & Hq & Hqlt & Hcase).
      2:{ exists (m_next m). simpl. split; [reflexivity | lia]. }
      simpl in Hfr, Hmono, Hcase.
      split; [exact Hfr |]. split; [lia |].
      exists q. split; [exact Hq |]. split; [exact Hqlt |].
      right. destruct Hcase as [Hc | Hc]; [| lia].
      rewrite Hq in Hc. injection Hc as ->. lia.
    + destruct (decide _) as [_ |]; [| discriminate].
      apply IH in H as (Hfr & Hmono & q & Hq & Hqlt & Hcase).
      2:{ exists p. simpl. split; [exact Hp | exact Hlt]. }
      simpl in Hcase.
      split; [exact Hfr |]. split; [exact Hmono |].
      exists q. split; [exact Hq |]. split; [exact Hqlt | exact Hcase].
Qed.

Section WhoFacts.
Variable P : platform.
Variable SIGAR_WHO_LIST_MAX : nat.
Variable USER_PROCESS : Z.
Variable sizeof_who_user sizeof_who_device sizeof_who_host : Z.
Variable SIGAR_SSTRCPY : Z -> string -> string.

(** The read loop is a row of insertions of the records it keeps. *)
Lemma who_read_loop_insert_all (recs : list utmp)
    (l : sigar_list sigar_who_t) (m : mem) :
  who_read_loop SIGAR_WHO_LIST_MAX USER_PROCESS sizeof_who_user
    sizeof_who_device sizeof_who_host SIGAR_SSTRCPY recs l m =
  sigar_list_insert_all SIGAR_WHO_LIST_MAX
    (who_of_utmp sizeof_who_user sizeof_who_device sizeof_who_host
       SIGAR_SSTRCPY <$> List.filter (who_keeps USER_PROCESS) recs) l m.
Proof.
  revert l m. induction recs as [| ut recs IH]; intros l m;
    [reflexivity |].
  simpl. unfold who_keeps at 1.
  destruct (String.eqb (ut_user ut) EmptyString); simpl; [apply IH |].
  destruct (ut_type ut =? USER_PROCESS)%Z; simpl; [| apply IH].
  destruct (sigar_list_insert _ _ l m) as [[l1 m1] |];
    [apply IH | reflexivity].
Qed.

(** X12.  [sigar_who_list_get] on a file that opens: the status is
    [SIGAR_OK] and the list holds, in file order, the copy of every record
    with a non-empty user name and type [USER_PROCESS], and of no other;
    the capacity is the least positive multiple of [SIGAR_WHO_LIST_MAX]
    that holds them; what the list held before is overwritten; nothing is
    released, and [sigar_who_list_destroy] afterwards releases the array,
    a block this call allocated, and nothing else. *)
Theorem sigar_who_list_get_entries (recs : list utmp)
    (wholist : sigar_list sigar_who_t) (m : mem) :
  0 < SIGAR_WHO_LIST_MAX ->
  exists l m' p,
    sigar_who_list_get P SIGAR_WHO_LIST_MAX USER_PROCESS sizeof_who_user
      sizeof_who_device sizeof_who_host SIGAR_SSTRCPY (inr recs) wholist m
      = Some (SIGAR_OK P, l, m') /\
    sigar_list_read l =
      Some <$> (who_of_utmp sizeof_who_user sizeof_who_device
                  sizeof_who_host SIGAR_SSTRCPY
                  <$> List.filter (who_keeps USER_PROCESS) recs) /\
    number l = length (List.filter (who_keeps USER_PROCESS) recs) /\
    size l = SIGAR_WHO_LIST_MAX *
             Nat.max 1 (ceil_div (number l) SIGAR_WHO_LIST_MAX) /\
    m_freed m' = m_freed m /\
    data l = Some p /\ m_next m <= p < m_next m' /\
    list_released (sigar_list_destroy l m').1 /\
    m_freed (sigar_list_destroy l m').2 = m_freed m ++ [Some p].
Proof.
  intros HK.
  unfold sigar_who_list_get.
  pose proof (list_wf_create SIGAR_WHO_LIST_MAX HK wholist m) as Hwf0.
  destruct (sigar_list_create SIGAR_WHO_LIST_MAX wholist m)
    as [l0 m0] eqn:Ecreate.
  simpl in Hwf0.
  rewrite who_read_loop_insert_all.
  destruct (list_wf_insert_all SIGAR_WHO_LIST_MAX HK
              (who_of_utmp sizeof_who_user sizeof_who_device
                 sizeof_who_host SIGAR_SSTRCPY
                 <$> List.filter (who_keeps USER_PROCESS) recs)
              [] l0 m0 Hwf0) as (l & m' & E & Hwf).
  rewrite E. simpl in Hwf.
  pose proof (list_wf_capacity SIGAR_WHO_LIST_MAX HK l _ Hwf) as Hcap.
  destruct Hwf as (Hn & _ & Hrd & _).
  rewrite length_fmap in Hn, Hcap.
  unfold sigar_list_create, malloc in Ecreate. injection Ecreate as <- <-.
  apply sigar_list_insert_all_mem in E as (Hfr & Hmono & p & Hp & Hlt & Hcase).
  2:{ exists (m_next m). simpl. split; [reflexivity | lia]. }
  simpl in Hfr, Hmono, Hcase.
  exists l, m', p.
  split; [reflexivity |]. split; [exact Hrd |]. split; [exact Hn |].
  split; [rewrite Hn; exact Hcap |]. split; [exact Hfr |].
  split; [exact Hp |].
  split.
  { destruct Hcase as [Hc | Hc]; [| lia].
    rewrite Hp in Hc. injection Hc as ->. lia. }
  unfold sigar_list_destroy, list_released.
  assert (Hsz : (size l =? 0) = false).
  { apply Nat.eqb_neq. rewrite Hcap. nia. }
  rewrite Hsz. simpl. split; [split; reflexivity |].
  rewrite Hfr, Hp. reflexivity.
Qed.
End WhoFacts.

(** Three sessions out of [utmp_sample], chunks of two entries. *)
Lemma sigar_who_list_get_entries_sample :
  exists l m' p,
    sigar_who_list_get linux 2 7 32 32 256
      (fun n src => bounded_copy src n) (inr utmp_sample)
      (SigarList 0 0 None []) (Mem 0 [])
      = Some (SIGAR_OK linux, l, m') /\
    sigar_list_read l =
      Some <$> [Who "alice" "tty1" "" 1700000100;
                Who "bob" "pts/0" "10.0.0.9" 1700000200;
                Who "carol" "pts/2" "gateway.example.org" 1700000400]%string /\
    number l = 3 /\
    size l = 2 * Nat.max 1 (ceil_div (number l) 2) /\
    m_freed m' = [] /\
    data l = Some p /\ 0 <= p < m_next m' /\
    list_released (sigar_list_destroy l m').1 /\
    m_freed (sigar_list_destroy l m').2 = [] ++ [Some p].
Proof.
  apply (sigar_who_list_get_entries linux 2 7 32 32 256
           (fun n src => bounded_copy src n) utmp_sample
           (SigarList 0 0 None []) (Mem 0 [])).
  lia.
Defined.

(** ** User and group names *)

Lemma dec_digits_length (fuel k : nat) (n : Z) (acc : string) :
  1 <= k <= fuel -> (0 <= n < 10 ^ Z.of_nat k)%Z ->
  String.length acc + 1 <= String.length (dec_digits fuel n acc)
    <= String.length acc + k.
Proof.
  revert k n acc. induction fuel as [| fuel IH]; intros k n acc Hk Hn;
    [lia |].
  simpl. destruct (n <? 10)%Z eqn:E; [simpl; lia |].
  apply Z.ltb_ge in E.
  destruct k as [| [| k]]; [lia | change (10 ^ Z.of_nat 1)%Z with 10%Z in Hn; lia |].
  assert (Hdiv : (0 <= n / 10 < 10 ^ Z.of_nat (S k))%Z).
  { replace (Z.of_nat (S (S k))) with (Z.succ (Z.of_nat (S k))) in Hn by lia.
    rewrite Z.pow_succ_r in Hn by lia.
    split; [apply Z.div_pos; lia |].
    apply Z.div_lt_upper_bound; lia. }
  pose proof (IH (S k) (n / 10)%Z (String (dec_digit (n mod 10)) acc)
                ltac:(lia) Hdiv) as H.
  simpl String.length in H. lia.
Qed.

(** ["%d"] of an [int] takes at most 11 characters. *)
Lemma fmt_d_int_length (n : Z) :
  (- 2 ^ 31 <= n <= INT_MAX)%Z -> 1 <= String.length (fmt_d n) <= 11.
Proof.
  unfold INT_MAX, fmt_d. intros Hn.
  destruct (n <? 0)%Z eqn:E.
  - apply Z.ltb_lt in E.
    pose proof (dec_digits_length 20 10 (- n) EmptyString ltac:(lia)
                  ltac:(lia)) as H.
    simpl String.length in *. lia.
  - apply Z.ltb_ge in E.
    pose proof (dec_digits_length 20 10 n EmptyString ltac:(lia)
                  ltac:(lia)) as H.
    simpl String.length in *. lia.
Qed.

(** What [strncpy] and the terminator at [buflen - 1] leave: a prefix of
    the source, shorter than the buffer, the whole source when it fits. *)
Lemma substring_prefix (k : nat) (src : string) :
  String.length (substring 0 k src) = Nat.min k (String.length src) /\
  (exists r, src = (substring 0 k src +:+ r)%string) /\
  (String.length src <= k -> substring 0 k src = src).
Proof.
  revert k. induction src as [| c src IH]; intros k.
  - destruct k; simpl; (split; [reflexivity |]);
      (split; [exists EmptyString; reflexivity | reflexivity]).
  - destruct k as [| k]; simpl.
    + split; [reflexivity |]. split; [eexists; reflexivity | lia].
    + destruct (IH k) as (Hlen & [r Hr] & Hfit).
      split; [rewrite Hlen; reflexivity |].
      split.
      * exists r. change (String c src = String c (substring 0 k src +:+ r)).
        rewrite <- Hr. reflexivity.
      * intros H. rewrite Hfit by lia. reflexivity.
Qed.

Lemma strncpy_terminated_bounded (src : string) (buflen : Z) :
  (0 < buflen)%Z ->
  exists b,
    strncpy_terminated src buflen = Some b /\
    (Z.of_nat (String.length b) < buflen)%Z /\
    (exists r, src = (b +:+ r)%string) /\
    ((Z.of_nat (String.length src) < buflen)%Z -> b = src).
Proof.
  intros Hlen. unfold strncpy_terminated.
  assert (E : (buflen <=? 0)%Z = false) by (apply Z.leb_gt; exact Hlen).
  rewrite E. eexists. split; [reflexivity |].
  destruct (substring_prefix (Z.to_nat (buflen - 1)) src)
    as (Hl & Hpre & Hfit).
  split; [rewrite Hl; lia |]. split; [exact Hpre |].
  intros H. apply Hfit. lia.
Qed.

Section UserGroupFacts.
Variable P : platform.
Variable getpwuid_r : Z -> Z * Z * option string.
Variable getgrgid_r : Z -> Z * Z * option (option string).

(** X13.  [sigar_user_name_get] with a buffer of positive length: a
    failing [getpwuid_r] gives [errno] and leaves the buffer alone; a
    record found gives [SIGAR_OK] and a terminated prefix of [pw_name]
    shorter than the buffer, the whole name when it fits; and a call that
    succeeds without a record -- an unknown uid -- makes the function read
    through the null pointer. *)
Theorem sigar_user_name_get_bounded (uid : Z) (buf0 : string) (buflen : Z) :
  (0 < buflen)%Z ->
  ((getpwuid_r uid).1.1 <> 0%Z ->
   sigar_user_name_get P getpwuid_r uid buf0 buflen
     = Done ((getpwuid_r uid).1.2, buf0)) /\
  ((getpwuid_r uid).1.1 = 0%Z -> (getpwuid_r uid).2 = None ->
   sigar_user_name_get P getpwuid_r uid buf0 buflen = Fault) /\
  (forall pw_name,
     (getpwuid_r uid).1.1 = 0%Z -> (getpwuid_r uid).2 = Some pw_name ->
     exists b,
       sigar_user_name_get P getpwuid_r uid buf0 buflen
         = Done (SIGAR_OK P, b) /\
       (Z.of_nat (String.length b) < buflen)%Z /\
       (exists r, pw_name = (b +:+ r)%string) /\
       ((Z.of_nat (String.length pw_name) < buflen)%Z -> b = pw_name)).
Proof.
  intros Hlen. unfold sigar_user_name_get.
  destruct (getpwuid_r uid) as [[ret e] pw]. simpl.
  split; [| split].
  - intros Hret. apply Z.eqb_neq in Hret. rewrite Hret. reflexivity.
  - intros -> ->. reflexivity.
  - intros nm -> ->. simpl.
    destruct (strncpy_terminated_bounded nm buflen Hlen)
      as (b & E & Hb & Hpre & Hfit).
    rewrite E. exists b. repeat split; assumption.
Qed.

(** X14.  [sigar_group_name_get] with a buffer of at least 12 bytes and
    an [int] gid never reads through a null pointer nor writes outside the
    buffer: a failing [getgrgid_r] gives [errno] and leaves the buffer
    alone; otherwise the status is [SIGAR_OK] and the buffer holds a
    string shorter than itself -- a prefix of [gr_name], the whole name
    when it fits, or, when the record or its name is missing, the gid in
    decimal. *)
Theorem sigar_group_name_get_bounded (gid : Z) (buf0 : string) (buflen : Z) :
  (12 <= buflen)%Z -> (- 2 ^ 31 <= gid <= INT_MAX)%Z ->
  ((getgrgid_r gid).1.1 <> 0%Z ->
   sigar_group_name_get P getgrgid_r gid buf0 buflen
     = Done ((getgrgid_r gid).1.2, buf0)) /\
  ((getgrgid_r gid).1.1 = 0%Z ->
   exists b,
     sigar_group_name_get P getgrgid_r gid buf0 buflen
       = Done (SIGAR_OK P, b) /\
     (Z.of_nat (String.length b) < buflen)%Z /\
     match (getgrgid_r gid).2 with
     | Some (Some gr_name) =>
         (exists r, gr_name = (b +:+ r)%string) /\
         ((Z.of_nat (String.length gr_name) < buflen)%Z -> b = gr_name)
     | _ => b = fmt_d gid
     end).
Proof.
  intros Hlen Hgid. unfold sigar_group_name_get.
  destruct (getgrgid_r gid) as [[ret e] gr]. simpl.
  split.
  - intros Hret. apply Z.eqb_neq in Hret. rewrite Hret. reflexivity.
  - intros ->. simpl.
    assert (Hd : exists b, sprintf_d_terminated gid buflen = Some b /\
                           (Z.of_nat (String.length b) < buflen)%Z /\
                           b = fmt_d gid).
    { unfold sprintf_d_terminated.
      pose proof (fmt_d_int_length gid Hgid) as Hl.
      assert (E : (buflen <? Z.of_nat (String.length (fmt_d gid)) + 1)%Z
                  = false) by (apply Z.ltb_ge; lia).
      rewrite E. eexists. split; [reflexivity |].
      split; [lia | reflexivity]. }
    destruct gr as [[nm |] |].
    + destruct (strncpy_terminated_bounded nm buflen ltac:(lia))
        as (b & E & Hb & Hpre & Hfit).
      rewrite E. exists b. repeat split; assumption.
    + destruct Hd as (b & E & Hb & Hfmt). rewrite E. exists b.
      repeat split; assumption.
    + destruct Hd as (b & E & Hb & Hfmt). rewrite E. exists b.
      repeat split; assumption.
Qed.
End UserGroupFacts.

(** [alice] in a buffer of 4 bytes. *)
Lemma sigar_user_name_get_bounded_alice :
  ((passwd_sample 1000).1.1 <> 0%Z ->
   sigar_user_name_get linux passwd_sample 1000 "????" 4
     = Done ((passwd_sample 1000).1.2, "????"%string)) /\
  ((passwd_sample 1000).1.1 = 0%Z -> (passwd_sample 1000).2 = None ->
   sigar_user_name_get linux passwd_sample 1000 "????" 4 = Fault) /\
  (forall pw_name,
     (passwd_sample 1000).1.1 = 0%Z ->
     (passwd_sample 1000).2 = Some pw_name ->
     exists b,
       sigar_user_name_get linux passwd_sample 1000 "????" 4
         = Done (SIGAR_OK linux, b) /\
       (Z.of_nat (String.length b) < 4)%Z /\
       (exists r, pw_name = (b +:+ r)%string) /\
       ((Z.of_nat (String.length pw_name) < 4)%Z -> b = pw_name)).
Proof.
  apply (sigar_user_name_get_bounded linux passwd_sample 1000 "????" 4).
  lia.
Defined.

Example sigar_user_name_get_samples :
  sigar_user_name_get linux passwd_sample 1000 "????" 4
    = Done (0%Z, "ali"%string) /\
  sigar_user_name_get linux passwd_sample 0 "????" 16
    = Done (0%Z, "root"%string) /\
  sigar_user_name_get linux passwd_sample 4242 "????" 16 = Fault.
Proof. vm_compute. repeat split. Qed.

(** A gid that is not listed, in a buffer of 12 bytes. *)
Lemma sigar_group_name_get_bounded_unlisted :
  ((group_sample (-1)).1.1 <> 0%Z ->
   sigar_group_name_get linux group_sample (-1) "????" 12
     = Done ((group_sample (-1)).1.2, "????"%string)) /\
  ((group_sample (-1)).1.1 = 0%Z ->
   exists b,
     sigar_group_name_get linux group_sample (-1) "????" 12
       = Done (SIGAR_OK linux, b) /\
     (Z.of_nat (String.length b) < 12)%Z /\
     match (group_sample (-1)).2 with
     | Some (Some gr_name) =>
         (exists r, gr_name = (b +:+ r)%string) /\
         ((Z.of_nat (String.length gr_name) < 12)%Z -> b = gr_name)
     | _ => b = fmt_d (-1)
     end).
Proof.
  apply (sigar_group_name_get_bounded linux group_sample (-1) "????" 12).
  - lia.
  - unfold INT_MAX. lia.
Defined.

Example sigar_group_name_get_samples :
  sigar_group_name_get linux group_sample (-1) "????" 12
    = Done (0%Z, "-1"%string) /\
  sigar_group_name_get linux group_sample 10 "????" 4
    = Done (0%Z, "whe"%string) /\
  sigar_group_name_get linux group_sample 100000 "????" 4 = Fault.
Proof. vm_compute. repeat split. Qed.

(** ** Filesystem types: the common table, and a second call *)

Lemma set_fs_type_same (fsp : sigar_file_system_t) :
  set_fs_type (fs_type fsp) fsp = fsp.
Proof. destruct fsp. reflexivity. Qed.

Lemma sigar_common_fs_type_get_return (fsp : sigar_file_system_t) :
  (sigar_common_fs_type_get fsp).2 =
    fs_type (sigar_common_fs_type_get fsp).1.
Proof. reflexivity. Qed.

(** X15.  The dispatch of [sigar_common_fs_type_get] on the first
    character is a table of nine names: [nfs], [smbfs] and [afs] are
    network filesystems, [swap] is swap, [iso9660] a CD-ROM, [msdos],
    [minix], [hpfs] and [vfat] local disks; any other name, the empty one
    included, leaves the type as it was.  The names are never modified
    and the value returned is the type stored. *)
Theorem sigar_common_fs_type_get_table (fsp : sigar_file_system_t) :
  (sigar_common_fs_type_get fsp).1 =
    set_fs_type (sigar_common_fs_type_get fsp).2 fsp /\
  (In (sys_type_name fsp) ["nfs"; "smbfs"; "afs"]%string ->
   (sigar_common_fs_type_get fsp).2 = SIGAR_FSTYPE_NETWORK) /\
  (sys_type_name fsp = "swap"%string ->
   (sigar_common_fs_type_get fsp).2 = SIGAR_FSTYPE_SWAP) /\
  (sys_type_name fsp = "iso9660"%string ->
   (sigar_common_fs_type_get fsp).2 = SIGAR_FSTYPE_CDROM) /\
  (In (sys_type_name fsp) ["msdos"; "minix"; "hpfs"; "vfat"]%string ->
   (sigar_common_fs_type_get fsp).2 = SIGAR_FSTYPE_LOCAL_DISK) /\
  (~ In (sys_type_name fsp)
        ["nfs"; "smbfs"; "afs"; "swap"; "iso9660";
         "msdos"; "minix"; "hpfs"; "vfat"]%string ->
   (sigar_common_fs_type_get fsp).2 = fs_type fsp).
Proof.
  split.
  { unfold sigar_common_fs_type_get. simpl.
    destruct (sys_type_name fsp) as [| c r]; [symmetry; apply set_fs_type_same |].
    repeat match goal with
           | |- context [if ?b then _ else _] => destruct b
           end; simpl; solve [reflexivity | symmetry; apply set_fs_type_same]. }
  assert (Hknown : forall nm t,
            sigar_common_fs_type_get
              (FileSystem (fs_type fsp) nm (type_name fsp)) =
            (FileSystem t nm (type_name fsp), t) ->
            sys_type_name fsp = nm ->
            (sigar_common_fs_type_get fsp).2 = t).
  { intros nm t Hrun Hnm. destruct fsp as [ty snm tnm].
    cbn [fs_type sys_type_name type_name] in Hrun, Hnm.
    subst snm. rewrite Hrun. reflexivity. }
  split; [| split; [| split; [| split]]].
  - intros [H | [H | [H | []]]]; symmetry in H;
      revert H; apply Hknown; reflexivity.
  - apply Hknown. reflexivity.
  - apply Hknown. reflexivity.
  - intros [H | [H | [H | [H | []]]]]; symmetry in H;
      revert H; apply Hknown; reflexivity.
  - intros Hnot. unfold sigar_common_fs_type_get, strEQ. cbv zeta.
    assert (Hne : forall x,
              In x ["nfs"; "smbfs"; "afs"; "swap"; "iso9660";
                    "msdos"; "minix"; "hpfs"; "vfat"]%string ->
              String.eqb (sys_type_name fsp) x = false).
    { intros x Hx. apply String.eqb_neq. intros E. apply Hnot.
      rewrite E. exact Hx. }
    rewrite !Hne by (simpl; tauto). simpl.
    destruct (sys_type_name fsp) as [| c r]; [reflexivity |].
    repeat match goal with
           | |- context [if ?b then _ else _] => destruct b
           end; reflexivity.
Qed.

(** X16.  Once [sigar_fs_type_get] has left a type other than
    [SIGAR_FSTYPE_UNKNOWN], a second call changes nothing, whatever the
    OS-specific lookup would do: the lookups are not consulted again.
    The type is left unknown only when it was unset and the OS-specific
    lookup returned non-zero without setting it. *)
Theorem sigar_fs_type_get_settled
    (os os' : sigar_file_system_t -> sigar_file_system_t * Z)
    (fsp fsp' : sigar_file_system_t) :
  sigar_fs_type_get os fsp = Some fsp' ->
  (fs_type fsp' <> SIGAR_FSTYPE_UNKNOWN ->
   sigar_fs_type_get os' fsp' = Some fsp') /\
  (fs_type fsp' = SIGAR_FSTYPE_UNKNOWN ->
   fs_type fsp = SIGAR_FSTYPE_UNKNOWN /\ (os fsp).2 <> 0%Z /\
   fs_type (os fsp).1 = SIGAR_FSTYPE_UNKNOWN).
Proof.
  unfold sigar_fs_type_get at 1.
  set (fsp1 := if negb (fs_type fsp =? 0)%N then fsp else _).
  pose proof (sigar_fs_type_get_clamp fsp1) as Hlt.
  set (fsp2 := if (SIGAR_FSTYPE_MAX <=? fs_type fsp1)%N then _ else _) in *.
  destruct (fstype_names !! N.to_nat (fs_type fsp2)) as [nm |] eqn:Hnm;
    [| discriminate].
  intros [= <-]. simpl. split.
  - intros Hset. unfold sigar_fs_type_get. simpl.
    assert (E0 : (fs_type fsp2 =? 0)%N = false)
      by (apply N.eqb_neq; exact Hset).
    rewrite E0. simpl.
    assert (E1 : (SIGAR_FSTYPE_MAX <=? fs_type fsp2)%N = false)
      by (apply N.leb_gt; exact Hlt).
    rewrite E1. simpl. rewrite Hnm. reflexivity.
  - unfold SIGAR_FSTYPE_UNKNOWN. intros H0. subst fsp2 fsp1.
    clear Hlt Hnm.
    destruct (fs_type fsp =? 0)%N eqn:E; cbn [negb] in H0.
    2:{ destruct (SIGAR_FSTYPE_MAX <=? fs_type fsp)%N;
          [cbv in H0; discriminate H0 |
           apply N.eqb_neq in E; contradiction]. }
    apply N.eqb_eq in E. split; [exact E |].
    destruct (os fsp) as [fsp_os r_os]. cbn [fst snd].
    destruct (r_os =? 0)%Z eqn:Er; cbn [negb] in H0.
    + exfalso.
      pose proof (sigar_common_fs_type_get_return fsp_os) as Hr.
      destruct (sigar_common_fs_type_get fsp_os) as [fsp_c r_c].
      cbn [fst snd] in Hr.
      destruct (r_c =? 0)%N eqn:Erc; cbn [negb] in H0.
      * cbv in H0. discriminate H0.
      * apply N.eqb_neq in Erc.
        destruct (SIGAR_FSTYPE_MAX <=? fs_type fsp_c)%N;
          [cbv in H0; discriminate H0 | congruence].
    + apply Z.eqb_neq in Er. split; [exact Er |].
      destruct (SIGAR_FSTYPE_MAX <=? fs_type fsp_os)%N;
        [cbv in H0; discriminate H0 | exact H0].
Qed.

(** An [nfs] mount, recognised by the common table, and a second call with
    an OS-specific lookup that would say CD-ROM. *)
Lemma sigar_fs_type_get_settled_nfs :
  (fs_type (FileSystem 3 "nfs" "remote") <> SIGAR_FSTYPE_UNKNOWN ->
   sigar_fs_type_get (fun f => (set_fs_type SIGAR_FSTYPE_CDROM f, 1%Z))
     (FileSystem 3 "nfs" "remote")
     = Some (FileSystem 3 "nfs" "remote")) /\
  (fs_type (FileSystem 3 "nfs" "remote") = SIGAR_FSTYPE_UNKNOWN ->
   fs_type (FileSystem 0 "nfs" "") = SIGAR_FSTYPE_UNKNOWN /\
   (FileSystem 0 "nfs" "", 0%Z).2 <> 0%Z /\
   fs_type (FileSystem 0 "nfs" "", 0%Z).1 = SIGAR_FSTYPE_UNKNOWN).
Proof.
  apply (sigar_fs_type_get_settled
           (fun f => (f, 0%Z))
           (fun f => (set_fs_type SIGAR_FSTYPE_CDROM f, 1%Z))
           (FileSystem 0 "nfs" "") (FileSystem 3 "nfs" "remote")).
  vm_compute. reflexivity.
Defined.

(** ** The system calls of a configuration lookup *)

Section ConfigProtocol.
Context {K : Type}.
Variable P : platform.
Variable kern : kernel K.

Ltac next_ifreq H :=
  match type of H with
  | context [sys_ifreq kern ?fd ?req ?nm ?w] =>
      let r := fresh "r" in
      let w' := fresh "w" in
      let E := fresh "E" in
      let Hlog := fresh "Hlog" in
      destruct (sys_ifreq kern fd req nm w) as [r w'] eqn:E;
      destruct (sys_ifreq_spec kern _ _ _ _ _ _ E) as [Hlog _]
  end.

(** X17.  The system calls of [sigar_net_interface_config_get] follow one
    of five scripts: a failed [socket] alone; or [socket], then requests
    on that descriptor for the bounded copy of the name, then [close] --
    the requests being the address alone (it failed), address, netmask and
    flags (the flags failed), these three with MTU and metric (a loopback
    interface), or all eight (any other interface).  The status is
    [errno] on the first three scripts and [SIGAR_OK] on the last two. *)
Theorem sigar_net_interface_config_get_protocol (name : string)
    (w w' : world K) (st : Z) (c : sigar_net_interface_config_t) :
  sigar_net_interface_config_get P kern name w = (st, c, w') ->
  exists reqs,
    w_log w' =
      w_log w ++
      EvSocket (sys_socket kern w).1 ::
      ((fun req => EvIfreq (sys_socket kern w).1 req
                     (SIGAR_STRNCPY P name (IFNAMSIZ P))) <$> reqs) ++
      (if ((sys_socket kern w).1 <? 0)%Z then []
       else [EvClose (sys_socket kern w).1]) /\
    (((sys_socket kern w).1 < 0)%Z /\ reqs = [] /\
     st = w_errno w' /\ c = ifconfig_zero \/
     (0 <= (sys_socket kern w).1)%Z /\
     (reqs = [SIOCGIFADDR] /\ st = w_errno w' \/
      reqs = [SIOCGIFADDR; SIOCGIFNETMASK; SIOCGIFFLAGS] /\
      st = w_errno w' \/
      reqs = [SIOCGIFADDR; SIOCGIFNETMASK; SIOCGIFFLAGS;
              SIOCGIFMTU; SIOCGIFMETRIC] /\
      st = SIGAR_OK P /\
      Z.land (cfg_flags c) (IFF_LOOPBACK P) <> 0%Z \/
      reqs = [SIOCGIFADDR; SIOCGIFNETMASK; SIOCGIFFLAGS;
              SIOCGIFDSTADDR; SIOCGIFBRDADDR; SIOCGIFHWADDR;
              SIOCGIFMTU; SIOCGIFMETRIC] /\
      st = SIGAR_OK P /\
      Z.land (cfg_flags c) (IFF_LOOPBACK P) = 0%Z)).
Proof.
  unfold sigar_net_interface_config_get.
  destruct (sys_socket kern w) as [sock w0] eqn:Es.
  destruct (sys_socket_spec kern _ _ _ Es) as [Hlog0 _].
  cbn [fst snd].
  destruct (sock <? 0)%Z eqn:Esock.
  { intros [= <- <- <-]. exists []. simpl.
    split; [exact Hlog0 |]. left.
    apply Z.ltb_lt in Esock. split; [exact Esock |]. repeat split. }
  apply Z.ltb_ge in Esock.
  intros H.
  next_ifreq H.
  destruct (negb (ir_ret r =? 0)%Z).
  { injection H as <- <- <-. exists [SIOCGIFADDR]. simpl.
    rewrite Hlog, Hlog0, <- !app_assoc.
    split; [reflexivity |]. right. split; [exact Esock |].
    left. split; reflexivity. }
  next_ifreq H. next_ifreq H.
  destruct (negb (ir_ret r1 =? 0)%Z).
  { injection H as <- <- <-.
    exists [SIOCGIFADDR; SIOCGIFNETMASK; SIOCGIFFLAGS]. simpl.
    rewrite Hlog2, Hlog1, Hlog, Hlog0, <- !app_assoc.
    split; [reflexivity |]. right. split; [exact Esock |].
    right; left. split; reflexivity. }
  set (flags := if negb (Z.land (to_u64 (ir_val r1)) (IFF_MULTICAST P) =? 0)%Z
                then _ else _) in H.
  destruct (negb (Z.land flags (IFF_LOOPBACK P) =? 0)%Z) eqn:Eloop.
  - next_ifreq H. next_ifreq H.
    injection H as <- <- <-.
    exists [SIOCGIFADDR; SIOCGIFNETMASK; SIOCGIFFLAGS;
            SIOCGIFMTU; SIOCGIFMETRIC]. simpl.
    rewrite Hlog4, Hlog3, Hlog2, Hlog1, Hlog, Hlog0, <- !app_assoc.
    split; [reflexivity |]. right. split; [exact Esock |].
    right; right; left. split; [reflexivity |]. split; [reflexivity |].
    apply negb_true_iff, Z.eqb_neq in Eloop. exact Eloop.
  - do 5 next_ifreq H.
    injection H as <- <- <-.
    exists [SIOCGIFADDR; SIOCGIFNETMASK; SIOCGIFFLAGS;
            SIOCGIFDSTADDR; SIOCGIFBRDADDR; SIOCGIFHWADDR;
            SIOCGIFMTU; SIOCGIFMETRIC]. simpl.
    rewrite Hlog7, Hlog6, Hlog5, Hlog4, Hlog3, Hlog2, Hlog1, Hlog, Hlog0,
      <- !app_assoc.
    split; [reflexivity |]. right. split; [exact Esock |].
    right; right; right. split; [reflexivity |]. split; [reflexivity |].
    apply negb_false_iff, Z.eqb_eq in Eloop. exact Eloop.
Qed.
End ConfigProtocol.

(** The eight requests for [eth0]. *)
Lemma sigar_net_interface_config_get_protocol_eth0 :
  exists reqs,
    w_log (sigar_net_interface_config_get linux eth_kernel "eth0"
             (world0 0)).2 =
      [] ++ EvSocket 3 ::
      ((fun req => EvIfreq 3 req "eth0") <$> reqs) ++ [EvClose 3] /\
    ((3 < 0)%Z /\ reqs = [] /\
     0%Z = 0%Z /\
     (sigar_net_interface_config_get linux eth_kernel "eth0"
        (world0 0)).1.2 = ifconfig_zero \/
     (0 <= 3)%Z /\
     (reqs = [SIOCGIFADDR] /\ 0%Z = 0%Z \/
      reqs = [SIOCGIFADDR; SIOCGIFNETMASK; SIOCGIFFLAGS] /\ 0%Z = 0%Z \/
      reqs = [SIOCGIFADDR; SIOCGIFNETMASK; SIOCGIFFLAGS;
              SIOCGIFMTU; SIOCGIFMETRIC] /\
      0%Z = SIGAR_OK linux /\
      Z.land 6211 (IFF_LOOPBACK linux) <> 0%Z \/
      reqs = [SIOCGIFADDR; SIOCGIFNETMASK; SIOCGIFFLAGS;
              SIOCGIFDSTADDR; SIOCGIFBRDADDR; SIOCGIFHWADDR;
              SIOCGIFMTU; SIOCGIFMETRIC] /\
      0%Z = SIGAR_OK linux /\
      Z.land 6211 (IFF_LOOPBACK linux) = 0%Z)).
Proof.
  apply (sigar_net_interface_config_get_protocol linux eth_kernel "eth0"
           (world0 0)
           (sigar_net_interface_config_get linux eth_kernel "eth0"
              (world0 0)).2
           (sigar_net_interface_config_get linux eth_kernel "eth0"
              (world0 0)).1.1
           (sigar_net_interface_config_get linux eth_kernel "eth0"
              (world0 0)).1.2).
  vm_compute. reflexivity.
Defined.

(** ** A second enumeration *)

Section BufferReuse.
Context {K : Type}.
Variable P : platform.
Variable kern : kernel K.

(** X18.  The buffer kept in the session serves the next enumeration: when
    the session holds a buffer longer than the [R] bytes the kernel needs,
    the call makes one [SIOCGIFCONF] request with the length it has,
    between [socket] and [close], leaves the session exactly as it was --
    no reallocation -- and returns [SIGAR_OK] with one name per record of
    the [R] bytes. *)
Theorem sigar_net_interface_list_get_reuses_buffer (R : Z) (fuel : nat)
    (s : sigar_t) (w : world K) (l0 : sigar_list cstr) :
  fixed_requirement kern R ->
  is_Some (ifconf_buf s) -> (R < ifconf_len s)%Z ->
  (0 <= (sys_socket kern w).1)%Z ->
  exists l w',
    sigar_net_interface_list_get P kern (S fuel) s w l0
      = Done (SIGAR_OK P, l, s, w') /\
    w_log w' =
      w_log w ++ [EvSocket (sys_socket kern w).1;
                  EvIfconf (sys_socket kern w).1 (ifconf_len s);
                  EvClose (sys_socket kern w).1] /\
    number l = ifreq_count P R /\
    m_freed (w_mem w') = m_freed (w_mem w) /\
    m_next (w_mem w') = S (m_next (w_mem w)) + ifreq_count P R.
Proof.
  intros [HR Hfix] Hbuf Hlen Hsock.
  destruct (sys_socket kern w) as [sock w0] eqn:Es.
  destruct (sys_socket_spec kern _ _ _ Es) as [Hlog0 _].
  assert (Hmem0 : w_mem w0 = w_mem w).
  { unfold sys_socket in Es.
    destruct (k_socket kern (w_kernel w)) as [[fd e] k'].
    injection Es as _ <-. reflexivity. }
  cbn [fst snd] in Hsock |- *.
  destruct (Hfix (w_kernel w0) sock (ifconf_len s) Hlen) as [Hret HlenR].
  assert (Hloop :
    ifconf_loop P kern (S fuel) sock 0 s w0 =
      Done (s, (sys_ifconf kern sock (ifconf_len s) w0).2,
            inr (sys_ifconf kern sock (ifconf_len s) w0).1)).
  { rewrite ifconf_loop_S. unfold ifconf_iter.
    rewrite (bool_decide_eq_true_2 _ Hbuf). simpl.
    unfold sys_ifconf.
    destruct (k_ifconf kern (w_kernel w0) sock (ifconf_len s)) as [r k'].
    simpl in Hret, HlenR |- *.
    assert (E1 : (ic_ret r <? 0)%Z = false) by (apply Z.ltb_ge; exact Hret).
    assert (E2 : (ic_len r <? ifconf_len s)%Z = true)
      by (apply Z.ltb_lt; lia).
    rewrite E1, E2. reflexivity. }
  rewrite sigar_net_interface_list_get_eq, Es. cbn [fst snd].
  assert (E0 : (sock <? 0)%Z = false) by (apply Z.ltb_ge; exact Hsock).
  rewrite E0, Hloop.
  unfold sys_ifconf.
  destruct (k_ifconf kern (w_kernel w0) sock (ifconf_len s)) as [r k'].
  cbn [fst snd w_mem] in HlenR |- *. subst R.
  edestruct (ifconf_copy_names_blocks
               (ic_req r <$> seq 0 (ifreq_count P (ic_len r)))
               (SigarList 0 (Z.to_nat (ic_len r))
                  (Some (m_next (w_mem w0)))
                  (replicate (Z.to_nat (ic_len r)) None))
               (Mem (S (m_next (w_mem w0))) (m_freed (w_mem w0))))
    as (l & cs & Ecopy & _ & _ & Hn & _).
  { simpl. rewrite length_fmap, length_seq, length_replicate.
    apply ifreq_count_le. }
  rewrite Ecopy. simpl.
  rewrite length_fmap, length_seq in Hn. simpl in Hn.
  eexists l, _. split; [reflexivity |]. simpl.
  rewrite Hlog0, <- !app_assoc, Hmem0, length_fmap, length_seq.
  repeat split. exact Hn.
Qed.
End BufferReuse.

(** The session a first enumeration left, against [need_kernel 40]. *)
Lemma sigar_net_interface_list_get_reuses_buffer_800 :
  exists l w',
    sigar_net_interface_list_get linux (need_kernel 40) 1
      (Sigar (Some 0) 800) (World tt 0%Z [] [] (Mem 1 []))
      (SigarList 0 0 None [])
      = Done (SIGAR_OK linux, l, Sigar (Some 0) 800, w') /\
    w_log w' = [] ++ [EvSocket 3; EvIfconf 3 800; EvClose 3] /\
    number l = ifreq_count linux 40 /\
    m_freed (w_mem w') = [] /\
    m_next (w_mem w') = S 1 + ifreq_count linux 40.
Proof.
  apply (sigar_net_interface_list_get_reuses_buffer linux (need_kernel 40)
           40 0 (Sigar (Some 0) 800) (World tt 0%Z [] [] (Mem 1 []))
           (SigarList 0 0 None [])).
  - apply need_kernel_fixed. lia.
  - exists 0. reflexivity.
  - simpl. lia.
  - simpl. lia.
Defined.

(** ** The reverse lookups *)

Section ReverseLookups.
Variable R : resolver.

(** X19.  The loop over [h_addr_list]: a name it finds is dotted and is
    the canonical name of the reverse record of one of the addresses, or
    one of its aliases that starts with that canonical name; it finds
    nothing only when every address is passed over; and it reads through a
    null pointer exactly when, every address before it being passed over,
    it reaches an address with no reverse record or with a record whose
    name has no dot and whose alias array is null. *)
Theorem fqdn_addr_scan_result (addrs : list (list Z)) (p : hostent) :
  (forall x,
     fqdn_addr_scan R addrs p = Done (Some x) ->
     IS_FQDN x = true /\
     exists a q,
       In a addrs /\
       gethostbyaddr R a (h_length p) (h_addrtype p) = Some q /\
       (x = h_name q \/
        exists al rest,
          h_aliases q = Some al /\ In x al /\
          x = (h_name q +:+ rest)%string)) /\
  (fqdn_addr_scan R addrs p = Done None <->
   forall a, In a addrs -> passes_over R p a) /\
  (fqdn_addr_scan R addrs p = Fault <->
   exists pre a post,
     addrs = pre ++ a :: post /\
     (forall b, In b pre -> passes_over R p b) /\
     (gethostbyaddr R a (h_length p) (h_addrtype p) = None \/
      exists q,
        gethostbyaddr R a (h_length p) (h_addrtype p) = Some q /\
        IS_FQDN (h_name q) = false /\ h_aliases q = None)).
Proof.
  induction addrs as [| a addrs (IHsome & IHnone & IHfault)].
  - simpl. split; [discriminate |]. split.
    + split; [intros _ a [] | reflexivity].
    + split; [discriminate |].
      intros (pre & a & post & Hnil & _). destruct pre; discriminate.
  - simpl.
    destruct (gethostbyaddr R a (h_length p) (h_addrtype p))
      as [q |] eqn:Eq.
    2:{ (* no reverse record *)
      split; [discriminate |]. split.
      - split; [discriminate |]. intros H.
        destruct (H a (or_introl eq_refl)) as (q & al & Hq & _).
        congruence.
      - split; [| reflexivity]. intros _.
        exists [], a, addrs. split; [reflexivity |].
        split; [intros b [] | left; exact Eq]. }
    destruct (IS_FQDN (h_name q)) eqn:Edot.
    { (* the canonical name is dotted *)
      split.
      - intros x [= <-]. split; [exact Edot |].
        exists a, q. split; [left; reflexivity |].
        split; [exact Eq | left; reflexivity].
      - split.
        + split; [discriminate |]. intros H.
          destruct (H a (or_introl eq_refl)) as (q' & al & Hq & Hd & _).
          congruence.
        + split; [discriminate |].
          intros (pre & b & post & Hl & Hpre & Hb).
          destruct pre as [| c pre]; injection Hl as <- Hl.
          * destruct Hb as [Hb | (q' & Hq & Hd & _)]; congruence.
          * destruct (Hpre a (or_introl eq_refl)) as (q' & al & Hq & Hd & _).
            congruence. }
    destruct (h_aliases q) as [al |] eqn:Eal.
    2:{ (* a null alias array *)
      split; [discriminate |]. split.
      - split; [discriminate |]. intros H.
        destruct (H a (or_introl eq_refl)) as (q' & al & Hq & _ & Ha & _).
        congruence.
      - split; [| reflexivity]. intros _.
        exists [], a, addrs. split; [reflexivity |].
        split; [intros b [] |].
        right. exists q. repeat split; assumption. }
    destruct (alias_scan al (h_name q)) as [y |] eqn:Escan.
    { (* an alias matches *)
      pose proof (proj1 (alias_scan_first al (h_name q) y) Escan)
        as (pre & post & Hal & Hm & _).
      apply H_ALIAS_MATCH_iff in Hm as [Hd [rest Hrest]].
      split.
      - intros x [= <-]. split; [apply IS_FQDN_dot; exact Hd |].
        exists a, q. split; [left; reflexivity |]. split; [exact Eq |].
        right. exists al, rest. split; [exact Eal |].
        split; [| exact Hrest].
        rewrite Hal. apply in_or_app. right. left. reflexivity.
      - split.
        + split; [discriminate |]. intros H.
          destruct (H a (or_introl eq_refl))
            as (q' & al' & Hq & _ & Ha & Hs).
          congruence.
        + split; [discriminate |].
          intros (pre' & b & post' & Hl & Hpre & Hb).
          destruct pre' as [| c pre']; injection Hl as <- Hl.
          * destruct Hb as [Hb | (q' & Hq & _ & Ha)]; congruence.
          * destruct (Hpre a (or_introl eq_refl))
              as (q' & al' & Hq & _ & Ha & Hs).
            congruence. }
    (* passed over: the rest of the list decides *)
    assert (Hover : passes_over R p a).
    { exists q, al. repeat split; assumption. }
    split; [| split].
    + intros x Hx. destruct (IHsome x Hx) as (Hd & b & q' & Hin & Hrest).
      split; [exact Hd |]. exists b, q'. split; [right; exact Hin |].
      exact Hrest.
    + rewrite IHnone. split.
      * intros H b [<- | Hb]; [exact Hover | apply H; exact Hb].
      * intros H b Hb. apply H. right. exact Hb.
    + rewrite IHfault. split.
      * intros (pre & b & post & -> & Hpre & Hb).
        exists (a :: pre), b, post. split; [reflexivity |].
        split; [| exact Hb].
        intros c [<- | Hc]; [exact Hover | apply Hpre; exact Hc].
      * intros (pre & b & post & Hl & Hpre & Hb).
        destruct pre as [| c pre]; injection Hl as <- Hl.
        -- destruct Hb as [Hb | (q' & Hq & _ & Ha)]; congruence.
        -- exists pre, b, post. split; [exact Hl |].
           split; [| exact Hb].
           intros d Hd. apply Hpre. right. exact Hd.
Qed.
End ReverseLookups.

(** ** The multicast flag *)





Section MulticastFlag.
Context {K : Type}.
Variable P : platform.
Variable kern : kernel K.


End MulticastFlag.

